(** * zim-mcp: the caching and search-orchestration core, embedded in Rocq

    The development follows the Python sources of [zim_mcp]:
    - [utils.py]: [validate_zim_file_path], [truncate_text],
      [clean_html_content], [LRUCache], [validate_search_query],
      [extract_text_preview];
    - [zim_manager.py]: the methods of [ZimManager] that open archives,
      fetch entries, and discover and describe files;
    - [search_engine.py]: the whole [SearchEngine];
    - [content_extractor.py]: [_extract_from_entry] and its helpers,
      [extract_entry_content], [get_content_summary];
    - [server.py]: the tools [search_zim_files], [read_zim_entry],
      [browse_zim_entries] and [get_random_entries], with their
      responses from [models.py].

    Python [str] values are lists of code points, [int] values are [Z],
    dictionaries are [gmap]s, and a method is a state transformer that
    returns either the exception it raised or its result, together with
    the state it left behind (a raised exception does not undo the
    mutations made before it). *)

From Stdlib Require Import ZArith List Ascii String DecimalString Floats.
From Stdlib.Strings Require Import Byte.
From stdpp Require Import base option list gmap sorting.
Import ListNotations.
Local Open Scope Z_scope.
Local Open Scope list_scope.
Set Warnings "-clear-no-such-hyp,-level-tolerance".

(** ** Python values *)

(** A [str] is a sequence of Unicode code points; [len] is its length. *)
Abbreviation str := (list N).

(** The code points of a literal. *)
Definition lit (s : string) : str :=
  map N_of_ascii (list_ascii_of_string s).

Definition len {A} (l : list A) : Z := Z.of_nat (length l).

(** Exceptions, with the part of the class hierarchy that the handlers of
    the sources distinguish: [UnicodeDecodeError] is a [ValueError];
    [IndexError] and [KeyError] are [LookupError]s and are neither
    [OSError], [ValueError] nor [RuntimeError]. *)
Inductive exn : Type :=
  | ValueError (msg : str)
  | UnicodeDecodeError
  | OSError
  | RuntimeError
  | IndexError
  | KeyError
  | AttributeError.

(** [except (OSError, ValueError, RuntimeError)] *)
Definition is_OSError_ValueError_RuntimeError (e : exn) : bool :=
  match e with
  | ValueError _ | UnicodeDecodeError | OSError | RuntimeError => true
  | IndexError | KeyError | AttributeError => false
  end.

(** [except (KeyError, ValueError, RuntimeError)] *)
Definition is_KeyError_ValueError_RuntimeError (e : exn) : bool :=
  match e with
  | ValueError _ | UnicodeDecodeError | KeyError | RuntimeError => true
  | OSError | IndexError | AttributeError => false
  end.

(** ** Stateful, fallible computations *)

Definition Py (S A : Type) : Type := S -> (exn + A) * S.

Definition ret {S A} (a : A) : Py S A := fun s => (inr a, s).
Definition raise {S A} (e : exn) : Py S A := fun s => (inl e, s).
Definition bind {S A B} (m : Py S A) (k : A -> Py S B) : Py S B :=
  fun s => match m s with
           | (inr a, s') => k a s'
           | (inl e, s') => (inl e, s')
           end.
Definition state {S} : Py S S := fun s => (inr s, s).
Definition modify {S} (f : S -> S) : Py S unit := fun s => (inr tt, f s).

(** [try: m except <classes>: h] *)
Definition try_except {S A} (m : Py S A) (classes : exn -> bool)
    (h : exn -> Py S A) : Py S A :=
  fun s => match m s with
           | (inr a, s') => (inr a, s')
           | (inl e, s') => if classes e then h e s' else (inl e, s')
           end.

(** Running a method of a sub-object stored in a field of the state. *)
Definition zoom {S T A} (proj : S -> T) (upd : T -> S -> S)
    (m : Py T A) : Py S A :=
  fun s => let '(r, t) := m (proj s) in (r, upd t s).

#[global] Instance Py_ret {S} : MRet (Py S) := @ret S.
#[global] Instance Py_bind {S} : MBind (Py S) := fun A B k m => bind m k.

(** [for x in xs: body x], accumulating nothing. *)
Fixpoint for_each {S A} (xs : list A) (body : A -> Py S unit) : Py S unit :=
  match xs with
  | [] => ret tt
  | x :: xs' => body x ;; for_each xs' body
  end.

(** ** Strings and slices *)

(** [str.isspace] on one code point: the white space of the Unicode
    database, which is also what [\s] matches in a [str] pattern. *)
Definition isspace (c : N) : bool :=
  ((9 <=? c) && (c <=? 13) || (28 <=? c) && (c <=? 32) || (c =? 133)
   || (c =? 160) || (c =? 5760) || (8192 <=? c) && (c <=? 8202)
   || (c =? 8232) || (c =? 8233) || (c =? 8239) || (c =? 8287)
   || (c =? 12288))%N.

Fixpoint lstrip (s : str) : str :=
  match s with
  | c :: s' => if isspace c then lstrip s' else s
  | [] => []
  end.

Definition rstrip (s : str) : str := rev (lstrip (rev s)).

(** [s.strip()] *)
Definition strip (s : str) : str := rstrip (lstrip s).

(** [starts_clean s]: [s] does not start with white space. *)
Definition starts_clean (s : str) : Prop :=
  match s with [] => True | c :: _ => isspace c = false end.

(** A slice bound [i] of a sequence of length [n], as Python normalises
    it: a negative bound counts from the end, and the result is clamped
    to [0..n]. *)
Definition slice_bound (n i : Z) : nat :=
  Z.to_nat (Z.min n (if i <? 0 then Z.max 0 (i + n) else i)).

(** [l[lo:hi]] *)
Definition slice {A} (l : list A) (lo hi : Z) : list A :=
  let lo' := slice_bound (len l) lo in
  let hi' := slice_bound (len l) hi in
  take (hi' - lo') (drop lo' l).

(** [sep.join(xs)] *)
Fixpoint join (sep : str) (xs : list str) : str :=
  match xs with
  | [] => []
  | [x] => x
  | x :: xs' => x ++ sep ++ join sep xs'
  end.

(** [s.split(sep)] for a one-character separator. *)
Fixpoint split (sep : N) (s : str) : list str :=
  match s with
  | [] => [[]]
  | c :: s' =>
      if (c =? sep)%N then [] :: split sep s'
      else match split sep s' with
           | w :: ws => (c :: w) :: ws
           | [] => [[c]]
           end
  end.

(** [str(n)] for an [int]. *)
Definition str_of_int (n : Z) : str :=
  lit (NilZero.string_of_int (Z.to_int n)).

(** Lexicographic order on code points, the order of [str.__lt__]. *)
Fixpoint str_le (a b : str) : bool :=
  match a, b with
  | [], _ => true
  | _ :: _, [] => false
  | x :: a', y :: b' => (x <? y)%N || (x =? y)%N && str_le a' b'
  end.

(** [list.sort(key=...)] and [sorted] are stable: elements with equal
    keys keep their relative order. Insertion from the right gives that
    order. *)
Section Sort.
Context {A : Type} (le : A -> A -> bool).

Fixpoint insert_sorted (x : A) (l : list A) : list A :=
  match l with
  | [] => [x]
  | y :: l' => if le x y then x :: l else y :: insert_sorted x l'
  end.

Definition stable_sort (l : list A) : list A :=
  foldr insert_sorted [] l.
End Sort.

(** [sorted(xs)] on strings. *)
Definition sorted_strs (xs : list str) : list str := stable_sort str_le xs.

(** [l.sort(key=f)] with integer keys. *)
Definition sort_by_key {A} (f : A -> Z) (l : list A) : list A :=
  stable_sort (fun x y => f x <=? f y) l.

(** ** [utils.truncate_text], [clean_html_content], [extract_text_preview] *)

Definition truncate_text (text : str) (max_length : Z) (suffix : str) : str :=
  if len text <=? max_length then text
  else slice text 0 (max_length - len suffix) ++ suffix.

(** The default value of [suffix]. *)
Definition default_suffix : str := lit "...".

(** [re.sub(r'<[^>]+>', '', s)]: a match starts at a [<], takes the
    longest non-empty run of characters other than [>], and needs a [>]
    right after it. [pending] is the run read since an unmatched [<];
    when no [>] closes it, the [<] and the run stay in the text. *)
Fixpoint remove_tags (pending : option str) (s : str) : str :=
  match s, pending with
  | [], None => []
  | [], Some run => 60%N :: run
  | c :: s', None =>
      if (c =? 60)%N then remove_tags (Some []) s'
      else c :: remove_tags None s'
  | c :: s', Some run =>
      if (c =? 62)%N then
        match run with
        | [] => 60%N :: 62%N :: remove_tags None s'
        | _ :: _ => remove_tags None s'
        end
      else remove_tags (Some (run ++ [c])) s'
  end.

(** [re.sub(r'\s+', ' ', s)]: every maximal run of white space becomes
    one space. [in_run] tells that the previous character was white
    space. *)
Fixpoint collapse_whitespace (in_run : bool) (s : str) : str :=
  match s with
  | [] => []
  | c :: s' =>
      if isspace c then
        if in_run then collapse_whitespace true s'
        else 32%N :: collapse_whitespace true s'
      else c :: collapse_whitespace false s'
  end.

Definition clean_html_content (html_content : str) : str :=
  let clean_text := remove_tags None html_content in
  strip (collapse_whitespace false clean_text).

(** [c in s] for a character. *)
Definition contains_char (c : N) (s : str) : bool :=
  existsb (fun x => (x =? c)%N) s.

Definition extract_text_preview (content : str) (max_length : Z) : str :=
  let content :=
    if contains_char 60 content && contains_char 62 content
    then clean_html_content content else content in
  truncate_text content max_length default_suffix.

(** ** [utils.validate_search_query] *)

Definition validate_search_query (query : str) : exn + str :=
  if bool_decide (query = []) || bool_decide (strip query = []) then
    inl (ValueError (lit "Search query cannot be empty"))
  else
    let cleaned_query := strip query in
    if len cleaned_query >? 1000 then
      inl (ValueError (lit "Search query too long (max 1000 characters)"))
    else inr cleaned_query.

(** ** Paths and [utils.validate_zim_file_path] *)

(** A POSIX [pathlib.Path]: its root ([""] when relative, ["/"] or
    ["//"]) and its components. *)
Record Path : Type := mkPath {
  anchor : str;
  names : list str;
}.

#[global] Instance Path_eq_dec : EqDecision Path.
Proof. solve_decision. Defined.

Definition slash : N := 47%N.

(** The root of a path string: exactly two leading slashes are kept,
    any other number of them is one slash. *)
Definition parse_root (s : str) : str :=
  match s with
  | 47%N :: 47%N :: 47%N :: _ => [slash]
  | 47%N :: 47%N :: _ => [slash; slash]
  | 47%N :: _ => [slash]
  | _ => []
  end.

(** [Path(s)]: empty and [.] components are dropped, [..] is kept. *)
Definition Path_of_str (s : str) : Path :=
  {| anchor := parse_root s;
     names := filter (fun x => x ≠ [] ∧ x ≠ lit ".") (split slash s) |}.

Definition is_absolute (p : Path) : bool := negb (bool_decide (anchor p = [])).

(** [base / p] *)
Definition joinpath (base p : Path) : Path :=
  if is_absolute p then p
  else {| anchor := anchor base; names := names base ++ names p |}.

(** [str(p)] *)
Definition path_str (p : Path) : str :=
  match anchor p, names p with
  | [], [] => lit "."
  | a, ns => a ++ join [slash] ns
  end.

(** [p.name] *)
Definition path_name (p : Path) : str := default [] (last (names p)).

(** [p.parts] *)
Definition parts (p : Path) : list str :=
  if is_absolute p then anchor p :: names p else names p.

(** [self.relative_to(other)]: [ValueError] unless the parts of [other]
    are a prefix of the parts of [self]. *)
Definition relative_to (self other : Path) : exn + Path :=
  let n := length (parts other) in
  let mismatch :=
    match n with
    | O => is_absolute self
    | _ => negb (bool_decide (take n (parts self) = parts other))
    end in
  if mismatch then
    inl (ValueError (path_str self ++ lit " is not in the subpath of "
                       ++ path_str other))
  else inr {| anchor := []; names := drop n (parts self) |}.

(** [Path.resolve] without symbolic links: the path is made absolute
    from the working directory and [..] is resolved component by
    component ([/..] is [/]). *)
Definition resolve_lexical (cwd : list str) (p : Path) : Path :=
  let start := if is_absolute p then [] else rev cwd in
  let step (acc : list str) (x : str) :=
    if bool_decide (x = lit "..") then tail acc else x :: acc in
  {| anchor := [slash]; names := rev (fold_left step (names p) start) |}.

(** [validate_zim_file_path], for a file system whose
    [Path.resolve] is [resolve]. *)
Definition validate_zim_file_path (resolve : Path -> Path)
    (file_path : str) (base_directory : Path) : exn + Path :=
  let file_path := Path_of_str file_path in
  let file_path :=
    if negb (is_absolute file_path) then joinpath base_directory file_path
    else file_path in
  let resolved_path := resolve file_path in
  let base_resolved := resolve base_directory in
  match relative_to resolved_path base_resolved with
  | inl (ValueError _) =>
      inl (ValueError (lit "File path " ++ path_str resolved_path
                         ++ lit " is outside allowed directory "
                         ++ path_str base_resolved))
  | inl e => inl e
  | inr _ => inr resolved_path
  end.

(** The canonical form of a user-supplied name under a root: the name is
    joined to the root unless it is absolute, then resolved. *)
Definition canonical_form (resolve : Path -> Path) (name : str) (root : Path)
    : Path :=
  resolve (joinpath root (Path_of_str name)).

(** [inside p root]: [p] is [root] or lies below it. *)
Definition inside (p root : Path) : Prop := parts root `prefix_of` parts p.

(** ** [utils.LRUCache] *)

Module LRU.
Section Cache.
Context {K : Type} `{Countable K} {V : Type}.

Record LRUCache : Type := mk {
  max_size : Z;
  cache : gmap K V;
  access_order : list K;
}.

(** [__init__] has no failing path. The result type leaves room for
    one, as any constructor call may raise. *)
Definition init (max_size : Z) : exn + LRUCache :=
  inr {| max_size := max_size; cache := ∅; access_order := [] |}.

Definition set_cache (m : gmap K V) (c : LRUCache) : LRUCache :=
  {| max_size := max_size c; cache := m; access_order := access_order c |}.
Definition set_access_order (l : list K) (c : LRUCache) : LRUCache :=
  {| max_size := max_size c; cache := cache c; access_order := l |}.

(** [list.remove(x)]: drops the first occurrence, [ValueError] if
    there is none. *)
Fixpoint list_remove (x : K) (l : list K) : option (list K) :=
  match l with
  | [] => None
  | y :: l' => if decide (y = x) then Some l'
               else cons y <$> list_remove x l'
  end.

Definition access_order_remove (key : K) : Py LRUCache unit :=
  c ← state ;
  match list_remove key (access_order c) with
  | Some l => modify (set_access_order l)
  | None => raise (ValueError (lit "list.remove(x): x not in list"))
  end.

Definition access_order_append (key : K) : Py LRUCache unit :=
  modify (fun c => set_access_order (access_order c ++ [key]) c).

(** [list.pop(0)] *)
Definition access_order_pop0 : Py LRUCache K :=
  c ← state ;
  match access_order c with
  | [] => raise IndexError
  | k :: l => modify (set_access_order l) ;; ret k
  end.

(** [del self.cache[k]] *)
Definition cache_del (k : K) : Py LRUCache unit :=
  c ← state ;
  match cache c !! k with
  | Some _ => modify (set_cache (delete k (cache c)))
  | None => raise KeyError
  end.

Definition get (key : K) : Py LRUCache (option V) :=
  c ← state ;
  match cache c !! key with
  | Some v =>
      access_order_remove key ;;
      access_order_append key ;;
      ret (Some v)
  | None => ret None
  end.

Definition put (key : K) (value : V) : Py LRUCache unit :=
  c ← state ;
  match cache c !! key with
  | Some _ =>
      modify (set_cache (<[key := value]> (cache c))) ;;
      access_order_remove key ;;
      access_order_append key
  | None =>
      (if Z.of_nat (size (cache c)) >=? max_size c then
         oldest_key ← access_order_pop0 ;
         cache_del oldest_key
       else ret tt) ;;
      modify (fun c => set_cache (<[key := value]> (cache c)) c) ;;
      access_order_append key
  end.

Definition clear : Py LRUCache unit :=
  modify (fun c => set_access_order [] (set_cache ∅ c)).

Definition size : Py LRUCache Z :=
  c ← state ; ret (Z.of_nat (size (cache c))).

(** A sequence of [get]/[put] calls, oldest first. *)
Inductive op : Type :=
  | Get (key : K)
  | Put (key : K) (value : V).

Definition op_key (o : op) : K :=
  match o with Get k => k | Put k _ => k end.

Definition run_op (o : op) : Py LRUCache unit :=
  match o with
  | Get k => get k ;; ret tt
  | Put k v => put k v
  end.

Definition run (h : list op) : Py LRUCache unit := for_each h run_op.

(** The position (counted from 1, starting at [t]) of the last call in
    [h] that names [k]; [0] when no call does. A [get] of an absent key
    names the key without using it, and the key then stays absent until
    a later [put] of it: for a key that is in the cache, the last call
    that names it is a [put] or a [get] that found it. *)
Fixpoint last_use_from (t : nat) (h : list op) (k : K) : nat :=
  match h with
  | [] => O
  | o :: h' =>
      match last_use_from (S t) h' k with
      | O => if decide (op_key o = k) then S t else O
      | n => n
      end
  end.

Definition last_use (h : list op) (k : K) : nat := last_use_from O h k.

(** The bookkeeping of a cache is consistent. *)
Record wf (c : LRUCache) : Prop := {
  wf_capacity : 1 <= max_size c;
  wf_nodup : NoDup (access_order c);
  wf_keys : forall k, k ∈ access_order c <-> is_Some (cache c !! k);
  wf_bound : len (access_order c) <= max_size c;
}.

(** [older h a b]: in the history [h], the last call on [a] came
    before the last call on [b]. *)
Definition older (h : list op) (a b : K) : Prop :=
  (last_use h a < last_use h b)%nat.

(** What holds of a cache of capacity [n] after the calls [h] on it
    since it was made: its bookkeeping is consistent and
    [access_order] lists the keys from the least to the most recently
    used. *)
Record reached (n : Z) (h : list op) (c : LRUCache) : Prop := {
  reached_wf : wf c;
  reached_max_size : max_size c = n;
  reached_recency : StronglySorted (older h) (access_order c);
}.

(** [put] of each pair in turn. *)
Definition puts (kvs : list (K * V)) : list op :=
  map (fun kv => Put (fst kv) (snd kv)) kvs.

End Cache.
Arguments LRUCache K {_ _} V.
Arguments op K V : clear implicits.
End LRU.

(** ** The archive library, as the core consumes it *)

Abbreviation bytes := (list Byte.byte).

(** A [libzim.reader.Entry]. *)
Record Entry : Type := mkEntry {
  path : str;
  title : str;
  is_redirect : bool;
  (** [bytes(entry.get_item().content)], or what reading it raises *)
  item_content : exn + bytes;
  (** the path of [entry.redirect_entry] when the entry object has such
      an attribute, [None] when [hasattr] answers false *)
  redirect_entry : option str;
}.

(** An open [libzim.reader.Archive] with the queries a
    [libzim.search.Searcher] bound to it answers. Archives are read-only:
    every answer is a function of the request, except the random draw,
    which also depends on how many draws came before. *)
Record Archive : Type := mkArchive {
  archive_path : str;
  has_fulltext_index : bool;
  has_title_index : bool;
  article_count : Z;
  media_count : Z;
  uuid : str;
  metadata_keys : list str;
  get_metadata : str -> exn + str;
  has_entry_by_path : str -> bool;
  get_entry_by_path : str -> exn + Entry;
  has_entry_by_title : str -> bool;
  get_entry_by_title : str -> exn + Entry;
  (** [searcher.search(Query().set_query(q)).getResults(start, count)] *)
  getResults : str -> Z -> Z -> exn + list str;
  (** [searcher.search(Query().set_query(q)).getEstimatedMatches()] *)
  getEstimatedMatches : str -> exn + Z;
  (** the [n]-th call of [get_random_entry()] in this process *)
  get_random_entry : nat -> exn + Entry;
}.

(** A [libzim.search.Searcher]. *)
Record Searcher : Type := mkSearcher { searcher_archive : Archive }.

(** [config.ZimServerConfig] (the fields the core reads). *)
Record ZimServerConfig : Type := mkConfig {
  zim_files_directory : Path;
  max_search_results : Z;
  max_content_length : Z;
  archive_cache_size : Z;
  search_cache_size : Z;
  enable_parallel_search : bool;
}.

(** A value of a metadata dictionary. *)
Inductive meta_value : Type :=
  | MetaStr (s : str)
  | MetaInt (n : Z).

(** What the process runs in: its configuration, the file system, the
    archive library, and the two library functions on text that no
    property below looks into. *)
Class Env : Type := {
  config : ZimServerConfig;
  (** [Path.resolve] *)
  resolve : Path -> Path;
  (** [Path.exists] *)
  path_exists : Path -> bool;
  (** [zim_directory.glob("*.zim")] *)
  glob_zim : list Path;
  (** [filepath.stat().st_size] *)
  stat_size : Path -> exn + Z;
  (** [libzim.reader.Archive(path)] *)
  open_archive : str -> exn + Archive;
  (** [str.lower] *)
  lower : str -> str;
  (** the pattern scans of [ContentExtractor._extract_metadata] *)
  scan_metadata : str -> gmap str meta_value;
}.

(** [search_engine.SearchEngineResult] *)
Record SearchEngineResult : Type := mkResult {
  zim_file : str;
  result_path : str;
  result_title : str;
  score : float;
  preview : str;
  result_is_redirect : bool;
}.

(** The dataclass constructor as the sources call it: [score] and
    [preview] are never passed and take their defaults. *)
Definition SearchEngineResult_new (zim_file path title : str)
    (is_redirect : bool) : SearchEngineResult :=
  {| zim_file := zim_file; result_path := path; result_title := title;
     score := 0%float; preview := []; result_is_redirect := is_redirect |}.

(** [zim_manager.ZimManagerFileInfo] ([size_formatted] is left out). *)
Record ZimManagerFileInfo : Type := mkInfo {
  filename : str;
  filepath : Path;
  file_size : Z;
  info_article_count : Z;
  info_media_count : Z;
  info_title : str;
  description : str;
  language : str;
  creator : str;
  date : str;
  info_has_fulltext_index : bool;
  info_has_title_index : bool;
  info_uuid : str;
}.

(** A call into the archive library. *)
Inductive call : Type :=
  | CallOpen (path : str)
  | CallSearcher (archive : str)
  | CallGetResults (archive query : str) (start count : Z)
  | CallEstimatedMatches (archive query : str)
  | CallGetEntry (archive path : str)
  | CallRandomEntry (archive : str).

(** The mutable state of the process: the fields of [ZimManager] and
    [SearchEngine], and the library calls made so far (newest first). *)
Record State : Type := mkState {
  archive_cache : LRU.LRUCache str Archive;
  file_info_cache : gmap str ZimManagerFileInfo;
  _available_files : option (list ZimManagerFileInfo);
  search_cache : LRU.LRUCache str (list SearchEngineResult);
  searcher_cache : gmap str Searcher;
  calls : list call;
  draws : nat;
}.

Definition set_archive_cache c (s : State) : State :=
  mkState c (file_info_cache s) (_available_files s) (search_cache s)
    (searcher_cache s) (calls s) (draws s).
Definition set_file_info_cache m (s : State) : State :=
  mkState (archive_cache s) m (_available_files s) (search_cache s)
    (searcher_cache s) (calls s) (draws s).
Definition set_available_files l (s : State) : State :=
  mkState (archive_cache s) (file_info_cache s) l (search_cache s)
    (searcher_cache s) (calls s) (draws s).
Definition set_search_cache c (s : State) : State :=
  mkState (archive_cache s) (file_info_cache s) (_available_files s) c
    (searcher_cache s) (calls s) (draws s).
Definition set_searcher_cache m (s : State) : State :=
  mkState (archive_cache s) (file_info_cache s) (_available_files s)
    (search_cache s) m (calls s) (draws s).
Definition set_calls l (s : State) : State :=
  mkState (archive_cache s) (file_info_cache s) (_available_files s)
    (search_cache s) (searcher_cache s) l (draws s).
Definition set_draws n (s : State) : State :=
  mkState (archive_cache s) (file_info_cache s) (_available_files s)
    (search_cache s) (searcher_cache s) (calls s) n.

(** A library call: it is recorded, then answers or raises. *)
Definition library {A} (c : call) (answer : exn + A) : Py State A :=
  modify (fun s => set_calls (c :: calls s) s) ;;
  match answer with
  | inl e => raise e
  | inr a => ret a
  end.

(** A pure function that may raise, inside a method. *)
Definition lift {S A} (r : exn + A) : Py S A :=
  match r with
  | inl e => raise e
  | inr a => ret a
  end.

(** [SearchEngine.__init__] after [ZimManager.__init__]. *)
Definition initial_state `{Env} : State :=
  {| archive_cache := LRU.mk (archive_cache_size config) ∅ [];
     file_info_cache := ∅;
     _available_files := None;
     search_cache := LRU.mk (search_cache_size config) ∅ [];
     searcher_cache := ∅;
     calls := [];
     draws := O |}.

(** [for x in xs: acc = body acc x] *)
Fixpoint for_acc {S A B} (xs : list A) (acc : B) (body : B -> A -> Py S B)
    : Py S B :=
  match xs with
  | [] => ret acc
  | x :: xs' => acc' ← body acc x ; for_acc xs' acc' body
  end.

(** ** [zim_manager.ZimManager] *)

Module ZimManager.
Section Manager.
Context `{Env}.

Definition get_archive (filename : str) : Py State (option Archive) :=
  try_except
    (filepath ← lift (validate_zim_file_path resolve filename
                        (zim_files_directory config)) ;
     if negb (path_exists filepath) then ret None
     else
       let cache_key := path_str filepath in
       cached_archive ← zoom archive_cache set_archive_cache
                          (LRU.get cache_key) ;
       match cached_archive with
       | Some archive => ret (Some archive)
       | None =>
           archive ← library (CallOpen (path_str filepath))
                       (open_archive (path_str filepath)) ;
           zoom archive_cache set_archive_cache
             (LRU.put cache_key archive) ;;
           ret (Some archive)
       end)
    is_OSError_ValueError_RuntimeError
    (fun _ => ret None).

(** [except (KeyError, ValueError, RuntimeError, OSError)] *)
Definition is_KeyError_ValueError_RuntimeError_OSError (e : exn) : bool :=
  is_KeyError_ValueError_RuntimeError e || is_OSError_ValueError_RuntimeError e.

Definition get_entry_by_path (filename entry_path : str)
    : Py State (option Entry) :=
  try_except
    (archive ← get_archive filename ;
     match archive with
     | None => ret None
     | Some archive =>
         if negb (has_entry_by_path archive entry_path) then ret None
         else
           entry ← library (CallGetEntry (archive_path archive) entry_path)
                     (get_entry_by_path archive entry_path) ;
           ret (Some entry)
     end)
    is_KeyError_ValueError_RuntimeError_OSError
    (fun _ => ret None).

(** The [metadata] dictionary that [_get_zim_file_info] fills. *)
Definition read_metadata (archive : Archive) : Py State (gmap str str) :=
  for_acc (metadata_keys archive) ∅ (fun metadata key =>
    match get_metadata archive key with
    | inr v => ret (<[key := v]> metadata)
    | inl e =>
        match e with
        | KeyError | ValueError _ | UnicodeDecodeError =>
            ret (<[key := []]> metadata)
        | _ => raise e
        end
    end).

Definition _get_zim_file_info (filepath : Path) : Py State ZimManagerFileInfo :=
  let filename := path_name filepath in
  s ← state ;
  match file_info_cache s !! filename with
  | Some info => ret info
  | None =>
      archive ← library (CallOpen (path_str filepath))
                  (open_archive (path_str filepath)) ;
      file_size ← lift (stat_size filepath) ;
      metadata ← read_metadata archive ;
      let file_info :=
        {| filename := filename;
           filepath := filepath;
           file_size := file_size;
           info_article_count := article_count archive;
           info_media_count := media_count archive;
           info_title := default filename (metadata !! lit "Title");
           description := default [] (metadata !! lit "Description");
           language := default [] (metadata !! lit "Language");
           creator := default [] (metadata !! lit "Creator");
           date := default [] (metadata !! lit "Date");
           info_has_fulltext_index := has_fulltext_index archive;
           info_has_title_index := has_title_index archive;
           info_uuid := uuid archive |} in
      modify (fun s => set_file_info_cache
                         (<[filename := file_info]> (file_info_cache s)) s) ;;
      ret file_info
  end.

Definition discover_zim_files (force_refresh : bool)
    : Py State (list ZimManagerFileInfo) :=
  s ← state ;
  match _available_files s, force_refresh with
  | Some files, false => ret files
  | _, _ =>
      let zim_directory := zim_files_directory config in
      if negb (path_exists zim_directory) then ret []
      else
        zim_files ← for_acc glob_zim [] (fun zim_files zim_file =>
          try_except
            (file_info ← _get_zim_file_info zim_file ;
             ret (zim_files ++ [file_info]))
            is_OSError_ValueError_RuntimeError
            (fun _ => ret zim_files)) ;
        modify (set_available_files (Some zim_files)) ;;
        ret zim_files
  end.

End Manager.
End ZimManager.

(** ** [search_engine.SearchEngine] *)

Module SearchEngine.
Section Engine.
Context `{Env}.

Definition _get_searcher (zim_file : str) : Py State (option Searcher) :=
  try_except
    (s ← state ;
     match searcher_cache s !! zim_file with
     | Some searcher => ret (Some searcher)
     | None =>
         archive ← ZimManager.get_archive zim_file ;
         match archive with
         | None => ret None
         | Some archive =>
             if negb (has_fulltext_index archive) then ret None
             else
               searcher ← library (CallSearcher (archive_path archive))
                            (inr (mkSearcher archive)) ;
               modify (fun s => set_searcher_cache
                         (<[zim_file := searcher]> (searcher_cache s)) s) ;;
               ret (Some searcher)
         end
     end)
    is_OSError_ValueError_RuntimeError
    (fun _ => ret None).

(** The loop of [search_single_zim] over the paths of the result set.
    [archive] is what [get_archive] returned: calling a method on
    [None] raises [AttributeError]. An entry object is always true. *)
Definition collect_results (zim_file : str) (archive : option Archive)
    (result_set : list str) : Py State (list SearchEngineResult) :=
  for_acc result_set [] (fun results path =>
    try_except
      (match archive with
       | None => raise AttributeError
       | Some archive =>
           entry ← library (CallGetEntry (archive_path archive) path)
                     (get_entry_by_path archive path) ;
           ret (results ++ [SearchEngineResult_new zim_file path
                              (title entry) (is_redirect entry)])
       end)
      is_KeyError_ValueError_RuntimeError
      (fun _ => ret results)).

Definition search_single_zim (zim_file query : str)
    (max_results start_offset : Z) : Py State (list SearchEngineResult) :=
  try_except
    (clean_query ← lift (validate_search_query query) ;
     searcher ← _get_searcher zim_file ;
     match searcher with
     | None => ret []
     | Some searcher =>
         let a := searcher_archive searcher in
         result_set ← library
           (CallGetResults (archive_path a) clean_query start_offset max_results)
           (getResults a clean_query start_offset max_results) ;
         archive ← ZimManager.get_archive zim_file ;
         collect_results zim_file archive result_set
     end)
    is_OSError_ValueError_RuntimeError
    (fun _ => ret []).

(** The key of the result cache:
    [f"{','.join(sorted(zim_files))}|{clean_query}|{max_results}|{start_offset}"] *)
Definition search_cache_key (zim_files : list str) (clean_query : str)
    (max_results start_offset : Z) : str :=
  join (lit ",") (sorted_strs zim_files) ++ lit "|" ++ clean_query
    ++ lit "|" ++ str_of_int max_results ++ lit "|" ++ str_of_int start_offset.

(** One of the two loops over [zim_files]; the sources write it twice,
    once under each branch of the test on [enable_parallel_search]. *)
Definition search_each (zim_files : list str) (clean_query : str)
    (max_results : Z) : Py State (list SearchEngineResult) :=
  for_acc zim_files [] (fun all_results zim_file =>
    file_results ← search_single_zim zim_file clean_query max_results 0 ;
    ret (all_results ++ file_results)).

Definition search_multiple_zim (zim_files : list str) (query : str)
    (max_results start_offset : Z) : Py State (list SearchEngineResult) :=
  try_except
    (clean_query ← lift (validate_search_query query) ;
     let cache_key :=
       search_cache_key zim_files clean_query max_results start_offset in
     cached_results ← zoom search_cache set_search_cache
                        (LRU.get cache_key) ;
     match cached_results with
     | Some cached_results => ret cached_results
     | None =>
         all_results ←
           (if enable_parallel_search config && (len zim_files >? 1)
            then search_each zim_files clean_query max_results
            else search_each zim_files clean_query max_results) ;
         let all_results :=
           sort_by_key (fun r => len (result_title r)) all_results in
         let paginated_results :=
           slice all_results start_offset (start_offset + max_results) in
         zoom search_cache set_search_cache
           (LRU.put cache_key paginated_results) ;;
         ret paginated_results
     end)
    is_OSError_ValueError_RuntimeError
    (fun _ => ret []).

Definition search_all_zim_files (query : str) (max_results start_offset : Z)
    : Py State (list SearchEngineResult) :=
  try_except
    (zim_files_info ← ZimManager.discover_zim_files false ;
     let searchable_files :=
       map filename (filter (fun i => info_has_fulltext_index i = true)
                       zim_files_info) in
     match searchable_files with
     | [] => ret []
     | _ => search_multiple_zim searchable_files query max_results start_offset
     end)
    is_OSError_ValueError_RuntimeError
    (fun _ => ret []).

Definition get_estimated_matches (zim_file query : str) : Py State Z :=
  try_except
    (clean_query ← lift (validate_search_query query) ;
     searcher ← _get_searcher zim_file ;
     match searcher with
     | None => ret 0
     | Some searcher =>
         let a := searcher_archive searcher in
         library (CallEstimatedMatches (archive_path a) clean_query)
           (getEstimatedMatches a clean_query)
     end)
    is_OSError_ValueError_RuntimeError
    (fun _ => ret 0).

(** [needle in haystack] for strings. *)
Fixpoint is_prefix (needle haystack : str) : bool :=
  match needle, haystack with
  | [], _ => true
  | _ :: _, [] => false
  | x :: n', y :: h' => (x =? y)%N && is_prefix n' h'
  end.

Fixpoint contains (needle haystack : str) : bool :=
  is_prefix needle haystack ||
  match haystack with
  | [] => false
  | _ :: h' => contains needle h'
  end.

(** [if pattern and pattern.lower() not in text.lower()]: an absent or
    empty pattern rules nothing out. *)
Definition pattern_rejects (pattern : option str) (text : str) : bool :=
  match pattern with
  | None | Some [] => false
  | Some p => negb (contains (lower p) (lower text))
  end.

(** The loop of [browse_entries_by_pattern]: [attempts] draws are
    left; [count] is the length of [results]. *)
Fixpoint browse_loop (attempts : nat) (zim_file : str) (archive : Archive)
    (path_pattern title_pattern : option str) (limit : Z)
    (results : list SearchEngineResult) (count : Z)
    : Py State (list SearchEngineResult) :=
  match attempts with
  | O => ret results
  | S attempts' =>
      if count >=? limit then ret results
      else
        step ← try_except
          (s ← state ;
           modify (set_draws (S (draws s))) ;;
           entry ← library (CallRandomEntry (archive_path archive))
                     (get_random_entry archive (draws s)) ;
           let matched :=
             negb (pattern_rejects path_pattern (path entry))
             && negb (pattern_rejects title_pattern (title entry)) in
           if matched then
             ret (results ++ [SearchEngineResult_new zim_file (path entry)
                                (title entry) (is_redirect entry)],
                  count + 1)
           else ret (results, count))
          is_KeyError_ValueError_RuntimeError
          (fun _ => ret (results, count)) ;
        browse_loop attempts' zim_file archive path_pattern title_pattern
          limit (fst step) (snd step)
  end.

Definition browse_entries_by_pattern (zim_file : str)
    (path_pattern title_pattern : option str) (limit : Z)
    : Py State (list SearchEngineResult) :=
  try_except
    (archive ← ZimManager.get_archive zim_file ;
     match archive with
     | None => ret []
     | Some archive =>
         browse_loop (Z.to_nat (limit * 5)) zim_file archive
           path_pattern title_pattern limit [] 0
     end)
    is_OSError_ValueError_RuntimeError
    (fun _ => ret []).

Definition clear_caches : Py State unit :=
  zoom search_cache set_search_cache LRU.clear ;;
  modify (set_searcher_cache ∅).

End Engine.
End SearchEngine.

(** ** [content_extractor.ContentExtractor] *)

(** [content_extractor.ExtractedContentInfo] *)
Record ExtractedContentInfo : Type := mkContent {
  content_path : str;
  content_title : str;
  content : str;
  content_type : str;
  content_length : Z;
  content_preview : str;
  content_is_redirect : bool;
  redirect_target : str;
  metadata : gmap str meta_value;
}.

(** [bytes.decode('utf-8')]: [None] stands for [UnicodeDecodeError].
    Well-formed sequences are the shortest encodings of the code points
    up to U+10FFFF without the surrogates. *)
Definition continuation (b : N) : bool := ((128 <=? b) && (b <=? 191))%N.

Fixpoint decode_utf8 (bs : list N) : option str :=
  match bs with
  | [] => Some []
  | b0 :: r0 =>
      if (b0 <? 128)%N then cons b0 <$> decode_utf8 r0
      else if ((194 <=? b0) && (b0 <=? 223))%N then
        match r0 with
        | b1 :: r1 =>
            if continuation b1
            then cons ((b0 - 192) * 64 + (b1 - 128))%N <$> decode_utf8 r1
            else None
        | _ => None
        end
      else if ((224 <=? b0) && (b0 <=? 239))%N then
        match r0 with
        | b1 :: b2 :: r2 =>
            if continuation b1 && continuation b2
               && negb ((b0 =? 224) && (b1 <? 160))%N
               && negb ((b0 =? 237) && (160 <=? b1))%N
            then cons ((b0 - 224) * 4096 + (b1 - 128) * 64 + (b2 - 128))%N
                   <$> decode_utf8 r2
            else None
        | _ => None
        end
      else if ((240 <=? b0) && (b0 <=? 244))%N then
        match r0 with
        | b1 :: b2 :: b3 :: r3 =>
            if continuation b1 && continuation b2 && continuation b3
               && negb ((b0 =? 240) && (b1 <? 144))%N
               && negb ((b0 =? 244) && (144 <=? b1))%N
            then cons ((b0 - 240) * 262144 + (b1 - 128) * 4096
                       + (b2 - 128) * 64 + (b3 - 128))%N
                   <$> decode_utf8 r3
            else None
        | _ => None
        end
      else None
  end.

(** [bytes.decode('latin-1')]: every byte is its own code point. *)
Definition decode_latin1 (bs : list N) : option str := Some bs.

(** [bytes.decode('utf-8', errors='replace')] is only reached when
    Latin-1 decoding fails, which it never does; the replacement
    decoder is given by its result on well-formed input and U+FFFD for
    the rest. *)
Definition decode_utf8_replace (bs : list N) : str :=
  default [65533%N] (decode_utf8 bs).

Module ContentExtractor.
Section Extractor.
Context `{Env}.

Definition _decode_content (content_bytes : bytes) : str :=
  let bs := map Byte.to_N content_bytes in
  match decode_utf8 bs with
  | Some s => s
  | None =>
      match decode_latin1 bs with
      | Some s => s
      | None => decode_utf8_replace bs
      end
  end.

Definition _format_content (content format_type : str) : str :=
  if bool_decide (format_type = lit "text") then clean_html_content content
  else if bool_decide (format_type = lit "html") then content
  else if bool_decide (format_type = lit "raw") then content
  else clean_html_content content.

Definition _extract_metadata (content : str) : gmap str meta_value :=
  scan_metadata content.

(** The handler of [_extract_from_entry] logs and raises again, so the
    exceptions of the body are those of the method. *)
Definition _extract_from_entry (entry : Entry) (format_type : str)
    : exn + ExtractedContentInfo :=
  match item_content entry with
  | inl e => inl e
  | inr content_bytes =>
      if is_redirect entry then
        inr {| content_path := path entry;
               content_title := title entry;
               content := lit "[This is a redirect]";
               content_type := lit "redirect";
               content_length := 0;
               content_preview := lit "[Redirect]";
               content_is_redirect := true;
               redirect_target := default [] (redirect_entry entry);
               metadata := ∅ |}
      else
        let content := _decode_content content_bytes in
        let formatted_content := _format_content content format_type in
        let preview := extract_text_preview formatted_content 200 in
        let formatted_content :=
          if len formatted_content >? max_content_length config
          then truncate_text formatted_content (max_content_length config)
                 default_suffix
          else formatted_content in
        inr {| content_path := path entry;
               content_title := title entry;
               content := formatted_content;
               content_type := format_type;
               content_length := len content_bytes;
               content_preview := preview;
               content_is_redirect := false;
               redirect_target := [];
               metadata := _extract_metadata content |}
  end.

Definition extract_entry_content (zim_file entry_path format_type : str)
    : Py State (option ExtractedContentInfo) :=
  try_except
    (entry ← ZimManager.get_entry_by_path zim_file entry_path ;
     match entry with
     | None => ret None
     | Some entry =>
         info ← lift (_extract_from_entry entry format_type) ;
         ret (Some info)
     end)
    is_OSError_ValueError_RuntimeError
    (fun _ => ret None).

End Extractor.
End ContentExtractor.

(** ** The reference computation of a multi-archive search on a miss *)

Module Reference.
Section Reference.
Context `{Env}.

(** Query each listed archive in turn and concatenate the hits in
    order. *)
Fixpoint gather (searchOne : str -> Py State (list SearchEngineResult))
    (archiveIds : list str) : Py State (list SearchEngineResult) :=
  match archiveIds with
  | [] => ret []
  | a :: rest =>
      hits ← searchOne a ;
      more ← gather searchOne rest ;
      ret (hits ++ more)
  end.

(** The reference computation follows the words of the specification,
    not the code: its sort and its slice are stated here on their own. *)

(** "Sort the concatenation by title length ascending": [merged] is a
    rearrangement of [hits] in which title lengths never decrease. The
    specification does not say in which order hits of equal title
    length come. *)
Definition sorted_by_title_length (hits merged : list SearchEngineResult)
    : Prop :=
  merged ≡ₚ hits
  /\ StronglySorted
       (fun r1 r2 => len (result_title r1) <= len (result_title r2)) merged.

(** The elements of [l] at the positions [i] with [lo <= i < hi], where
    the head of [l] is at position [first]. *)
Fixpoint interval_from {A} (first : Z) (l : list A) (lo hi : Z) : list A :=
  match l with
  | [] => []
  | x :: l' =>
      if (lo <=? first) && (first <? hi)
      then x :: interval_from (first + 1) l' lo hi
      else interval_from (first + 1) l' lo hi
  end.

(** "The slice [[lo, hi)]" of a list, positions counted from 0. *)
Definition interval {A} (l : list A) (lo hi : Z) : list A :=
  interval_from 0 l lo hi.

(** What the specification says [searchMany] computes on a miss: each
    archive is queried for up to [limit] results from offset 0, the
    hits are concatenated and sorted by title length, ascending, the
    slice [[offset, offset + limit)] of the sorted list is taken,
    stored under the cache key, and returned. [searchMany_on_miss ... s
    outcome] holds when [outcome], a result or an exception with the
    state left behind, is what this computation gives from [s]. *)
Definition searchMany_on_miss (archiveIds : list str) (query : str)
    (limit offset : Z) (s : State)
    (outcome : (exn + list SearchEngineResult) * State) : Prop :=
  match gather (fun a => SearchEngine.search_single_zim a query limit 0)
          archiveIds s with
  | (inl e, s1) => outcome = (inl e, s1)
  | (inr hits, s1) =>
      exists merged,
        sorted_by_title_length hits merged
        /\ outcome =
             (let page := interval merged offset (offset + limit) in
              zoom search_cache set_search_cache
                (LRU.put (SearchEngine.search_cache_key archiveIds
                            (strip query) limit offset) page) ;;
              ret page) s1
  end.

End Reference.
End Reference.

(** ** The operations on search results, as a server receives them *)

Inductive request : Type :=
  | SearchSingle (zim_file query : str) (max_results start_offset : Z)
  | SearchMultiple (zim_files : list str) (query : str)
      (max_results start_offset : Z)
  | SearchAll (query : str) (max_results start_offset : Z)
  | Browse (zim_file : str) (path_pattern title_pattern : option str)
      (limit : Z)
  | ClearCaches.

Definition serve `{Env} (r : request) : Py State (list SearchEngineResult) :=
  match r with
  | SearchSingle f q m o => SearchEngine.search_single_zim f q m o
  | SearchMultiple fs q m o => SearchEngine.search_multiple_zim fs q m o
  | SearchAll q m o => SearchEngine.search_all_zim_files q m o
  | Browse f pp tp l => SearchEngine.browse_entries_by_pattern f pp tp l
  | ClearCaches => SearchEngine.clear_caches ;; ret []
  end.

(** The state after a sequence of requests; a request that raises
    leaves the state it reached. *)
Definition after `{Env} (rs : list request) (s : State) : State :=
  fold_left (fun s r => snd (serve r s)) rs s.

(** Every cached result list has zero scores only. *)
Definition scores_zero (s : State) : Prop :=
  forall key rs,
    LRU.cache (search_cache s) !! key = Some rs ->
    Forall (fun r => score r = 0%float) rs.

(** ** Predicates on methods *)

(** [untouched proj m]: [m] does not change the part [proj] of the
    state. *)
Definition untouched {T A} (proj : State -> T) (m : Py State A) : Prop :=
  forall s, proj (m s).2 = proj s.

(** [keeps m]: [m] does not touch the result cache. *)
Definition keeps {A} (m : Py State A) : Prop := untouched search_cache m.

(** [silent classes m]: [m] raises no exception of [classes]. *)
Definition silent {S A} (classes : exn -> bool) (m : Py S A) : Prop :=
  forall s e, (m s).1 = inl e -> classes e = false.

Definition zero_scores (rs : list SearchEngineResult) : Prop :=
  Forall (fun r => score r = 0%float) rs.

(** [scoreless m]: from a state whose cached lists have zero scores,
    [m] returns zero scores only and leaves such a state. *)
Definition scoreless (m : Py State (list SearchEngineResult)) : Prop :=
  forall s, scores_zero s ->
    scores_zero (m s).2 /\ forall rs, (m s).1 = inr rs -> zero_scores rs.

(** [consistent s]: the bookkeeping of the result cache is consistent. *)
Definition consistent (s : State) : Prop := LRU.wf (search_cache s).

(** [genuine a]: the library has [a] for some path. *)
Definition genuine `{Env} (a : Archive) : Prop :=
  exists p, open_archive p = inr a.

(** The library raises what the sources expect of it: opening and
    querying raise [OSError], [ValueError] or [RuntimeError]; fetching
    an entry may also raise [KeyError]. *)
Record library_raises_declared `{Env} : Prop := {
  open_raises : forall p e,
    open_archive p = inl e -> is_OSError_ValueError_RuntimeError e = true;
  getResults_raises : forall a q start count e,
    genuine a -> getResults a q start count = inl e ->
    is_OSError_ValueError_RuntimeError e = true;
  get_entry_raises : forall a x e,
    genuine a -> get_entry_by_path a x = inl e ->
    is_KeyError_ValueError_RuntimeError e = true
    \/ is_OSError_ValueError_RuntimeError e = true;
}.

(** [opens f a]: the name [f] passes the path validation, the file
    exists, and the library opens it as [a]. *)
Definition opens `{Env} (f : str) (a : Archive) : Prop :=
  exists p,
    validate_zim_file_path resolve f (zim_files_directory config) = inr p
    /\ path_exists p = true /\ open_archive (path_str p) = inr a.

(** What holds of the state of a running process: the caches are
    consistent, a cached archive is the one the library opens for its
    key, and a searcher is cached only for a name that opens as its
    archive. *)
Record state_ok `{Env} (s : State) : Prop := {
  ok_search_cache : LRU.wf (search_cache s);
  ok_archive_cache : LRU.wf (archive_cache s);
  ok_archives : forall k a,
    LRU.cache (archive_cache s) !! k = Some a -> open_archive k = inr a;
  ok_searchers : forall f sr,
    searcher_cache s !! f = Some sr -> opens f (searcher_archive sr);
}.

(** The caches that [state_ok] talks about. *)
Definition caches (s : State) :=
  (archive_cache s, search_cache s, searcher_cache s).

(** ** A small world to run the code in

    One archive [a.zim] under [/srv/zim], with a full-text index and
    three entries that every query matches. *)
Module Example.

Definition entry_one : Entry :=
  mkEntry (lit "A/One") (lit "One") false
    (inr [x61; x62; x63; x64; x65; x66; x67; x68]%byte) None.
Definition entry_three : Entry :=
  mkEntry (lit "A/Three") (lit "Three") false (inr [x3c; x62; x3e]%byte) None.
Definition entry_seventeen : Entry :=
  mkEntry (lit "A/Seventeen") (lit "Seventeen") false (inr []) None.
(** A redirect to [A/One]. *)
Definition entry_redirect : Entry :=
  mkEntry (lit "A/Uno") (lit "Uno") true
    (inr [x61; x62; x63; x64; x65; x66; x67; x68]%byte) None.
(** A redirect whose target cannot be read. *)
Definition entry_dangling : Entry :=
  mkEntry (lit "A/Nowhere") (lit "Nowhere") true (inl RuntimeError) None.

Definition entries : list Entry :=
  [entry_one; entry_three; entry_seventeen; entry_redirect; entry_dangling].

Definition find_entry (p : str) : exn + Entry :=
  match List.find (fun e => bool_decide (path e = p)) entries with
  | Some e => inr e
  | None => inl KeyError
  end.

Definition hits : list str := [lit "A/One"; lit "A/Three"; lit "A/Seventeen"].

Definition a_zim : Archive :=
  {| archive_path := lit "/srv/zim/a.zim";
     has_fulltext_index := true;
     has_title_index := true;
     article_count := 3;
     media_count := 0;
     uuid := lit "0";
     metadata_keys := [];
     get_metadata := fun _ => inl KeyError;
     has_entry_by_path := fun p =>
       bool_decide (p ∈ map path entries);
     get_entry_by_path := find_entry;
     has_entry_by_title := fun _ => false;
     get_entry_by_title := fun _ => inl KeyError;
     getResults := fun _ start count =>
       inr (take (Z.to_nat count) (drop (Z.to_nat start) hits));
     getEstimatedMatches := fun _ => inr 3;
     get_random_entry := fun _ => inr entry_one |}.

Definition root : Path := Path_of_str (lit "/srv/zim").

#[local] Instance env : Env :=
  {| config := {| zim_files_directory := root;
                  max_search_results := 100;
                  max_content_length := 5;
                  archive_cache_size := 10;
                  search_cache_size := 1000;
                  enable_parallel_search := true |};
     resolve := resolve_lexical [];
     path_exists := fun p =>
       bool_decide (p = root) ||
       bool_decide (p = Path_of_str (lit "/srv/zim/a.zim"));
     glob_zim := [Path_of_str (lit "/srv/zim/a.zim")];
     stat_size := fun _ => inr 4096;
     open_archive := fun p =>
       if bool_decide (p = lit "/srv/zim/a.zim") then inr a_zim
       else inl RuntimeError;
     lower := fun s => s;
     scan_metadata := fun _ => ∅ |}.

(** The result for the entry titled [t]. *)
Definition hit (t : string) : SearchEngineResult :=
  SearchEngineResult_new (lit "a.zim") (lit "A/" ++ lit t) (lit t) false.

Definition files : list str := [lit "a.zim"].

End Example.

(** * More of the sources *)

(** ** Text in normal form *)

(** [no_space_runs s]: no two white-space characters are next to each
    other in [s]. *)
Fixpoint no_space_runs (s : str) : bool :=
  match s with
  | c1 :: ((c2 :: _) as t) => negb (isspace c1 && isspace c2) && no_space_runs t
  | _ => true
  end.

(** [single_spaced s]: the only white space in [s] is single spaces
    between other characters. *)
Definition single_spaced (s : str) : Prop :=
  Forall (fun c => isspace c = true -> c = 32%N) s
  /\ no_space_runs s = true
  /\ starts_clean s /\ starts_clean (rev s).

(** A cache of capacity 2 that is full. *)
Definition two_entries : LRU.LRUCache nat nat :=
  LRU.mk 2 (<[1%nat := 10%nat]> (<[2%nat := 20%nat]> ∅)) [1%nat; 2%nat].

(** ** [content_extractor.get_content_summary] *)

(** [.], [!] and [?] *)
Definition is_terminator (c : N) : bool :=
  ((c =? 46) || (c =? 33) || (c =? 63))%N.

(** [re.split(r'[.!?]+', s)]: the pieces between the maximal runs of
    terminators, with an empty piece before a leading run and after a
    trailing one. [in_run] tells that the previous character was a
    terminator. *)
Fixpoint split_sentences (in_run : bool) (s : str) : list str :=
  match s with
  | [] => [[]]
  | c :: s' =>
      if is_terminator c then
        if in_run then split_sentences true s'
        else [] :: split_sentences true s'
      else
        match split_sentences false s' with
        | w :: ws => (c :: w) :: ws
        | [] => [[c]]
        end
  end.

(** The loop of [get_content_summary]; it stops at the first sentence
    that does not fit. *)
Fixpoint summary_loop (sentences : list str) (summary : str) (max_length : Z)
    : str :=
  match sentences with
  | [] => summary
  | sentence :: rest =>
      let sentence := strip sentence in
      if bool_decide (sentence = []) then summary_loop rest summary max_length
      else if len (summary ++ sentence) >? max_length then summary
      else summary_loop rest (summary ++ sentence ++ lit ". ") max_length
  end.

Definition get_content_summary (content : str) (max_length : Z) : str :=
  let content :=
    if contains_char 60 content && contains_char 62 content
    then clean_html_content content else content in
  let sentences := split_sentences false content in
  strip (summary_loop sentences [] max_length).

(** ** More of [zim_manager.ZimManager] *)

Module ZimManagerMore.
Section Manager.
Context `{Env}.

Definition get_zim_file_info (filename : str)
    : Py State (option ZimManagerFileInfo) :=
  try_except
    (filepath ← lift (validate_zim_file_path resolve filename
                        (zim_files_directory config)) ;
     if negb (path_exists filepath) then ret None
     else
       info ← ZimManager._get_zim_file_info filepath ;
       ret (Some info))
    is_OSError_ValueError_RuntimeError
    (fun _ => ret None).

Definition get_entry_by_title (filename title : str) : Py State (option Entry) :=
  try_except
    (archive ← ZimManager.get_archive filename ;
     match archive with
     | None => ret None
     | Some archive =>
         if negb (has_entry_by_title archive title) then ret None
         else
           entry ← library (CallGetEntry (archive_path archive) title)
                     (get_entry_by_title archive title) ;
           ret (Some entry)
     end)
    ZimManager.is_KeyError_ValueError_RuntimeError_OSError
    (fun _ => ret None).

Definition get_random_entry (filename : str) : Py State (option Entry) :=
  try_except
    (archive ← ZimManager.get_archive filename ;
     match archive with
     | None => ret None
     | Some archive =>
         s ← state ;
         modify (set_draws (S (draws s))) ;;
         entry ← library (CallRandomEntry (archive_path archive))
                   (get_random_entry archive (draws s)) ;
         ret (Some entry)
     end)
    ZimManager.is_KeyError_ValueError_RuntimeError_OSError
    (fun _ => ret None).

Definition validate_zim_file (filename : str) : Py State bool :=
  try_except
    (filepath ← lift (validate_zim_file_path resolve filename
                        (zim_files_directory config)) ;
     if negb (path_exists filepath) then ret false
     else
       archive ← ZimManager.get_archive filename ;
       ret (match archive with Some _ => true | None => false end))
    is_OSError_ValueError_RuntimeError
    (fun _ => ret false).

End Manager.
End ZimManagerMore.

(** ** The capacities of the two bounded caches *)

Definition capacities (s : State) : Z * Z :=
  (LRU.max_size (archive_cache s), LRU.max_size (search_cache s)).

(** ** [models.py]: the responses of the tools *)

(** [models.SearchResult] *)
Record SearchResult : Type := mkSearchResult {
  sr_zim_file : str;
  sr_path : str;
  sr_title : str;
  sr_score : float;
  sr_preview : str;
  sr_is_redirect : bool;
}.

(** [models.SearchPagination] *)
Record SearchPagination : Type := mkSearchPagination {
  pg_start_offset : Z;
  pg_max_results : Z;
  has_more : bool;
}.

(** [models.SearchResponse] *)
Record SearchResponse : Type := mkSearchResponse {
  search_status : str;
  search_query : str;
  search_count : Z;
  search_results : list SearchResult;
  pagination : SearchPagination;
}.

(** [models.ZimEntryContent] *)
Record ZimEntryContent : Type := mkZimEntryContent {
  ec_path : str;
  ec_title : str;
  ec_content : str;
  ec_content_length : Z;
  ec_format : str;
  ec_is_redirect : bool;
}.

(** [models.ZimEntryResponse] *)
Record ZimEntryResponse : Type := mkZimEntryResponse {
  entry_status : str;
  entry : ZimEntryContent;
}.

(** [models.BrowsedEntry] *)
Record BrowsedEntry : Type := mkBrowsedEntry {
  be_path : str;
  be_title : str;
  be_is_redirect : bool;
}.

(** [models.BrowseResponse] *)
Record BrowseResponse : Type := mkBrowseResponse {
  browse_status : str;
  browse_zim_file : str;
  browse_path_pattern : option str;
  browse_title_pattern : option str;
  browse_count : Z;
  browse_entries : list BrowsedEntry;
}.

(** [models.RandomEntry] *)
Record RandomEntry : Type := mkRandomEntry {
  re_zim_file : str;
  re_path : str;
  re_title : str;
  re_is_redirect : bool;
}.

(** [models.RandomEntriesResponse] *)
Record RandomEntriesResponse : Type := mkRandomEntriesResponse {
  random_status : str;
  random_count : Z;
  random_entries : list RandomEntry;
}.

(** ** Bytes as text *)

(** One lower-case hexadecimal digit. *)
Definition hex_digit (n : N) : N := (if n <? 10 then 48 + n else 87 + n)%N.

(** [bytes.hex()] *)
Definition bytes_hex (content_bytes : bytes) : str :=
  flat_map (fun b => [hex_digit (Byte.to_N b / 16); hex_digit (Byte.to_N b mod 16)])
    content_bytes.

(** [str(content_bytes)], the [repr] of a [bytes] object: [b'...'], in
    double quotes when the bytes hold a single quote and no double
    quote, with the quote and the backslash escaped, tab, newline and
    carriage return by letter, and the other bytes outside the
    printable ASCII range as [\xhh]. *)
Definition bytes_repr (content_bytes : bytes) : str :=
  let bs := map Byte.to_N content_bytes in
  let quote :=
    if contains_char 39 bs && negb (contains_char 34 bs) then 34%N else 39%N in
  let escape (c : N) : str :=
    if ((c =? quote) || (c =? 92))%N then [92%N; c]
    else if (c =? 9)%N then lit "\t"
    else if (c =? 10)%N then lit "\n"
    else if (c =? 13)%N then lit "\r"
    else if ((c <? 32) || (127 <=? c))%N
         then lit "\x" ++ [hex_digit (c / 16); hex_digit (c mod 16)]
    else [c] in
  [98%N; quote] ++ flat_map escape bs ++ [quote].

(** ** [server.py]: the tools *)

Module Server.
Section Tools.
Context `{Env}.

(** The error response of [search_zim_files]; the sources write it out
    at each of the three places that return it. *)
Definition search_error (query : str) (max_results start_offset : Z)
    : SearchResponse :=
  {| search_status := lit "error";
     search_query := query;
     search_count := 0;
     search_results := [];
     pagination := {| pg_start_offset := start_offset;
                      pg_max_results := max_results;
                      has_more := false |} |}.

Definition format_result (result : SearchEngineResult) : SearchResult :=
  {| sr_zim_file := zim_file result;
     sr_path := result_path result;
     sr_title := result_title result;
     sr_score := score result;
     sr_preview := preview result;
     sr_is_redirect := result_is_redirect result |}.

(** [zim_files] is [None] when the argument is left out; [if zim_files:]
    is false for [None] and for the empty list. *)
Definition search_zim_files (query : str) (zim_files : option (list str))
    (max_results start_offset : Z) : Py State SearchResponse :=
  try_except
    (if (max_results <=? 0) || (max_results >? max_search_results config) then
       ret (search_error query max_results start_offset)
     else if start_offset <? 0 then
       ret (search_error query max_results start_offset)
     else
       results ←
         match zim_files with
         | Some (f :: fs) =>
             SearchEngine.search_multiple_zim (f :: fs) query max_results
               start_offset
         | _ => SearchEngine.search_all_zim_files query max_results start_offset
         end ;
       let formatted_results := map format_result results in
       ret {| search_status := lit "success";
              search_query := query;
              search_count := len formatted_results;
              search_results := formatted_results;
              pagination :=
                {| pg_start_offset := start_offset;
                   pg_max_results := max_results;
                   has_more := len results =? max_results |} |})
    is_OSError_ValueError_RuntimeError
    (fun _ => ret (search_error query max_results start_offset)).

(** The error response of [read_zim_entry]. *)
Definition entry_error : ZimEntryResponse :=
  {| entry_status := lit "error";
     entry := {| ec_path := []; ec_title := []; ec_content := [];
                 ec_content_length := 0; ec_format := [];
                 ec_is_redirect := false |} |}.

(** The suffix that [read_zim_entry] appends to a truncated content. *)
Definition truncated_mark : str := lit "... [truncated]".

(** [except (ValueError, RuntimeError, OSError, UnicodeDecodeError)]:
    [UnicodeDecodeError] is a [ValueError] already. *)
Definition read_zim_entry (zim_file entry_path output_format : str)
    : Py State ZimEntryResponse :=
  try_except
    (if negb (bool_decide (output_format ∈ [lit "text"; lit "html"; lit "raw"]))
     then ret entry_error
     else
       entry ← ZimManager.get_entry_by_path zim_file entry_path ;
       match entry with
       | None => ret entry_error
       | Some entry =>
           content_bytes ← lift (item_content entry) ;
           let content :=
             if bool_decide (output_format = lit "raw") then
               bytes_hex content_bytes
             else
               let bs := map Byte.to_N content_bytes in
               let content :=
                 match decode_utf8 bs with
                 | Some s => s
                 | None =>
                     match decode_latin1 bs with
                     | Some s => s
                     | None => bytes_repr content_bytes
                     end
                 end in
               if bool_decide (output_format = lit "text")
                  && negb (bool_decide (content = []))
               then clean_html_content content
               else content in
           let content :=
             if len content >? max_content_length config
             then slice content 0 (max_content_length config) ++ truncated_mark
             else content in
           ret {| entry_status := lit "success";
                  entry := {| ec_path := path entry;
                              ec_title := title entry;
                              ec_content := content;
                              ec_content_length := len content_bytes;
                              ec_format := output_format;
                              ec_is_redirect := is_redirect entry |} |}
       end)
    is_OSError_ValueError_RuntimeError
    (fun _ => ret entry_error).

(** The error response of [browse_zim_entries]. *)
Definition browse_error (zim_file : str)
    (path_pattern title_pattern : option str) : BrowseResponse :=
  {| browse_status := lit "error";
     browse_zim_file := zim_file;
     browse_path_pattern := path_pattern;
     browse_title_pattern := title_pattern;
     browse_count := 0;
     browse_entries := [] |}.

Definition format_browsed (result : SearchEngineResult) : BrowsedEntry :=
  {| be_path := result_path result;
     be_title := result_title result;
     be_is_redirect := result_is_redirect result |}.

Definition browse_zim_entries (zim_file : str)
    (path_pattern title_pattern : option str) (limit : Z)
    : Py State BrowseResponse :=
  try_except
    (if (limit <=? 0) || (limit >? 200) then
       ret (browse_error zim_file path_pattern title_pattern)
     else
       valid ← ZimManagerMore.validate_zim_file zim_file ;
       if negb valid then
         ret (browse_error zim_file path_pattern title_pattern)
       else
         results ← SearchEngine.browse_entries_by_pattern zim_file
                     path_pattern title_pattern limit ;
         let formatted_results := map format_browsed results in
         ret {| browse_status := lit "success";
                browse_zim_file := zim_file;
                browse_path_pattern := path_pattern;
                browse_title_pattern := title_pattern;
                browse_count := len formatted_results;
                browse_entries := formatted_results |})
    is_OSError_ValueError_RuntimeError
    (fun _ => ret (browse_error zim_file path_pattern title_pattern)).

(** The error response of [get_random_entries]. *)
Definition random_error : RandomEntriesResponse :=
  {| random_status := lit "error"; random_count := 0; random_entries := [] |}.

(** The inner loop of [get_random_entries]. The list [random_entries]
    is one object that the loops append to, so it is part of the state
    here: what was appended before an exception stays appended. *)
Fixpoint random_loop (rounds : nat) (zim_file : str) (count : Z)
    : Py (State * list RandomEntry) unit :=
  match rounds with
  | O => ret tt
  | S rounds' =>
      st ← state ;
      if len (snd st) >=? count then ret tt
      else
        entry ← zoom fst (fun s st => (s, snd st))
                  (ZimManagerMore.get_random_entry zim_file) ;
        match entry with
        | Some entry =>
            modify (fun st =>
              (fst st,
               snd st ++ [ {| re_zim_file := zim_file;
                              re_path := path entry;
                              re_title := title entry;
                              re_is_redirect := is_redirect entry |} ]))
        | None => ret tt
        end ;;
        random_loop rounds' zim_file count
  end.

(** [except (FileNotFoundError, RuntimeError, ValueError, OSError)]:
    [FileNotFoundError] is an [OSError]. *)
Definition random_per_file (entries_per_file count : Z) (zim_file : str)
    : Py (State * list RandomEntry) unit :=
  try_except
    (random_loop (Z.to_nat entries_per_file) zim_file count)
    is_OSError_ValueError_RuntimeError
    (fun _ => ret tt).

Definition get_random_entries (zim_files : option (list str)) (count : Z)
    : Py State RandomEntriesResponse :=
  try_except
    (if (count <=? 0) || (count >? 50) then ret random_error
     else
       zim_files ←
         match zim_files with
         | None =>
             available_files ← ZimManager.discover_zim_files false ;
             ret (map filename available_files)
         | Some zim_files => ret zim_files
         end ;
       match zim_files with
       | [] => ret random_error
       | _ =>
           let entries_per_file := Z.max 1 (count / len zim_files) in
           fun s =>
             let '(r, (s', random_entries)) :=
               for_each zim_files (random_per_file entries_per_file count)
                 (s, []) in
             match r with
             | inl e => (inl e, s')
             | inr _ =>
                 (inr {| random_status := lit "success";
                         random_count := len random_entries;
                         random_entries := random_entries |}, s')
             end
       end)
    is_OSError_ValueError_RuntimeError
    (fun _ => ret random_error).

End Tools.
End Server.

(** * Properties *)

(** ** The bounded cache *)

Module LRU_facts.
Import LRU.
Section Facts.
Context {K : Type} `{Countable K} {V : Type}.
Implicit Types (c : LRUCache K V) (k key oldest : K) (value : V)
  (l : list K) (h : list (op K V)).

(** *** [list.remove] *)

Lemma list_remove_Some k l l' :
  list_remove k l = Some l' ->
  exists l1 l2, l = l1 ++ k :: l2 /\ l' = l1 ++ l2 /\ k ∉ l1.
Proof.
  revert l'. induction l as [|y l IH]; simpl; intros l' Hr; [done|].
  destruct (decide (y = k)) as [->|Hne].
  - injection Hr as <-. exists [], l. split_and!; [done|done|]. apply not_elem_of_nil.
  - destruct (list_remove k l) as [l0|] eqn:E; [|done].
    injection Hr as <-. destruct (IH l0 eq_refl) as (l1 & l2 & -> & -> & Hni).
    exists (y :: l1), l2. split_and!; [done|done|].
    rewrite not_elem_of_cons. split; [congruence|done].
Qed.

Lemma list_remove_elem_of k l : k ∈ l -> is_Some (list_remove k l).
Proof.
  induction l as [|y l IH]; simpl; intros Hin.
  - by apply elem_of_nil in Hin.
  - destruct (decide (y = k)); [by eexists|].
    apply elem_of_cons in Hin as [->|Hin]; [done|].
    destruct (IH Hin) as [l' ->]. by eexists.
Qed.

Lemma list_remove_None k l : k ∉ l -> list_remove k l = None.
Proof.
  intros Hni. destruct (list_remove k l) as [l'|] eqn:E; [|done].
  apply list_remove_Some in E as (l1 & l2 & -> & _ & _).
  exfalso. apply Hni. set_solver.
Qed.

(** *** One call *)

Lemma get_miss key c :
  cache c !! key = None -> get key c = (inr None, c).
Proof. intros Hm. unfold get, mbind, Py_bind, bind, state. by rewrite Hm. Qed.

Lemma get_hit key c v l1 l2 :
  cache c !! key = Some v ->
  access_order c = l1 ++ key :: l2 -> key ∉ l1 ->
  get key c = (inr (Some v), set_access_order (l1 ++ l2 ++ [key]) c).
Proof.
  intros Hh Ho Hni.
  assert (list_remove key (access_order c) = Some (l1 ++ l2)) as Hr.
  { rewrite Ho. clear Ho. induction l1 as [|y l1 IH]; simpl.
    - by rewrite decide_True.
    - apply not_elem_of_cons in Hni as [Hne Hni].
      rewrite decide_False by congruence. by rewrite IH. }
  unfold get, mbind, Py_bind, bind, state. rewrite Hh.
  unfold access_order_remove, mbind, Py_bind, bind, state. rewrite Hr.
  unfold modify, access_order_append, modify, ret, set_access_order. simpl.
  by rewrite <- app_assoc.
Qed.

Lemma put_present key value c v0 l1 l2 :
  cache c !! key = Some v0 ->
  access_order c = l1 ++ key :: l2 -> key ∉ l1 ->
  put key value c =
    (inr tt, mk (max_size c) (<[key := value]> (cache c)) (l1 ++ l2 ++ [key])).
Proof.
  intros Hh Ho Hni.
  assert (list_remove key (access_order c) = Some (l1 ++ l2)) as Hr.
  { rewrite Ho. clear Ho. induction l1 as [|y l1 IH]; simpl.
    - by rewrite decide_True.
    - apply not_elem_of_cons in Hni as [Hne Hni].
      rewrite decide_False by congruence. by rewrite IH. }
  unfold put, mbind, Py_bind, bind, state. rewrite Hh.
  unfold modify, access_order_remove, mbind, Py_bind, bind, state. simpl.
  rewrite Hr. unfold modify, access_order_append, modify, set_access_order.
  simpl. by rewrite <- app_assoc.
Qed.

Lemma put_new_room key value c :
  cache c !! key = None ->
  Z.of_nat (base.size (cache c)) < max_size c ->
  put key value c =
    (inr tt, mk (max_size c) (<[key := value]> (cache c)) (access_order c ++ [key])).
Proof.
  intros Hm Hlt. unfold put, mbind, Py_bind, bind, state. rewrite Hm.
  destruct (Z.geb_spec (Z.of_nat (base.size (cache c))) (max_size c)); [lia|].
  reflexivity.
Qed.

Lemma put_new_full key value c oldest rest :
  cache c !! key = None ->
  max_size c <= Z.of_nat (base.size (cache c)) ->
  access_order c = oldest :: rest ->
  is_Some (cache c !! oldest) ->
  put key value c =
    (inr tt, mk (max_size c) (<[key := value]> (delete oldest (cache c)))
               (rest ++ [key])).
Proof.
  intros Hm Hge Ho [v Hv]. unfold put, mbind, Py_bind, bind, state. rewrite Hm.
  destruct (Z.geb_spec (Z.of_nat (base.size (cache c))) (max_size c)); [|lia].
  unfold access_order_pop0, mbind, Py_bind, bind, state. rewrite Ho. simpl.
  unfold cache_del, mbind, Py_bind, bind, state. simpl. rewrite Hv.
  reflexivity.
Qed.

Lemma put_new_full_nothing_to_evict key value c :
  cache c !! key = None ->
  max_size c <= Z.of_nat (base.size (cache c)) ->
  access_order c = [] ->
  put key value c = (inl IndexError, c).
Proof.
  intros Hm Hge Ho. unfold put, mbind, Py_bind, bind, state. rewrite Hm.
  destruct (Z.geb_spec (Z.of_nat (base.size (cache c))) (max_size c)); [|lia].
  unfold access_order_pop0, mbind, Py_bind, bind, state. by rewrite Ho.
Qed.

(** *** The invariant *)

Lemma wf_size c : wf c -> base.size (cache c) = length (access_order c).
Proof.
  intros [_ Hnd Hkeys _].
  rewrite <- size_dom, <- (size_list_to_set (C := gset K)) by done.
  f_equal. apply set_eq. intros k.
  rewrite elem_of_dom, elem_of_list_to_set. symmetry. apply Hkeys.
Qed.

Lemma wf_fresh n : 1 <= n -> wf (mk n (∅ : gmap K V) []).
Proof.
  intros Hn. split; simpl; [done|constructor| |unfold len; simpl; lia].
  intros k. rewrite lookup_empty. split.
  - intros Hin. by apply elem_of_nil in Hin.
  - intros [? ?]. done.
Qed.

Lemma wf_split c k :
  wf c -> is_Some (cache c !! k) ->
  exists l1 l2, access_order c = l1 ++ k :: l2 /\ (k ∉ l1) /\ (k ∉ l2)
                /\ NoDup (l1 ++ l2).
Proof.
  intros [_ Hnd Hkeys _] Hs. apply Hkeys in Hs.
  apply list_elem_of_split in Hs as (l1 & l2 & Ho).
  exists l1, l2. rewrite Ho in Hnd.
  apply NoDup_app in Hnd as (Hn1 & Hd & Hn2).
  apply NoDup_cons in Hn2 as [Hni2 Hn2].
  split_and!; [done| |done|].
  - intros Hin. apply (Hd _ Hin). set_solver.
  - apply NoDup_app. split_and!; [done| |done].
    intros x Hx1 Hx2. apply (Hd _ Hx1). set_solver.
Qed.

Lemma wf_touch c k v l1 l2 :
  wf c -> is_Some (cache c !! k) ->
  access_order c = l1 ++ k :: l2 ->
  wf (mk (max_size c) (<[k := v]> (cache c)) (l1 ++ l2 ++ [k])).
Proof.
  intros Hwf Hs Ho. pose proof Hwf as [Hc Hnd Hkeys Hb].
  rewrite Ho in Hnd, Hb.
  split; simpl; [done| | |].
  - rewrite app_assoc. apply NoDup_app in Hnd as (Hn1 & Hd & Hn2).
    apply NoDup_cons in Hn2 as [Hni2 Hn2].
    apply NoDup_app. split_and!.
    + apply NoDup_app. split_and!; [done| |done].
      intros x Hx1 Hx2. apply (Hd _ Hx1). set_solver.
    + intros x Hx Hxk. apply list_elem_of_singleton in Hxk as ->.
      apply elem_of_app in Hx as [Hx|Hx]; [|done].
      apply (Hd _ Hx). set_solver.
    + apply NoDup_singleton.
  - intros x. rewrite lookup_insert. case_decide as Hx.
    + subst x. split; [by eexists|]. intros _. set_solver.
    + rewrite <- Hkeys, Ho. set_solver.
  - unfold len in *. rewrite !length_app in *. simpl in *. lia.
Qed.

Lemma wf_insert c k v :
  wf c -> cache c !! k = None ->
  Z.of_nat (base.size (cache c)) < max_size c ->
  wf (mk (max_size c) (<[k := v]> (cache c)) (access_order c ++ [k])).
Proof.
  intros Hwf Hm Hlt. pose proof (wf_size c Hwf) as Hsz.
  destruct Hwf as [Hc Hnd Hkeys Hb].
  assert (k ∉ access_order c) as Hni.
  { rewrite Hkeys, Hm. by intros [? ?]. }
  split; simpl; [done| | |].
  - apply NoDup_app. split_and!; [done| |apply NoDup_singleton].
    intros x Hx Hxk. apply list_elem_of_singleton in Hxk as ->. done.
  - intros x. rewrite lookup_insert. case_decide as Hx.
    + subst x. split; [by eexists|]. intros _. set_solver.
    + rewrite <- Hkeys. set_solver.
  - unfold len in *. rewrite length_app. simpl. lia.
Qed.

Lemma wf_evict c k v oldest rest :
  wf c -> cache c !! k = None ->
  access_order c = oldest :: rest ->
  wf (mk (max_size c) (<[k := v]> (delete oldest (cache c))) (rest ++ [k])).
Proof.
  intros [Hc Hnd Hkeys Hb] Hm Ho. rewrite Ho in Hnd, Hb.
  assert (k ∉ oldest :: rest) as Hni.
  { rewrite <- Ho, Hkeys, Hm. by intros [? ?]. }
  apply NoDup_cons in Hnd as [Hno Hnd].
  apply not_elem_of_cons in Hni as [Hne Hni].
  split; simpl; [done| | |].
  - apply NoDup_app. split_and!; [done| |apply NoDup_singleton].
    intros x Hx Hxk. apply list_elem_of_singleton in Hxk as ->. done.
  - intros x. rewrite lookup_insert. case_decide as Hx.
    + subst x. split; [by eexists|]. intros _. set_solver.
    + rewrite lookup_delete. case_decide as Hx'.
      * subst x. split; [|by intros [? ?]]. intros Hin. set_solver.
      * rewrite <- Hkeys, Ho. set_solver.
  - unfold len in *. rewrite length_app. simpl in *. lia.
Qed.

(** *** Histories *)

Lemma for_each_app {S A} (xs ys : list A) (body : A -> Py S unit) s :
  for_each (xs ++ ys) body s =
    match for_each xs body s with
    | (inr _, s') => for_each ys body s'
    | (inl e, s') => (inl e, s')
    end.
Proof.
  revert s. induction xs as [|x xs IH]; intros s; simpl; [done|].
  unfold mbind, Py_bind, bind. destruct (body x s) as [[e|[]] s']; [done|].
  apply IH.
Qed.

Lemma run_snoc h o c :
  run (h ++ [o]) c =
    match run h c with
    | (inr _, c') => run_op o c'
    | (inl e, c') => (inl e, c')
    end.
Proof.
  unfold run. rewrite for_each_app. destruct (for_each h run_op c) as [[e|[]] c']; [done|].
  simpl. unfold mbind, Py_bind, bind. by destruct (run_op o c') as [[?|[]] ?].
Qed.

Lemma last_use_from_snoc t h o k :
  last_use_from t (h ++ [o]) k =
    if decide (op_key o = k) then S (t + length h) else last_use_from t h k.
Proof.
  revert t. induction h as [|o' h IH]; intros t; simpl.
  - rewrite Nat.add_0_r. by destruct (decide (op_key o = k)).
  - rewrite IH. destruct (decide (op_key o = k)); [|done].
    f_equal. lia.
Qed.

Lemma last_use_snoc h o k :
  last_use (h ++ [o]) k =
    if decide (op_key o = k) then S (length h) else last_use h k.
Proof. apply last_use_from_snoc. Qed.

Lemma last_use_from_bound t h k : (last_use_from t h k <= t + length h)%nat.
Proof.
  revert t. induction h as [|o h IH]; intros t; simpl; [lia|].
  specialize (IH (S t)). destruct (last_use_from (S t) h k); [|lia].
  destruct (decide (op_key o = k)); lia.
Qed.

Lemma last_use_bound h k : (last_use h k <= length h)%nat.
Proof. apply (last_use_from_bound O). Qed.

Lemma older_snoc_other h o a b :
  op_key o ≠ a -> op_key o ≠ b -> older h a b -> older (h ++ [o]) a b.
Proof.
  unfold older. intros Ha Hb. rewrite !last_use_snoc.
  by repeat case_decide.
Qed.

Lemma older_snoc_touched h o a :
  op_key o ≠ a -> older (h ++ [o]) a (op_key o).
Proof.
  unfold older. intros Ha. rewrite !last_use_snoc.
  repeat case_decide; try done.
  pose proof (last_use_bound h a). lia.
Qed.

Lemma recency_untouched h o l :
  op_key o ∉ l -> StronglySorted (older h) l ->
  StronglySorted (older (h ++ [o])) l.
Proof.
  induction l as [|x l IH]; intros Hni Hs; [constructor|].
  apply not_elem_of_cons in Hni as [Hne Hni].
  apply StronglySorted_cons in Hs as [Hall Hs].
  apply StronglySorted_cons. split; [|by apply IH].
  rewrite Forall_forall in *. intros y Hy.
  apply older_snoc_other; [done| |by apply Hall].
  intros Heq. by rewrite Heq in Hni.
Qed.

Lemma recency_touch h o l :
  op_key o ∉ l -> StronglySorted (older h) l ->
  StronglySorted (older (h ++ [o])) (l ++ [op_key o]).
Proof.
  intros Hni Hs. apply StronglySorted_app_2.
  - intros x1 x2 Hx1 Hx2. apply list_elem_of_singleton in Hx2 as ->.
    apply older_snoc_touched. intros Heq. by rewrite Heq in Hni.
  - by apply recency_untouched.
  - repeat constructor.
Qed.

Lemma recency_remove h l1 k l2 :
  StronglySorted (older h) (l1 ++ k :: l2) ->
  StronglySorted (older h) (l1 ++ l2).
Proof.
  rewrite !StronglySorted_app, StronglySorted_cons.
  intros (Hcross & Hs1 & _ & Hs2). split_and!; [|done|done].
  intros x1 x2 Hx1 Hx2. apply Hcross; [done|]. set_solver.
Qed.

Lemma reached_step n h c o :
  reached n h c ->
  exists c', run_op o c = (inr tt, c') /\ reached n (h ++ [o]) c'.
Proof.
  intros [Hwf Hn Hrec]. pose proof (wf_size c Hwf) as Hsz.
  destruct (cache c !! op_key o) as [v0|] eqn:Hlook.
  - (* the key is present: it moves to the end *)
    destruct (wf_split c (op_key o) Hwf) as (l1 & l2 & Ho & Hn1 & Hn2 & Hnd);
      [by eexists|].
    assert (op_key o ∉ l1 ++ l2) as Hni by set_solver.
    rewrite Ho in Hrec. apply recency_remove in Hrec.
    pose proof (recency_touch h o _ Hni Hrec) as Hrec'.
    rewrite <- app_assoc in Hrec'.
    destruct o as [k|k v]; simpl in *.
    + exists (set_access_order (l1 ++ l2 ++ [k]) c). split.
      * unfold mbind, Py_bind, bind. by rewrite (get_hit k c v0 l1 l2).
      * split; [|done|done].
        pose proof (wf_touch c k v0 l1 l2 Hwf ltac:(by eexists) Ho) as Hwf'.
        rewrite insert_id in Hwf' by done. done.
    + exists (mk (max_size c) (<[k := v]> (cache c)) (l1 ++ l2 ++ [k])). split.
      * by rewrite (put_present k v c v0 l1 l2).
      * split; [|done|done]. apply wf_touch; [done|by eexists|done].
  - assert (op_key o ∉ access_order c) as Hni.
    { rewrite (wf_keys c Hwf), Hlook. by intros [? ?]. }
    destruct o as [k|k v]; simpl in *.
    + (* a miss changes nothing *)
      exists c. split.
      * unfold mbind, Py_bind, bind. by rewrite get_miss.
      * split; [done|done|]. by apply (recency_untouched h (Get k)).
    + destruct (Z.lt_ge_cases (Z.of_nat (base.size (cache c))) (max_size c))
        as [Hlt|Hge].
      * (* there is room *)
        eexists. split; [by apply put_new_room|].
        split; [by apply wf_insert|done|].
        by apply (recency_touch h (Put k v)).
      * (* the cache is full: the head of the order goes *)
        destruct (access_order c) as [|oldest rest] eqn:Ho.
        { pose proof (wf_capacity c Hwf). simpl in Hsz. lia. }
        assert (is_Some (cache c !! oldest)) as Hold.
        { apply (wf_keys c Hwf). rewrite Ho. set_solver. }
        eexists. split; [by apply put_new_full|].
        split; [by apply wf_evict|done|]. simpl.
        apply StronglySorted_cons in Hrec as [_ Hrec].
        apply (recency_touch h (Put k v)); [|done]. simpl. set_solver.
Qed.

Lemma reached_run n h :
  1 <= n ->
  exists c, run h (mk n (∅ : gmap K V) []) = (inr tt, c) /\ reached n h c.
Proof.
  intros Hn. induction h as [|o h IH] using rev_ind.
  - eexists. split; [done|]. split; [by apply wf_fresh|done|constructor].
  - destruct IH as (c & Hrun & Hreach).
    destruct (reached_step n h c o Hreach) as (c' & Hstep & Hreach').
    exists c'. split; [|done]. by rewrite run_snoc, Hrun.
Qed.

Lemma get_result c k :
  wf c -> exists c', get k c = (inr (cache c !! k), c').
Proof.
  intros Hwf. destruct (cache c !! k) as [v|] eqn:Hlook.
  - destruct (wf_split c k Hwf) as (l1 & l2 & Ho & Hn1 & _); [by eexists|].
    eexists. by apply get_hit.
  - eexists. by apply get_miss.
Qed.

(** After [put]s of distinct keys on a new cache, the cache holds the
    last [n] of them, in the order of the calls. *)
Lemma puts_run n (kvs : list (K * V)) :
  1 <= n -> NoDup kvs.*1 ->
  exists c,
    run (puts kvs) (mk n ∅ []) = (inr tt, c) /\
    reached n (puts kvs) c /\
    access_order c = drop (length kvs - Z.to_nat n) kvs.*1 /\
    cache c = list_to_map (drop (length kvs - Z.to_nat n) kvs).
Proof.
  intros Hn. induction kvs as [|[k v] kvs IH] using rev_ind; intros Hnd.
  - destruct (reached_run n [] Hn) as (c & Hrun & Hreach).
    exists c. split_and!; [done|done| |]; by injection Hrun as <-.
  - rewrite fmap_app in Hnd. apply NoDup_app in Hnd as (Hnd & Hfresh & _).
    assert (k ∉ kvs.*1) as Hk.
    { intros Hin. apply (Hfresh _ Hin). simpl. set_solver. }
    destruct (IH Hnd) as (c & Hrun & Hreach & Ho & Hc). clear IH.
    pose proof (reached_wf _ _ _ Hreach) as Hwf.
    pose proof (reached_max_size _ _ _ Hreach) as Hmax.
    pose proof (wf_size c Hwf) as Hsz.
    set (d := (length kvs - Z.to_nat n)%nat) in *.
    assert (cache c !! k = None) as Hmiss.
    { rewrite Hc. apply not_elem_of_list_to_map_1. rewrite fmap_drop.
      intros Hin. apply Hk. by apply (subseteq_drop d). }
    destruct (reached_step n (puts kvs) c (Put k v) Hreach)
      as (c' & Hstep & Hreach').
    assert (puts (kvs ++ [(k, v)]) = puts kvs ++ [Put k v]) as Hputs.
    { unfold puts. by rewrite map_app. }
    rewrite Hputs. exists c'. split; [by rewrite run_snoc, Hrun|].
    split; [done|]. simpl in Hstep.
    destruct (decide (length kvs < Z.to_nat n)%nat) as [Hlt|Hge].
    + (* there is room for the new key *)
      assert (d = O) as Hd by (unfold d; lia).
      rewrite Hd in Ho, Hc. rewrite drop_0 in Ho. rewrite drop_0 in Hc.
      rewrite put_new_room in Hstep; [|done|].
      2:{ rewrite Hsz, Ho. rewrite length_fmap. lia. }
      injection Hstep as <-. simpl. rewrite length_app. simpl.
      replace (length kvs + 1 - Z.to_nat n)%nat with O by lia. simpl.
      rewrite Ho, Hc, fmap_app. split; [done|].
      symmetry. by apply list_to_map_snoc.
    + (* the oldest of the last [n] keys goes *)
      assert (d < length kvs)%nat as Hdlt by (unfold d; lia).
      destruct (lookup_lt_is_Some_2 kvs d Hdlt) as [[ko vo] Hlook].
      pose proof (drop_S _ _ _ Hlook) as Hdrop.
      rewrite Hdrop in Hc. rewrite <- fmap_drop, Hdrop in Ho. simpl in Ho.
      assert (ko ∉ (drop (S d) kvs).*1) as Hko.
      { pose proof (wf_nodup c Hwf) as Hnd'. rewrite Ho in Hnd'.
        by apply NoDup_cons in Hnd' as [? _]. }
      rewrite (put_new_full k v c ko ((drop (S d) kvs).*1)) in Hstep;
        [|done| |done|].
      2:{ rewrite Hsz, Ho. simpl. rewrite length_fmap, length_drop. lia. }
      2:{ apply (wf_keys c Hwf). rewrite Ho. set_solver. }
      injection Hstep as <-. simpl. rewrite length_app. simpl.
      replace (length kvs + 1 - Z.to_nat n)%nat with (S d) by (unfold d; lia).
      rewrite fmap_app, !drop_app_le by (rewrite ?length_fmap; lia).
      split; [by rewrite fmap_drop|].
      rewrite Hc. simpl. rewrite delete_insert_eq.
      rewrite delete_id by (by apply not_elem_of_list_to_map_1).
      symmetry. apply list_to_map_snoc. rewrite fmap_drop.
      intros Hin. apply Hk. by apply (subseteq_drop (S d)).
Qed.

(** *** What one call does to any cache, consistent or not *)

Lemma get_cache c k : cache (get k c).2 = cache c.
Proof.
  unfold get, mbind, Py_bind, bind, state.
  destruct (cache c !! k); [|done].
  unfold access_order_remove, mbind, Py_bind, bind, state.
  by destruct (list_remove k (access_order c)).
Qed.

Lemma get_max_size c k : max_size (get k c).2 = max_size c.
Proof.
  unfold get, mbind, Py_bind, bind, state.
  destruct (cache c !! k); [|done].
  unfold access_order_remove, mbind, Py_bind, bind, state.
  by destruct (list_remove k (access_order c)).
Qed.

Lemma get_value c k r c' : get k c = (inr r, c') -> r = cache c !! k.
Proof.
  unfold get, mbind, Py_bind, bind, state.
  destruct (cache c !! k); [|by intros [= <- <-]].
  unfold access_order_remove, mbind, Py_bind, bind, state.
  destruct (list_remove k (access_order c)); [|done]. by intros [= <- <-].
Qed.

Lemma put_cache_inv c key value k v :
  cache (put key value c).2 !! k = Some v ->
  (k = key /\ v = value) \/ cache c !! k = Some v.
Proof.
  unfold put, mbind, Py_bind, bind, state.
  destruct (cache c !! key) eqn:Hlook.
  - unfold modify, access_order_remove, mbind, Py_bind, bind, state. simpl.
    destruct (list_remove key (access_order c)); simpl;
      (rewrite lookup_insert; case_decide as Hk;
       [intros [= <-]; by left | by right]).
  - destruct (Z.of_nat (base.size (cache c)) >=? max_size c).
    + unfold access_order_pop0, mbind, Py_bind, bind, state.
      destruct (access_order c) as [|oldest rest]; simpl; [by right|].
      unfold cache_del, mbind, Py_bind, bind, state. simpl.
      destruct (cache c !! oldest); simpl; [|by right].
      rewrite lookup_insert. case_decide as Hk; [intros [= <-]; by left|].
      rewrite lookup_delete. case_decide; [done|by right].
    + simpl. rewrite lookup_insert.
      case_decide as Hk; [intros [= <-]; by left | by right].
Qed.

Lemma put_new_outcome c key value :
  cache c !! key = None ->
  (exists c', put key value c = (inr tt, c') /\ cache c' !! key = Some value)
  \/ (exists c', put key value c = (inl IndexError, c'))
  \/ (exists c', put key value c = (inl KeyError, c')).
Proof.
  intros Hmiss. unfold put, mbind, Py_bind, bind, state. rewrite Hmiss.
  destruct (Z.of_nat (base.size (cache c)) >=? max_size c).
  - unfold access_order_pop0, mbind, Py_bind, bind, state.
    destruct (access_order c) as [|oldest rest]; simpl.
    { right. left. by eexists. }
    unfold cache_del, mbind, Py_bind, bind, state. simpl.
    destruct (cache c !! oldest); simpl.
    + left. eexists. split; [done|]. simpl. apply lookup_insert_eq.
    + right. right. by eexists.
  - left. eexists. split; [done|]. simpl. apply lookup_insert_eq.
Qed.

(** *** What one call does to a consistent cache *)

Lemma get_wf c k :
  wf c ->
  exists c', get k c = (inr (cache c !! k), c') /\ wf c'
             /\ cache c' = cache c /\ max_size c' = max_size c.
Proof.
  intros Hwf. destruct (cache c !! k) as [v|] eqn:Hlook.
  - destruct (wf_split c k Hwf) as (l1 & l2 & Ho & Hn1 & _); [by eexists|].
    eexists. split; [by apply get_hit|].
    pose proof (wf_touch c k v l1 l2 Hwf ltac:(by eexists) Ho) as Hwf'.
    rewrite insert_id in Hwf' by done. done.
  - exists c. split; [by apply get_miss|done].
Qed.

Lemma put_wf c k v :
  wf c ->
  exists c', put k v c = (inr tt, c') /\ wf c'
             /\ cache c' !! k = Some v /\ max_size c' = max_size c.
Proof.
  intros Hwf. pose proof (wf_size c Hwf) as Hsz.
  destruct (cache c !! k) as [v0|] eqn:Hlook.
  - destruct (wf_split c k Hwf) as (l1 & l2 & Ho & Hn1 & _); [by eexists|].
    eexists. split; [by apply (put_present k v c v0 l1 l2)|].
    split_and!; [|apply lookup_insert_eq|done].
    apply wf_touch; [done|by eexists|done].
  - destruct (Z.lt_ge_cases (Z.of_nat (base.size (cache c))) (max_size c))
      as [Hlt|Hge].
    + eexists. split; [by apply put_new_room|].
      split_and!; [by apply wf_insert|apply lookup_insert_eq|done].
    + destruct (access_order c) as [|oldest rest] eqn:Ho.
      { pose proof (wf_capacity c Hwf). simpl in Hsz. lia. }
      assert (is_Some (cache c !! oldest)) as Hold.
      { apply (wf_keys c Hwf). rewrite Ho. set_solver. }
      eexists. split; [by apply put_new_full|].
      split_and!; [by apply wf_evict|apply lookup_insert_eq|done].
Qed.

(** C2. A cache made with capacity [n >= 1] never raises and never
    holds more than [n] entries, whatever [get]/[put] calls it
    receives. A [put] of a new key on a full cache removes exactly the
    entry whose last use is the oldest, then adds the new key as the
    most recently used one. After [put]s of [n + 1] distinct keys on a
    new cache, the last [n] keys are retrievable and the first is not. *)
Theorem LRUCache_capacity_and_eviction (n : Z) (c0 : LRUCache K V) :
  1 <= n -> init n = inr c0 ->
  (forall h, exists c,
      run h c0 = (inr tt, c) /\
      Z.of_nat (base.size (cache c)) <= n /\
      forall key value,
        cache c !! key = None -> Z.of_nat (base.size (cache c)) = n ->
        exists oldest rest c',
          access_order c = oldest :: rest /\
          is_Some (cache c !! oldest) /\
          (forall k, is_Some (cache c !! k) -> k ≠ oldest -> older h oldest k) /\
          put key value c = (inr tt, c') /\
          cache c' = <[key := value]> (delete oldest (cache c)) /\
          access_order c' = rest ++ [key] /\
          Z.of_nat (base.size (cache c')) = n /\
          (forall k, k ≠ key -> older (h ++ [Put key value]) k key))
  /\
  (forall kvs : list (K * V),
      NoDup kvs.*1 -> Z.of_nat (length kvs) = n + 1 ->
      exists c,
        run (puts kvs) c0 = (inr tt, c) /\
        access_order c = drop 1 kvs.*1 /\
        forall k, exists c',
          get k c = (inr ((list_to_map (drop 1 kvs) : gmap K V) !! k), c')).
Proof.
  intros Hn Hinit. injection Hinit as <-. split.
  - intros h. destruct (reached_run n h Hn) as (c & Hrun & Hreach).
    pose proof (reached_wf _ _ _ Hreach) as Hwf.
    pose proof (reached_max_size _ _ _ Hreach) as Hmax.
    pose proof (wf_size c Hwf) as Hsz.
    exists c. split; [done|]. split.
    { pose proof (wf_bound c Hwf). unfold len in *. lia. }
    intros key value Hmiss Hfull.
    destruct (access_order c) as [|oldest rest] eqn:Ho.
    { simpl in Hsz. lia. }
    assert (is_Some (cache c !! oldest)) as Hold.
    { apply (wf_keys c Hwf). rewrite Ho. set_solver. }
    destruct (reached_step n h c (Put key value) Hreach)
      as (c' & Hstep & Hreach').
    simpl in Hstep. pose proof Hstep as Hput.
    rewrite (put_new_full key value c oldest rest) in Hstep; [|done|lia|done|done].
    injection Hstep as Hc'.
    exists oldest, rest, c'. split_and!; [done|done| |done|by subst c'|by subst c'| |].
    + intros k Hin Hne. apply (wf_keys c Hwf) in Hin. rewrite Ho in Hin.
      apply elem_of_cons in Hin as [->|Hin]; [done|].
      pose proof (reached_recency _ _ _ Hreach) as Hrec. rewrite Ho in Hrec.
      apply StronglySorted_cons in Hrec as [Hall _].
      rewrite Forall_forall in Hall. by apply Hall.
    + rewrite (wf_size c' (reached_wf _ _ _ Hreach')). subst c'. simpl.
      rewrite length_app. simpl in *. lia.
    + intros k Hne. apply (older_snoc_touched h (Put key value)). simpl. done.
  - intros kvs Hnd Hlen.
    destruct (puts_run n kvs Hn Hnd) as (c & Hrun & Hreach & Ho & Hc).
    replace (length kvs - Z.to_nat n)%nat with 1%nat in Ho, Hc by lia.
    exists c. split_and!; [done|done|].
    intros k. rewrite <- Hc. apply get_result. by destruct Hreach.
Qed.

(** C9 (as the code has it). [__init__] does not look at the
    capacity: with [n <= 0] it returns an empty cache like any other.
    On that cache every [get] misses and every [put] raises
    [IndexError] and stores nothing. *)
Theorem LRUCache_init_nonpositive_capacity (n : Z) :
  n <= 0 ->
  exists c : LRUCache K V,
    init n = inr c /\ max_size c = n /\ cache c = ∅ /\ access_order c = [] /\
    (forall key, get key c = (inr None, c)) /\
    (forall key value, put key value c = (inl IndexError, c)).
Proof.
  intros Hn. eexists. split; [reflexivity|]. split_and!; try reflexivity.
  intros key value. apply put_new_full_nothing_to_evict; simpl; [done| |done].
  rewrite map_size_empty. lia.
Qed.
End Facts.

(** The capacity 2, three distinct keys. *)
Lemma LRUCache_capacity_and_eviction_witness :
  exists c : LRUCache nat nat,
    run (puts [(1, 10); (2, 20); (3, 30)]%nat) (mk 2 ∅ []) = (inr tt, c) /\
    access_order c = [2; 3]%nat.
Proof.
  destruct (LRUCache_capacity_and_eviction (K := nat) (V := nat) 2 (mk 2 ∅ []))
    as [_ Hputs]; [lia|reflexivity|].
  destruct (Hputs [(1, 10); (2, 20); (3, 30)]%nat) as (c & Hrun & Ho & _).
  - simpl. apply NoDup_ListNoDup. repeat constructor; simpl; intuition lia.
  - reflexivity.
  - exists c. split; [exact Hrun|exact Ho].
Defined.

Lemma LRUCache_init_nonpositive_capacity_witness :
  exists c : LRUCache nat nat, init (-1) = inr c /\ max_size c = -1.
Proof.
  destruct (LRUCache_init_nonpositive_capacity (K := nat) (V := nat) (-1))
    as (c & Hinit & Hmax & _); [lia|].
  exists c. split; [exact Hinit|exact Hmax].
Defined.

(** C9 as stated fails: a capacity of 0 is not rejected. *)
Lemma LRUCache_init_rejects_nothing :
  ~ (forall n : Z, n <= 0 ->
       exists e, init (K := nat) (V := nat) n = inl e).
Proof.
  intros Hclaim. destruct (Hclaim 0) as [e He]; [lia|]. discriminate He.
Qed.
End LRU_facts.

(** ** Path validation *)

Section Paths.
Variable resolve : Path -> Path.
Hypothesis resolve_absolute : forall p, is_absolute (resolve p) = true.

Lemma prefix_of_take {A} (l1 l2 : list A) :
  l1 `prefix_of` l2 <-> take (length l1) l2 = l1.
Proof.
  split.
  - intros [k ->]. apply take_app_length.
  - intros Ht. exists (drop (length l1) l2).
    rewrite <- Ht at 1. symmetry. apply take_drop.
Qed.

Lemma relative_to_absolute self other :
  is_absolute other = true ->
  relative_to self other =
    if bool_decide (take (length (parts other)) (parts self) = parts other)
    then inr {| anchor := [];
                names := drop (length (parts other)) (parts self) |}
    else inl (ValueError (path_str self ++ lit " is not in the subpath of "
                            ++ path_str other)).
Proof.
  intros Habs. unfold relative_to.
  destruct (parts other) as [|x l] eqn:Hparts.
  - unfold parts in Hparts. by rewrite Habs in Hparts.
  - cbv zeta. by destruct (bool_decide _).
Qed.

Lemma relative_to_inside self other :
  is_absolute other = true ->
  inside self other -> exists rest, relative_to self other = inr rest.
Proof.
  intros Habs Hin. apply prefix_of_take in Hin.
  rewrite relative_to_absolute, bool_decide_eq_true_2 by done. by eexists.
Qed.

Lemma relative_to_outside self other :
  is_absolute other = true ->
  ~ inside self other -> exists msg, relative_to self other = inl (ValueError msg).
Proof.
  intros Habs Hout. unfold inside in Hout. rewrite prefix_of_take in Hout.
  rewrite relative_to_absolute, bool_decide_eq_false_2 by done. by eexists.
Qed.

(** C1. A name whose canonical form is not inside the root is refused
    with a [ValueError] (the path-escape error of the sources); a name
    whose canonical form is inside the root yields that canonical
    form, which is absolute. *)
Theorem validate_zim_file_path_confines (name : str) (root : Path) :
  (~ inside (canonical_form resolve name root) (resolve root) ->
     exists msg,
       validate_zim_file_path resolve name root = inl (ValueError msg))
  /\
  (inside (canonical_form resolve name root) (resolve root) ->
     validate_zim_file_path resolve name root
       = inr (canonical_form resolve name root)
     /\ is_absolute (canonical_form resolve name root) = true).
Proof.
  assert (validate_zim_file_path resolve name root =
          match relative_to (canonical_form resolve name root) (resolve root) with
          | inl (ValueError _) =>
              inl (ValueError (lit "File path "
                     ++ path_str (canonical_form resolve name root)
                     ++ lit " is outside allowed directory "
                     ++ path_str (resolve root)))
          | inl e => inl e
          | inr _ => inr (canonical_form resolve name root)
          end) as Heq.
  { unfold validate_zim_file_path, canonical_form, joinpath.
    by destruct (is_absolute (Path_of_str name)). }
  split.
  - intros Hout.
    destruct (relative_to_outside _ _ (resolve_absolute root) Hout) as [msg Hr].
    rewrite Heq, Hr. by eexists.
  - intros Hin.
    destruct (relative_to_inside _ _ (resolve_absolute root) Hin) as [rest Hr].
    rewrite Heq, Hr. split; [done|]. apply resolve_absolute.
Qed.
End Paths.

Lemma resolve_lexical_absolute cwd p : is_absolute (resolve_lexical cwd p) = true.
Proof. reflexivity. Qed.

(** Without symbolic links, [../../etc/passwd] under [/srv/zim] is
    [/etc/passwd]. *)
Lemma validate_zim_file_path_confines_witness :
  exists msg,
    validate_zim_file_path (resolve_lexical []) (lit "../../etc/passwd")
      (Path_of_str (lit "/srv/zim")) = inl (ValueError msg).
Proof.
  apply (validate_zim_file_path_confines (resolve_lexical [])
           (resolve_lexical_absolute [])).
  unfold inside. vm_compute. intros [k Hk]. discriminate Hk.
Defined.

Example validate_zim_file_path_inside :
  validate_zim_file_path (resolve_lexical []) (lit "wiki/../a.zim")
    (Path_of_str (lit "/srv/zim")) = inr (Path_of_str (lit "/srv/zim/a.zim")).
Proof. reflexivity. Qed.

(** ** Slices and truncation *)

Lemma slice_bound_nonneg (n i : Z) :
  0 <= n -> 0 <= i -> slice_bound n i = Z.to_nat (Z.min n i).
Proof.
  intros Hn Hi. unfold slice_bound. by destruct (Z.ltb_spec i 0); [lia|].
Qed.

(** For bounds that are not negative, [l[lo:hi]] is [hi - lo] elements
    from position [lo] on. *)
Lemma slice_nonneg {A} (l : list A) (lo hi : Z) :
  0 <= lo <= hi ->
  slice l lo hi = take (Z.to_nat (hi - lo)) (drop (Z.to_nat lo) l).
Proof.
  intros Hb. unfold slice.
  rewrite !slice_bound_nonneg by (unfold len; lia). unfold len.
  destruct (Z.le_gt_cases (Z.of_nat (length l)) lo) as [Hout|Hin].
  - rewrite Z.min_l by lia. rewrite Nat2Z.id.
    rewrite !drop_ge by lia. by rewrite !take_nil.
  - rewrite (Z.min_r _ lo) by lia.
    destruct (Z.le_gt_cases hi (Z.of_nat (length l))) as [Hhi|Hhi].
    + rewrite Z.min_r by lia. f_equal. lia.
    + rewrite Z.min_l by lia. rewrite Nat2Z.id.
      rewrite !take_ge; [done| |]; rewrite length_drop; lia.
Qed.

Lemma slice_from_zero {A} (l : list A) (hi : Z) :
  0 <= hi -> slice l 0 hi = take (Z.to_nat hi) l.
Proof.
  intros Hhi. rewrite slice_nonneg by lia. simpl. rewrite drop_0.
  by rewrite Z.sub_0_r.
Qed.

Lemma truncate_text_long text max_length suffix :
  len text > max_length -> len suffix <= max_length ->
  truncate_text text max_length suffix
    = take (Z.to_nat (max_length - len suffix)) text ++ suffix
  /\ len (truncate_text text max_length suffix) = max_length.
Proof.
  intros Hlong Hroom. unfold truncate_text.
  destruct (Z.leb_spec (len text) max_length); [lia|].
  rewrite slice_from_zero by lia. split; [done|].
  unfold len in *. rewrite length_app, length_take. lia.
Qed.

Section Extraction.
Context `{Env}.

(** C7 (as the code has it). The content of an entry whose formatted
    content is longer than the configured maximum is cut to exactly
    that maximum, marker included: it is the first
    [max_content_length - 3] characters of the formatted content
    followed by ["..."]. *)
Theorem extract_from_entry_truncates (entry : Entry) (format_type : str)
    (content_bytes : bytes) :
  is_redirect entry = false ->
  item_content entry = inr content_bytes ->
  let formatted :=
    ContentExtractor._format_content
      (ContentExtractor._decode_content content_bytes) format_type in
  len formatted > max_content_length config ->
  len default_suffix <= max_content_length config ->
  exists info,
    ContentExtractor._extract_from_entry entry format_type = inr info /\
    content info =
      take (Z.to_nat (max_content_length config - len default_suffix))
        formatted ++ default_suffix /\
    len (content info) = max_content_length config /\
    forall zim_file entry_path s s',
      ZimManager.get_entry_by_path zim_file entry_path s
        = (inr (Some entry), s') ->
      ContentExtractor.extract_entry_content zim_file entry_path format_type s
        = (inr (Some info), s').
Proof.
  intros Hred Hitem formatted Hlong Hroom.
  destruct (truncate_text_long formatted (max_content_length config)
              default_suffix Hlong Hroom) as [Htrunc Hlen].
  unfold ContentExtractor._extract_from_entry. rewrite Hitem, Hred.
  fold formatted.
  destruct (Z.gtb_spec (len formatted) (max_content_length config)); [|lia].
  eexists. split; [reflexivity|]. simpl. split_and!; [done|done|].
  intros zim_file entry_path s s' Hget.
  unfold ContentExtractor.extract_entry_content, try_except, mbind, Py_bind, bind.
  rewrite Hget. unfold ContentExtractor._extract_from_entry.
  rewrite Hitem, Hred. fold formatted.
  destruct (Z.gtb_spec (len formatted) (max_content_length config)); [|lia].
  reflexivity.
Qed.

(** C8 (as the code has it). For a redirect whose item can be read,
    the payload is a sentinel: it carries the path and the title of the
    entry, the type ["redirect"], a fixed placeholder as content (not
    the empty string), length 0, a fixed preview and no metadata,
    whatever the bytes and the requested format are: nothing is
    decoded. *)
Theorem extract_from_entry_redirect (entry : Entry) (format_type : str)
    (content_bytes : bytes) :
  is_redirect entry = true ->
  item_content entry = inr content_bytes ->
  exists info,
    ContentExtractor._extract_from_entry entry format_type = inr info
    /\ content_path info = path entry
    /\ content_title info = title entry
    /\ content info = lit "[This is a redirect]"
    /\ content_type info = lit "redirect"
    /\ content_length info = 0
    /\ content_preview info = lit "[Redirect]"
    /\ content_is_redirect info = true
    /\ metadata info = ∅.
Proof.
  intros Hred Hitem. unfold ContentExtractor._extract_from_entry.
  rewrite Hitem, Hred. eexists. split; [reflexivity|]. by split_and!.
Qed.
End Extraction.

Lemma extract_from_entry_truncates_witness :
  exists info,
    ContentExtractor._extract_from_entry (H := Example.env)
      Example.entry_one (lit "html") = inr info /\
    len (content info) = 5.
Proof.
  destruct (extract_from_entry_truncates (H := Example.env)
              Example.entry_one (lit "html")
              [x61; x62; x63; x64; x65; x66; x67; x68]%byte)
    as (info & Hinfo & _ & Hlen & _);
    [reflexivity|reflexivity|reflexivity|vm_compute; discriminate|].
  exists info. split; [exact Hinfo|exact Hlen].
Defined.

(** C7 as stated fails: with a maximum of 5, eight characters are cut
    to five, not to five plus the three of the marker. *)
Lemma truncated_length_is_the_maximum :
  exists info,
    ContentExtractor._extract_from_entry (H := Example.env)
      Example.entry_one (lit "html") = inr info /\
    content info = lit "ab..." /\
    len (content info) <> max_content_length (config (Env := Example.env))
                            + len default_suffix.
Proof. eexists. split; [reflexivity|]. split; [reflexivity|]. vm_compute. discriminate. Qed.

Lemma extract_from_entry_redirect_witness :
  exists info,
    ContentExtractor._extract_from_entry (H := Example.env)
      Example.entry_redirect (lit "text") = inr info /\
    content_type info = lit "redirect".
Proof.
  destruct (extract_from_entry_redirect (H := Example.env) Example.entry_redirect
              (lit "text") [x61; x62; x63; x64; x65; x66; x67; x68]%byte)
    as (info & Hinfo & _ & _ & _ & Htype & _); [reflexivity|reflexivity|].
  exists info. split; [exact Hinfo|exact Htype].
Defined.

(** C8 as stated fails: the content of the payload is not empty, and a
    redirect whose item cannot be read yields no payload at all, as the
    item is read before the redirect is looked at. *)
Lemma redirect_payload_is_not_empty_and_reads_the_item :
  ~ (forall entry format_type,
       is_redirect entry = true ->
       exists info,
         ContentExtractor._extract_from_entry (H := Example.env) entry format_type
           = inr info /\
         content_type info = lit "redirect" /\ content info = []
         /\ content_is_redirect info = true)
  /\ ContentExtractor._extract_from_entry (H := Example.env)
       Example.entry_dangling (lit "text") = inl RuntimeError.
Proof.
  split; [|reflexivity].
  intros Hclaim.
  destruct (Hclaim Example.entry_redirect (lit "text") eq_refl)
    as (info & Hinfo & _ & Hempty & _).
  injection Hinfo as <-. discriminate Hempty.
Qed.

(** ** Query validation *)

(** [lstrip] removes a prefix of white space and stops at the first
    other character. *)
Lemma lstrip_split (s : str) :
  exists pre, s = pre ++ lstrip s /\ Forall (fun c => isspace c = true) pre.
Proof.
  induction s as [|c s (pre & Hs & Hpre)]; simpl.
  - by exists [].
  - destruct (isspace c) eqn:Hc.
    + exists (c :: pre). split; [by rewrite <- app_comm_cons, <- Hs|by constructor].
    + by exists [].
Qed.

Lemma lstrip_starts_clean s : starts_clean (lstrip s).
Proof. induction s as [|c s IH]; simpl; [done|]. by destruct (isspace c) eqn:Hc. Qed.

Lemma lstrip_clean s : starts_clean s -> lstrip s = s.
Proof. destruct s as [|c s]; simpl; [done|]. by intros ->. Qed.

Lemma rstrip_split (s : str) : exists post, s = rstrip s ++ post.
Proof.
  unfold rstrip. destruct (lstrip_split (rev s)) as (pre & Hs & _).
  exists (rev pre). rewrite <- rev_app_distr, <- Hs. by rewrite rev_involutive.
Qed.

Lemma rstrip_starts_clean s : starts_clean s -> starts_clean (rstrip s).
Proof.
  intros Hs. destruct (rstrip_split s) as [post Hpost].
  destruct (rstrip s) as [|c r]; [done|].
  rewrite Hpost in Hs. done.
Qed.

Lemma rstrip_idempotent s : rstrip (rstrip s) = rstrip s.
Proof.
  unfold rstrip. rewrite rev_involutive.
  by rewrite (lstrip_clean _ (lstrip_starts_clean (rev s))).
Qed.

Lemma strip_idempotent s : strip (strip s) = strip s.
Proof.
  unfold strip at 1.
  rewrite (lstrip_clean (strip s)).
  - apply rstrip_idempotent.
  - apply rstrip_starts_clean, lstrip_starts_clean.
Qed.

Lemma validate_search_query_cases query :
  (strip query = [] /\
   validate_search_query query = inl (ValueError (lit "Search query cannot be empty")))
  \/ (strip query <> [] /\ 1000 < len (strip query) /\
      validate_search_query query = inl (ValueError
                                       (lit "Search query too long (max 1000 characters)")))
  \/ (strip query <> [] /\ len (strip query) <= 1000 /\
      validate_search_query query = inr (strip query)).
Proof.
  unfold validate_search_query.
  destruct (decide (strip query = [])) as [He|Hne].
  - left. split; [done|]. rewrite (bool_decide_eq_true_2 (strip query = [])) by done.
    by rewrite orb_true_r.
  - right. rewrite (bool_decide_eq_false_2 (strip query = [])) by done.
    assert (query <> []) as Hq by (intros ->; by apply Hne).
    rewrite bool_decide_eq_false_2 by done. simpl.
    destruct (Z.gtb_spec (len (strip query)) 1000); [left|right]; split_and!; done || lia.
Qed.

Lemma validate_search_query_clean query clean_query :
  validate_search_query query = inr clean_query ->
  clean_query = strip query /\
  validate_search_query clean_query = inr clean_query.
Proof.
  intros Hv.
  destruct (validate_search_query_cases query)
    as [(_ & Hr)|[(_ & _ & Hr)|(Hne & Hlen & Hr)]];
    rewrite Hr in Hv; try discriminate.
  injection Hv as <-. split; [done|].
  destruct (validate_search_query_cases (strip query))
    as [(He & _)|[(_ & Hlong & _)|(_ & _ & Hr')]].
  - by rewrite strip_idempotent in He.
  - rewrite strip_idempotent in Hlong. lia.
  - by rewrite strip_idempotent in Hr'.
Qed.

(** ** Stable sorting *)

Section SortFacts.
Context {A : Type} (le : A -> A -> bool).

Lemma insert_sorted_perm x l : insert_sorted le x l ≡ₚ x :: l.
Proof.
  induction l as [|y l IH]; simpl; [done|].
  destruct (le x y); [done|]. rewrite IH. apply Permutation_swap.
Qed.

Lemma stable_sort_perm l : stable_sort le l ≡ₚ l.
Proof.
  induction l as [|x l IH]; simpl; [done|].
  rewrite insert_sorted_perm. by rewrite IH.
Qed.

Lemma stable_sort_Forall (P : A -> Prop) l :
  Forall P l -> Forall P (stable_sort le l).
Proof. intros Hl. by rewrite stable_sort_perm. Qed.

Hypothesis le_total : forall x y, le x y = true \/ le y x = true.
Hypothesis le_trans : forall x y z, le x y = true -> le y z = true -> le x z = true.

Lemma insert_sorted_sorted x l :
  StronglySorted (fun a b => le a b = true) l ->
  StronglySorted (fun a b => le a b = true) (insert_sorted le x l).
Proof.
  induction 1 as [|y l Hs IH Hall]; simpl; [repeat constructor|].
  destruct (le x y) eqn:Hxy.
  - constructor; [by constructor|]. constructor; [done|].
    eapply Forall_impl; [exact Hall|]. intros z Hz. by eapply le_trans.
  - constructor; [done|]. rewrite insert_sorted_perm. constructor; [|done].
    destruct (le_total x y) as [Hc|Hc]; congruence.
Qed.

Lemma stable_sort_sorted l :
  StronglySorted (fun a b => le a b = true) (stable_sort le l).
Proof.
  induction l as [|x l IH]; simpl; [constructor|]. by apply insert_sorted_sorted.
Qed.
End SortFacts.

(** Sorting by a key orders the keys, keeps the elements, and keeps the
    order of the elements that have the same key. *)
Lemma sort_by_key_sorted {A} (f : A -> Z) l :
  StronglySorted (fun a b => f a <= f b) (sort_by_key f l).
Proof.
  unfold sort_by_key.
  assert (StronglySorted (fun a b => (f a <=? f b) = true)
            (stable_sort (fun x y => f x <=? f y) l)) as Hs.
  { apply stable_sort_sorted.
    - intros x y. rewrite !Z.leb_le. lia.
    - intros x y z. rewrite !Z.leb_le. lia. }
  induction Hs as [|x s Hs IH Hall]; constructor; [done|].
  eapply Forall_impl; [exact Hall|]. intros y. apply Z.leb_le.
Qed.

Lemma sort_by_key_perm {A} (f : A -> Z) l : sort_by_key f l ≡ₚ l.
Proof. apply stable_sort_perm. Qed.

Lemma sort_by_key_stable {A} (f : A -> Z) (k : Z) l :
  filter (fun a => f a = k) (sort_by_key f l) = filter (fun a => f a = k) l.
Proof.
  unfold sort_by_key. induction l as [|x l IH]; simpl; [done|].
  rewrite filter_cons, <- IH. clear IH.
  generalize (stable_sort (fun x y => f x <=? f y) l). intros s.
  induction s as [|y s IH]; simpl; [by rewrite filter_cons, filter_nil|].
  destruct (Z.leb_spec (f x) (f y)) as [Hle|Hgt].
  - by rewrite filter_cons.
  - rewrite !filter_cons, IH. repeat case_decide; try done; lia.
Qed.

(** ** Frames: what a method leaves alone *)

Section Frames.
Context `{Env}.

Section Untouched.
Context {T : Type} (proj : State -> T).
Hypothesis proj_calls : forall l s, proj (set_calls l s) = proj s.
Hypothesis proj_file_info : forall m s, proj (set_file_info_cache m s) = proj s.
Hypothesis proj_available : forall l s, proj (set_available_files l s) = proj s.
Hypothesis proj_draws : forall n s, proj (set_draws n s) = proj s.
Hypothesis proj_archives : forall c s, proj (set_archive_cache c s) = proj s.
Hypothesis proj_searchers : forall m s, proj (set_searcher_cache m s) = proj s.

Lemma untouched_ret {A} (a : A) : untouched proj (ret a).
Proof. done. Qed.
Lemma untouched_mret {A} (a : A) : untouched proj (mret a).
Proof. done. Qed.
Lemma untouched_raise {A} e : untouched proj (raise (A := A) e).
Proof. done. Qed.
Lemma untouched_state : untouched proj state.
Proof. done. Qed.
Lemma untouched_lift {A} (r : exn + A) : untouched proj (lift r).
Proof. by destruct r. Qed.
Lemma untouched_bind {A B} (m : Py State A) (k : A -> Py State B) :
  untouched proj m -> (forall a, untouched proj (k a)) -> untouched proj (m ≫= k).
Proof.
  intros Hm Hk s. unfold mbind, Py_bind, bind. specialize (Hm s).
  destruct (m s) as [[e|a] s']; simpl in *; [done|].
  by rewrite Hk.
Qed.
Lemma untouched_try_except {A} (m : Py State A) classes h :
  untouched proj m -> (forall e, untouched proj (h e)) ->
  untouched proj (try_except m classes h).
Proof.
  intros Hm Hh s. unfold try_except. specialize (Hm s).
  destruct (m s) as [[e|a] s']; simpl in *; [|done].
  destruct (classes e); [|done]. by rewrite Hh.
Qed.
Lemma untouched_modify (f : State -> State) :
  (forall s, proj (f s) = proj s) -> untouched proj (modify f).
Proof. intros Hf s. apply Hf. Qed.
Lemma untouched_library {A} c (answer : exn + A) :
  untouched proj (library c answer).
Proof.
  unfold library. apply untouched_bind; [by apply untouched_modify|].
  intros _. destruct answer; [apply untouched_raise|apply untouched_ret].
Qed.
Lemma untouched_zoom_archive_cache {A} (m : Py (LRU.LRUCache str Archive) A) :
  untouched proj (zoom archive_cache set_archive_cache m).
Proof. intros s. unfold zoom. destruct (m (archive_cache s)). apply proj_archives. Qed.
Lemma untouched_for_acc {A B} (xs : list A) (acc : B) body :
  (forall acc x, untouched proj (body acc x)) -> untouched proj (for_acc xs acc body).
Proof.
  intros Hb. revert acc. induction xs as [|x xs IH]; intros acc; simpl.
  - apply untouched_ret.
  - apply untouched_bind; [apply Hb|]. intros acc'. apply IH.
Qed.

Ltac untouched_step :=
  first
    [ apply untouched_ret | apply untouched_mret | apply untouched_raise
    | apply untouched_state | apply untouched_lift | apply untouched_library
    | apply untouched_zoom_archive_cache
    | apply untouched_modify; intros ?;
      first [ apply proj_calls | apply proj_file_info | apply proj_available
            | apply proj_draws | apply proj_searchers ]
    | apply untouched_bind; [|intros ?]
    | apply untouched_try_except; [|intros ?]
    | apply untouched_for_acc; intros ? ?
    | match goal with
      | |- untouched _ (match ?x with _ => _ end) => destruct x
      | |- untouched _ (let _ := _ in _) => cbv zeta
      end ].
Ltac untouched_tac := repeat untouched_step.

Lemma untouched_get_archive filename :
  untouched proj (ZimManager.get_archive filename).
Proof. unfold ZimManager.get_archive. untouched_tac. Qed.

Lemma untouched__get_zim_file_info filepath :
  untouched proj (ZimManager._get_zim_file_info filepath).
Proof.
  unfold ZimManager._get_zim_file_info, ZimManager.read_metadata. untouched_tac.
Qed.

Lemma untouched_discover_zim_files force_refresh :
  untouched proj (ZimManager.discover_zim_files force_refresh).
Proof.
  unfold ZimManager.discover_zim_files. untouched_tac.
  all: try apply untouched__get_zim_file_info. all: untouched_tac.
Qed.

Lemma untouched__get_searcher zim_file :
  untouched proj (SearchEngine._get_searcher zim_file).
Proof.
  unfold SearchEngine._get_searcher. untouched_tac.
  all: try apply untouched_get_archive. all: untouched_tac.
Qed.

Lemma untouched_collect_results zim_file archive result_set :
  untouched proj (SearchEngine.collect_results zim_file archive result_set).
Proof. unfold SearchEngine.collect_results. untouched_tac. Qed.

Lemma untouched_search_single_zim zim_file query max_results start_offset :
  untouched proj
    (SearchEngine.search_single_zim zim_file query max_results start_offset).
Proof.
  unfold SearchEngine.search_single_zim. untouched_tac.
  all: try apply untouched__get_searcher. all: untouched_tac.
  all: try apply untouched_get_archive. all: untouched_tac.
  all: try apply untouched_collect_results.
Qed.

Lemma untouched_search_each zim_files clean_query max_results :
  untouched proj (SearchEngine.search_each zim_files clean_query max_results).
Proof.
  unfold SearchEngine.search_each. untouched_tac.
  all: try apply untouched_search_single_zim. all: untouched_tac.
Qed.

Lemma untouched_browse_loop attempts zim_file archive pp tp limit results count :
  untouched proj
    (SearchEngine.browse_loop attempts zim_file archive pp tp limit results count).
Proof.
  revert results count. induction attempts as [|n IH]; intros results count;
    simpl; untouched_tac.
  apply IH.
Qed.

Lemma untouched_browse_entries_by_pattern zim_file pp tp limit :
  untouched proj (SearchEngine.browse_entries_by_pattern zim_file pp tp limit).
Proof.
  unfold SearchEngine.browse_entries_by_pattern. untouched_tac.
  all: try apply untouched_get_archive. all: try apply untouched_browse_loop.
  all: untouched_tac.
Qed.
End Untouched.

(** No method but [search_multiple_zim] and [clear_caches] touches the
    result cache. *)
Lemma keeps_bind {A B} (m : Py State A) (k : A -> Py State B) :
  keeps m -> (forall a, keeps (k a)) -> keeps (m ≫= k).
Proof. apply untouched_bind. Qed.

Lemma keeps_discover_zim_files force_refresh :
  keeps (ZimManager.discover_zim_files force_refresh).
Proof. apply untouched_discover_zim_files; by intros ? []. Qed.

Lemma keeps_search_single_zim zim_file query max_results start_offset :
  keeps (SearchEngine.search_single_zim zim_file query max_results start_offset).
Proof. apply untouched_search_single_zim; by intros ? []. Qed.

Lemma keeps_search_each zim_files clean_query max_results :
  keeps (SearchEngine.search_each zim_files clean_query max_results).
Proof. apply untouched_search_each; by intros ? []. Qed.

Lemma keeps_browse_entries_by_pattern zim_file pp tp limit :
  keeps (SearchEngine.browse_entries_by_pattern zim_file pp tp limit).
Proof. apply untouched_browse_entries_by_pattern; by intros ? []. Qed.

Lemma silent_try_except {S A} (m : Py S A) classes (a : A) :
  silent classes (try_except m classes (fun _ => ret a)).
Proof.
  intros s e. unfold try_except.
  destruct (m s) as [[e'|a'] s']; simpl; [|done].
  destruct (classes e') eqn:Hc; simpl; [done|]. by intros [= <-].
Qed.

Lemma try_except_silent {S A} (m : Py S A) classes h s :
  (forall e, (m s).1 = inl e -> classes e = false) ->
  try_except m classes h s = m s.
Proof.
  intros Hs. unfold try_except. destruct (m s) as [[e|a] s']; [|done].
  by rewrite (Hs e eq_refl).
Qed.
End Frames.

(** ** Searching *)

Section Search.
Context `{Env}.

Lemma state_eta s : set_search_cache (search_cache s) s = s.
Proof. by destruct s. Qed.

(** C6 (as the code has it). A query that is empty once trimmed, or
    longer than 1000 characters once trimmed, makes
    [validate_search_query] raise a [ValueError] with the message of
    its case. [search_single_zim] catches it: the caller gets an empty
    list, and no cache, archive or library call is made. *)
Theorem search_single_zim_rejected_query (zim_file query : str)
    (max_results start_offset : Z) (s : State) :
  strip query = [] \/ 1000 < len (strip query) ->
  (strip query = [] ->
     validate_search_query query
       = inl (ValueError (lit "Search query cannot be empty")))
  /\ (strip query <> [] ->
        validate_search_query query
          = inl (ValueError (lit "Search query too long (max 1000 characters)")))
  /\ SearchEngine.search_single_zim zim_file query max_results start_offset s
       = (inr [], s).
Proof.
  intros Hbad.
  destruct (validate_search_query_cases query)
    as [(He & Hr)|[(Hne & Hlong & Hr)|(Hne & Hlen & Hr)]].
  - split_and!; [done|done|].
    unfold SearchEngine.search_single_zim, try_except, mbind, Py_bind, bind.
    by rewrite Hr.
  - split_and!; [done|done|].
    unfold SearchEngine.search_single_zim, try_except, mbind, Py_bind, bind.
    by rewrite Hr.
  - destruct Hbad; [done|lia].
Qed.

Lemma search_single_zim_silent zim_file query max_results start_offset :
  silent is_OSError_ValueError_RuntimeError
    (SearchEngine.search_single_zim zim_file query max_results start_offset).
Proof. apply silent_try_except. Qed.

(** Searching with the trimmed query is searching with the query. *)
Lemma search_single_zim_clean zim_file query clean_query max_results start_offset s :
  validate_search_query query = inr clean_query ->
  SearchEngine.search_single_zim zim_file clean_query max_results start_offset s
    = SearchEngine.search_single_zim zim_file query max_results start_offset s.
Proof.
  intros Hv. destruct (validate_search_query_clean _ _ Hv) as [_ Hv'].
  unfold SearchEngine.search_single_zim, try_except, mbind, Py_bind, bind.
  by rewrite Hv, Hv'.
Qed.

(** The loop that extends [all_results] is the concatenation of the
    per-archive results. *)
Lemma for_acc_gather (g : str -> Py State (list SearchEngineResult))
    zim_files acc s :
  for_acc zim_files acc
    (fun all_results zim_file =>
       file_results ← g zim_file ; ret (all_results ++ file_results)) s
  = (hits ← Reference.gather g zim_files ; ret (acc ++ hits)) s.
Proof.
  revert acc s. induction zim_files as [|f fs IH]; intros acc s; simpl.
  - unfold mbind, Py_bind, bind, ret. by rewrite app_nil_r.
  - unfold mbind, Py_bind, bind in *. destruct (g f s) as [[e|hits] s1]; [done|].
    unfold ret at 1. rewrite IH.
    destruct (Reference.gather g fs s1) as [[e|more] s2]; [done|].
    unfold ret. by rewrite app_assoc.
Qed.

Lemma gather_ext (g1 g2 : str -> Py State (list SearchEngineResult)) fs s :
  (forall f s, g1 f s = g2 f s) ->
  Reference.gather g1 fs s = Reference.gather g2 fs s.
Proof.
  intros Hg. revert s. induction fs as [|f fs IH]; intros s; simpl; [done|].
  unfold mbind, Py_bind, bind. rewrite Hg.
  destruct (g2 f s) as [[e|hits] s1]; [done|]. by rewrite IH.
Qed.

Lemma gather_keeps g fs :
  (forall f, keeps (g f)) -> keeps (Reference.gather g fs).
Proof.
  intros Hg. induction fs as [|f fs IH]; simpl; [done|].
  apply keeps_bind; [done|]. intros hits.
  apply keeps_bind; [done|]. intros more. done.
Qed.

Lemma gather_silent classes g fs :
  (forall f, silent classes (g f)) -> silent classes (Reference.gather g fs).
Proof.
  intros Hg. induction fs as [|f fs IH]; simpl; [done|].
  intros s e. unfold mbind, Py_bind, bind.
  destruct (g f s) as [[e1|hits] s1] eqn:Hgf.
  - simpl. intros [= <-]. apply (Hg f s). by rewrite Hgf.
  - destruct (Reference.gather g fs s1) as [[e2|more] s2] eqn:Hrest; [|done].
    simpl. intros [= <-]. apply (IH s1). by rewrite Hrest.
Qed.

(** The elements of a list at the positions from [lo] to [hi], for a
    [lo] that is not negative, are what is left of the first [hi]
    elements without the first [lo]. *)
Lemma interval_from_inside {A} (l : list A) (first lo hi : Z) :
  lo <= first -> Reference.interval_from first l lo hi = take (Z.to_nat (hi - first)) l.
Proof.
  revert first. induction l as [|x l IH]; intros first Hlo; simpl.
  { by rewrite take_nil. }
  rewrite IH by lia.
  destruct (Z.leb_spec lo first) as [_|?]; [|lia].
  destruct (Z.ltb_spec first hi) as [Hlt|Hge]; simpl.
  - replace (Z.to_nat (hi - first)) with (S (Z.to_nat (hi - (first + 1)))) by lia.
    done.
  - replace (Z.to_nat (hi - first)) with O by lia.
    replace (Z.to_nat (hi - (first + 1))) with O by lia. by rewrite take_0.
Qed.

Lemma interval_from_before {A} (l : list A) (first lo hi : Z) :
  first <= lo ->
  Reference.interval_from first l lo hi
    = take (Z.to_nat (hi - lo)) (drop (Z.to_nat (lo - first)) l).
Proof.
  revert first. induction l as [|x l IH]; intros first Hlo.
  { by rewrite drop_nil, take_nil. }
  destruct (Z.eq_dec first lo) as [->|Hne].
  - rewrite interval_from_inside by lia.
    by replace (Z.to_nat (lo - lo)) with O by lia.
  - simpl. destruct (Z.leb_spec lo first) as [?|_]; [lia|]. simpl.
    rewrite IH by lia.
    by replace (Z.to_nat (lo - first)) with (S (Z.to_nat (lo - (first + 1))))
      by lia.
Qed.

(** For bounds that are not negative, the slice of the code is the
    interval of the specification. *)
Lemma slice_interval {A} (l : list A) (lo hi : Z) :
  0 <= lo <= hi -> slice l lo hi = Reference.interval l lo hi.
Proof.
  intros Hb. rewrite slice_nonneg by done. unfold Reference.interval.
  rewrite interval_from_before by lia. by rewrite Z.sub_0_r.
Qed.

(** What [search_multiple_zim] does on a miss: it gathers the hits of
    the archives, puts the slice of the sorted hits in the cache and
    returns it; a returned page is in the cache. *)
Lemma search_multiple_zim_miss_outcome (zim_files : list str)
    (query clean_query : str)
    (max_results start_offset : Z) (s : State) :
  validate_search_query query = inr clean_query ->
  LRU.cache (search_cache s)
    !! SearchEngine.search_cache_key zim_files clean_query max_results
         start_offset = None ->
  SearchEngine.search_multiple_zim zim_files query max_results start_offset s
    = match Reference.gather
              (fun a => SearchEngine.search_single_zim a query max_results 0)
              zim_files s with
      | (inl e, s1) => (inl e, s1)
      | (inr hits, s1) =>
          let page :=
            slice (sort_by_key (fun r => len (result_title r)) hits)
              start_offset (start_offset + max_results) in
          match LRU.put (SearchEngine.search_cache_key zim_files clean_query
                           max_results start_offset) page (search_cache s1) with
          | (inl e, c) => (inl e, set_search_cache c s1)
          | (inr _, c) => (inr page, set_search_cache c s1)
          end
      end
  /\ forall page s',
       SearchEngine.search_multiple_zim zim_files query max_results
         start_offset s = (inr page, s') ->
       LRU.cache (search_cache s')
         !! SearchEngine.search_cache_key zim_files clean_query max_results
              start_offset = Some page.
Proof.
  intros Hv Hmiss.
  set (key := SearchEngine.search_cache_key zim_files clean_query max_results
                start_offset) in *.
  set (g := fun a => SearchEngine.search_single_zim a query max_results 0).
  (* the body of the [try], on this path *)
  assert (forall hits s1,
            Reference.gather g zim_files s = (inr hits, s1) ->
            LRU.cache (search_cache s1) !! key = None) as Hstill.
  { intros hits s1 Hg.
    pose proof (gather_keeps g zim_files
                  (fun f => keeps_search_single_zim f query max_results 0) s) as Hk.
    rewrite Hg in Hk. simpl in Hk. by rewrite Hk. }
  assert (SearchEngine.search_multiple_zim zim_files query max_results start_offset s
          = match Reference.gather g zim_files s with
            | (inl e, s1) => (inl e, s1)
            | (inr hits, s1) =>
                let page :=
                  slice (sort_by_key (fun r => len (result_title r)) hits)
                    start_offset (start_offset + max_results) in
                match LRU.put key page (search_cache s1) with
                | (inl e, c) => (inl e, set_search_cache c s1)
                | (inr _, c) => (inr page, set_search_cache c s1)
                end
            end)
    as Heq.
  { unfold SearchEngine.search_multiple_zim.
    rewrite try_except_silent.
    - unfold mbind, Py_bind, bind. rewrite Hv. simpl. fold key.
      unfold zoom at 1. rewrite (LRU_facts.get_miss key _ Hmiss), state_eta.
      assert ((if enable_parallel_search config && (len zim_files >? 1)
               then SearchEngine.search_each zim_files clean_query max_results
               else SearchEngine.search_each zim_files clean_query max_results)
              = SearchEngine.search_each zim_files clean_query max_results) as ->.
      { by destruct (_ && _). }
      unfold SearchEngine.search_each.
      rewrite (for_acc_gather
                 (fun f => SearchEngine.search_single_zim f clean_query max_results 0)).
      unfold mbind, Py_bind, bind.
      rewrite (gather_ext _ g); [|intros f s0; by apply search_single_zim_clean].
      destruct (Reference.gather g zim_files s) as [[e|hits] s1]; [done|].
      unfold ret at 1. simpl. unfold zoom.
      by destruct (LRU.put key _ (search_cache s1)) as [[e|[]] c].
    - (* nothing on this path raises what the handler catches *)
      intros e. unfold mbind, Py_bind, bind. rewrite Hv. simpl. fold key.
      unfold zoom at 1. rewrite (LRU_facts.get_miss key _ Hmiss), state_eta.
      assert ((if enable_parallel_search config && (len zim_files >? 1)
               then SearchEngine.search_each zim_files clean_query max_results
               else SearchEngine.search_each zim_files clean_query max_results)
              = SearchEngine.search_each zim_files clean_query max_results) as ->.
      { by destruct (_ && _). }
      unfold SearchEngine.search_each.
      rewrite (for_acc_gather
                 (fun f => SearchEngine.search_single_zim f clean_query max_results 0)).
      unfold mbind, Py_bind, bind.
      rewrite (gather_ext _ g); [|intros f s0; by apply search_single_zim_clean].
      destruct (Reference.gather g zim_files s) as [[e'|hits] s1] eqn:Hg.
      + simpl. intros [= <-].
        apply (gather_silent _ g zim_files
                 (fun f => search_single_zim_silent f query max_results 0) s).
        by rewrite Hg.
      + unfold ret at 1. simpl. unfold zoom.
        destruct (LRU_facts.put_new_outcome (search_cache s1) key
                    (slice (sort_by_key (fun r => len (result_title r)) hits)
                       start_offset (start_offset + max_results))
                    (Hstill _ _ eq_refl))
          as [(c & -> & _)|[(c & ->)|(c & ->)]]; simpl; [done| |];
          by intros [= <-]. }
  split; [done|].
  intros page s'. rewrite Heq.
  destruct (Reference.gather g zim_files s) as [[e|hits] s1] eqn:Hg; [done|].
  cbv zeta.
  destruct (LRU_facts.put_new_outcome (search_cache s1) key
              (slice (sort_by_key (fun r => len (result_title r)) hits)
                 start_offset (start_offset + max_results))
              (Hstill _ _ eq_refl))
    as [(c & -> & Hc)|[(c & ->)|(c & ->)]]; [|done|done].
  intros [= <- <-]. by destruct s1.
Qed.

Lemma search_multiple_zim_invalid zim_files query max_results start_offset e s :
  validate_search_query query = inl e ->
  SearchEngine.search_multiple_zim zim_files query max_results start_offset s
    = (inr [], s).
Proof.
  intros Hv.
  destruct (validate_search_query_cases query)
    as [(_ & Hr)|[(_ & _ & Hr)|(_ & _ & Hr)]]; rewrite Hr in Hv;
    try discriminate;
    unfold SearchEngine.search_multiple_zim, try_except, mbind, Py_bind, bind;
    by rewrite Hr.
Qed.

(** A call whose key is in a consistent cache is answered from it. *)
Lemma search_multiple_zim_hit zim_files query clean_query max_results
    start_offset rs s :
  validate_search_query query = inr clean_query ->
  LRU.wf (search_cache s) ->
  LRU.cache (search_cache s)
    !! SearchEngine.search_cache_key zim_files clean_query max_results
         start_offset = Some rs ->
  exists c,
    SearchEngine.search_multiple_zim zim_files query max_results start_offset s
      = (inr rs, set_search_cache c s)
    /\ LRU.wf c /\ LRU.cache c = LRU.cache (search_cache s).
Proof.
  intros Hv Hwf Hhit.
  destruct (LRU_facts.get_wf (search_cache s)
              (SearchEngine.search_cache_key zim_files clean_query max_results
                 start_offset) Hwf) as (c & Hget & Hwf' & Hc & _).
  exists c. split; [|done].
  unfold SearchEngine.search_multiple_zim, try_except, mbind, Py_bind, bind.
  rewrite Hv. simpl. unfold zoom. rewrite Hget, Hhit. done.
Qed.

(** When a call of [search_multiple_zim] returns, the same call made
    right after it returns the same list from the cache. *)
Lemma search_multiple_zim_again (zim_files : list str) (query : str)
    (max_results start_offset : Z) (s s1 : State)
    (results : list SearchEngineResult) :
  LRU.wf (search_cache s) ->
  SearchEngine.search_multiple_zim zim_files query max_results start_offset s
    = (inr results, s1) ->
  exists s2,
    SearchEngine.search_multiple_zim zim_files query max_results start_offset s1
      = (inr results, s2)
    /\ calls s2 = calls s1
    /\ archive_cache s2 = archive_cache s1
    /\ searcher_cache s2 = searcher_cache s1
    /\ LRU.cache (search_cache s2) = LRU.cache (search_cache s1).
Proof.
  intros Hwf Hfirst.
  destruct (validate_search_query query) as [e|clean_query] eqn:Hv.
  { rewrite (search_multiple_zim_invalid _ _ _ _ e) in Hfirst by done.
    injection Hfirst as <- <-. exists s.
    by rewrite (search_multiple_zim_invalid _ _ _ _ e). }
  set (key := SearchEngine.search_cache_key zim_files clean_query max_results
                start_offset).
  (* after the first call the key is in a consistent cache *)
  assert (LRU.wf (search_cache s1) /\
          LRU.cache (search_cache s1) !! key = Some results) as [Hwf1 Hin1].
  { destruct (LRU.cache (search_cache s) !! key) as [rs|] eqn:Hlook.
    - destruct (search_multiple_zim_hit zim_files query clean_query max_results
                  start_offset rs s Hv Hwf Hlook) as (c & Hcall & Hwfc & Hc).
      rewrite Hcall in Hfirst. injection Hfirst as <- <-.
      destruct s. simpl in *. split; [done|]. by rewrite Hc.
    - revert Hfirst. unfold SearchEngine.search_multiple_zim.
      unfold try_except, mbind, Py_bind, bind. rewrite Hv. simpl. fold key.
      unfold zoom at 1. rewrite (LRU_facts.get_miss key _ Hlook), state_eta.
      assert ((if enable_parallel_search config && (len zim_files >? 1)
               then SearchEngine.search_each zim_files clean_query max_results
               else SearchEngine.search_each zim_files clean_query max_results)
              = SearchEngine.search_each zim_files clean_query max_results) as ->.
      { by destruct (_ && _). }
      pose proof (keeps_search_each zim_files clean_query max_results s) as Hk.
      destruct (SearchEngine.search_each zim_files clean_query max_results s)
        as [[e|all_results] sa] eqn:Hloop; simpl in Hk.
      { (* the loop raised: the call did not return *)
        assert (is_OSError_ValueError_RuntimeError e = false) as ->; [|done].
        unfold SearchEngine.search_each in Hloop.
        rewrite for_acc_gather in Hloop. unfold mbind, Py_bind, bind in Hloop.
        destruct (Reference.gather _ zim_files s) as [[e'|hits] s'] eqn:Hg;
          [|done].
        injection Hloop as <- <-.
        apply (gather_silent _ _ zim_files
                 (fun f => search_single_zim_silent f clean_query max_results 0) s).
        by rewrite Hg. }
      unfold zoom.
      assert (LRU.wf (search_cache sa)) as Hwfa by (by rewrite Hk).
      destruct (LRU_facts.put_wf (search_cache sa) key
                  (slice (sort_by_key (fun r => len (result_title r)) all_results)
                     start_offset (start_offset + max_results)) Hwfa)
        as (c & -> & Hwfc & Hc & _).
      intros [= <- <-]. by destruct sa. }
  destruct (search_multiple_zim_hit zim_files query clean_query max_results
              start_offset results s1 Hv Hwf1 Hin1) as (c & Hcall & _ & Hc).
  exists (set_search_cache c s1). split; [done|]. by destruct s1.
Qed.

End Search.

(** ** Sound states: the search methods return *)

Section Total.
Context `{Env}.
Hypothesis library_ok : library_raises_declared.

Lemma validate_zim_file_path_raises name root e :
  validate_zim_file_path resolve name root = inl e -> exists msg, e = ValueError msg.
Proof.
  unfold validate_zim_file_path, relative_to.
  destruct (match length (parts (resolve root)) with O => _ | S _ => _ end);
    intros [= <-]; by eexists.
Qed.

Lemma state_ok_set_calls l s : state_ok s -> state_ok (set_calls l s).
Proof. intros [? ? ? ?]. by destruct s. Qed.

Lemma opens_functional f a b : opens f a -> opens f b -> a = b.
Proof. intros (p & Hp & _ & Ha) (q & Hq & _ & Hb). congruence. Qed.

Lemma opens_genuine f a : opens f a -> genuine a.
Proof. intros (p & _ & _ & Ha). by exists (path_str p). Qed.

(** [get_archive] returns, and returns the archive of the name when
    there is one. *)
Lemma get_archive_ok filename s :
  state_ok s ->
  exists oa s',
    ZimManager.get_archive filename s = (inr oa, s') /\ state_ok s'
    /\ searcher_cache s' = searcher_cache s
    /\ (forall a, oa = Some a -> opens filename a)
    /\ (forall a, opens filename a -> oa = Some a).
Proof.
  intros Hs. unfold ZimManager.get_archive, try_except, mbind, Py_bind, bind.
  destruct (validate_zim_file_path resolve filename (zim_files_directory config))
    as [e|p] eqn:Hp; simpl.
  { destruct (validate_zim_file_path_raises _ _ _ Hp) as [msg ->]. simpl.
    exists None, s. split_and!; [done|done|done|done|].
    intros a (q & Hq & _). congruence. }
  destruct (path_exists p) eqn:Hex; simpl.
  2:{ exists None, s. split_and!; [done|done|done|done|].
      intros a (q & Hq & Hex' & _). congruence. }
  unfold zoom at 1.
  destruct (LRU_facts.get_wf (archive_cache s) (path_str p) (ok_archive_cache s Hs))
    as (c & -> & Hwf & Hc & _).
  assert (state_ok (set_archive_cache c s)) as Hs1.
  { destruct Hs as [? ? Ha ?]. destruct s. simpl in *.
    split; simpl; [done|done| |done]. intros k a. rewrite Hc. apply Ha. }
  destruct (LRU.cache (archive_cache s) !! path_str p) as [a|] eqn:Hlook.
  { exists (Some a), (set_archive_cache c s).
    pose proof (ok_archives s Hs _ _ Hlook) as Hopen.
    split_and!; [done|done|reflexivity| |].
    - intros a' [= <-]. by exists p.
    - intros a' (q & Hq & _ & Ha'). congruence. }
  unfold library, mbind, Py_bind, bind, modify.
  destruct (open_archive (path_str p)) as [e|a] eqn:Hopen; simpl.
  { rewrite (open_raises library_ok _ _ Hopen).
    eexists None, _. split_and!; [done|by apply state_ok_set_calls|reflexivity|done|].
    intros a' (q & Hq & _ & Ha'). congruence. }
  unfold zoom. simpl.
  destruct (LRU_facts.put_wf c (path_str p) a Hwf) as (c' & Hput & Hwf' & _).
  pose proof (LRU_facts.put_cache_inv c (path_str p) a) as Hinv.
  rewrite Hput in *. simpl in *.
  eexists (Some a), _. split; [reflexivity|].
  split; [|split; [by destruct s|split]].
  - destruct Hs as [? ? Ha ?]. destruct s. simpl in *.
    split; simpl; [done|done| |done]. intros k a' Hk.
    destruct (Hinv k a' Hk) as [[-> ->]|Hold]; [done|].
    apply Ha. by rewrite <- Hc.
  - intros a' [= <-]. by exists p.
  - intros a' (q & Hq & _ & Ha'). congruence.
Qed.

Lemma _get_searcher_ok zim_file s :
  state_ok s ->
  exists osr s',
    SearchEngine._get_searcher zim_file s = (inr osr, s') /\ state_ok s'
    /\ (forall sr, osr = Some sr -> opens zim_file (searcher_archive sr)).
Proof.
  intros Hs. unfold SearchEngine._get_searcher, try_except, mbind, Py_bind, bind.
  simpl. destruct (searcher_cache s !! zim_file) as [sr|] eqn:Hlook; simpl.
  { exists (Some sr), s. split_and!; [done|done|].
    intros sr' [= <-]. by apply (ok_searchers s Hs zim_file). }
  destruct (get_archive_ok zim_file s Hs) as (oa & s1 & -> & Hs1 & Hsc & Hopens & _).
  destruct oa as [a|]; simpl.
  2:{ exists None, s1. by split_and!. }
  destruct (has_fulltext_index a); simpl.
  2:{ exists None, s1. by split_and!. }
  eexists (Some (mkSearcher a)), _. split; [reflexivity|]. split.
  - destruct Hs1 as [? ? ? Hsr]. destruct s1. simpl in *.
    split; simpl; [done|done|done|].
    intros f sr. rewrite lookup_insert. case_decide as Hf.
    + intros [= <-]. subst f. by apply Hopens.
    + apply Hsr.
  - intros sr [= <-]. by apply Hopens.
Qed.

Lemma collect_results_ok zim_file a result_set s :
  state_ok s -> genuine a ->
  exists res s',
    SearchEngine.collect_results zim_file (Some a) result_set s = (res, s')
    /\ state_ok s'
    /\ forall e, res = inl e -> is_OSError_ValueError_RuntimeError e = true.
Proof.
  intros Hs Ha. unfold SearchEngine.collect_results.
  generalize (@nil SearchEngineResult) at 1. revert s Hs.
  induction result_set as [|x xs IH]; intros s Hs acc; simpl.
  { eexists _, _. split; [reflexivity|]. by split. }
  unfold mbind, Py_bind, bind at 1. unfold try_except at 1.
  unfold library, mbind, Py_bind, bind, modify.
  set (s1 := set_calls _ s).
  assert (state_ok s1) as Hs1 by (by apply state_ok_set_calls).
  destruct (get_entry_by_path a x) as [e|entry] eqn:Hentry; simpl.
  - destruct (is_KeyError_ValueError_RuntimeError e) eqn:Hcaught; simpl.
    + apply IH. done.
    + eexists _, _. split; [reflexivity|]. split; [done|].
      intros e' [= <-].
      destruct (get_entry_raises library_ok a x e Ha Hentry); congruence.
  - apply IH. done.
Qed.

Lemma search_single_zim_ok zim_file query max_results start_offset s :
  state_ok s ->
  exists rs s',
    SearchEngine.search_single_zim zim_file query max_results start_offset s
      = (inr rs, s') /\ state_ok s'.
Proof.
  intros Hs. unfold SearchEngine.search_single_zim, try_except.
  unfold mbind, Py_bind, bind at 1.
  destruct (validate_search_query_cases query)
    as [(_ & Hv)|[(_ & _ & Hv)|(_ & _ & Hv)]]; rewrite Hv; simpl;
    [by eexists _, _|by eexists _, _|].
  unfold mbind, Py_bind, bind at 1.
  destruct (_get_searcher_ok zim_file s Hs) as (osr & s1 & -> & Hs1 & Hsr).
  destruct osr as [sr|]; [|by eexists _, _].
  pose proof (opens_genuine _ _ (Hsr sr eq_refl)) as Hgen.
  unfold mbind, Py_bind, bind at 1. unfold library at 1.
  unfold mbind, Py_bind, bind at 1. unfold modify at 1.
  set (s2 := set_calls _ s1).
  assert (state_ok s2) as Hs2 by (by apply state_ok_set_calls).
  destruct (getResults (searcher_archive sr) (strip query) start_offset max_results)
    as [e|result_set] eqn:Hres; simpl.
  { rewrite (getResults_raises library_ok _ _ _ _ _ Hgen Hres).
    by eexists _, _. }
  unfold mbind, Py_bind, bind at 1.
  destruct (get_archive_ok zim_file s2 Hs2) as (oa & s3 & -> & Hs3 & _ & _ & Hfound).
  rewrite (Hfound _ (Hsr sr eq_refl)).
  destruct (collect_results_ok zim_file (searcher_archive sr) result_set s3 Hs3 Hgen)
    as (res & s4 & -> & Hs4 & Hexn).
  destruct res as [e|rs].
  - rewrite (Hexn e eq_refl). by eexists _, _.
  - by eexists _, _.
Qed.

Lemma search_each_ok zim_files clean_query max_results s :
  state_ok s ->
  exists rs s',
    SearchEngine.search_each zim_files clean_query max_results s = (inr rs, s')
    /\ state_ok s'.
Proof.
  intros Hs. unfold SearchEngine.search_each.
  generalize (@nil SearchEngineResult) at 1. revert s Hs.
  induction zim_files as [|f fs IH]; intros s Hs acc; simpl.
  { by eexists _, _. }
  unfold mbind, Py_bind, bind at 1. unfold mbind, Py_bind, bind at 1.
  destruct (search_single_zim_ok f clean_query max_results 0 s Hs)
    as (rs & s1 & -> & Hs1).
  unfold ret at 1. by apply IH.
Qed.

(** In a sound state, with a library that raises what is expected of
    it, [search_multiple_zim] returns a list and leaves a sound state. *)
Lemma search_multiple_zim_ok zim_files query max_results start_offset s :
  state_ok s ->
  exists rs s',
    SearchEngine.search_multiple_zim zim_files query max_results start_offset s
      = (inr rs, s') /\ state_ok s'.
Proof.
  intros Hs.
  destruct (validate_search_query query) as [e|clean_query] eqn:Hv.
  { rewrite (search_multiple_zim_invalid _ _ _ _ e) by done. by eexists _, _. }
  set (key := SearchEngine.search_cache_key zim_files clean_query max_results
                start_offset).
  destruct (LRU.cache (search_cache s) !! key) as [rs|] eqn:Hlook.
  { destruct (search_multiple_zim_hit zim_files query clean_query max_results
                start_offset rs s Hv (ok_search_cache s Hs) Hlook)
      as (c & -> & Hwf & _).
    eexists _, _. split; [reflexivity|].
    destruct Hs as [? ? ? ?]. by destruct s. }
  unfold SearchEngine.search_multiple_zim, try_except, mbind, Py_bind, bind.
  rewrite Hv. simpl. fold key.
  unfold zoom at 1. rewrite (LRU_facts.get_miss key _ Hlook), state_eta.
  assert ((if enable_parallel_search config && (len zim_files >? 1)
           then SearchEngine.search_each zim_files clean_query max_results
           else SearchEngine.search_each zim_files clean_query max_results)
          = SearchEngine.search_each zim_files clean_query max_results) as ->.
  { by destruct (_ && _). }
  destruct (search_each_ok zim_files clean_query max_results s Hs)
    as (all_results & s1 & -> & Hs1).
  unfold zoom.
  destruct (LRU_facts.put_wf (search_cache s1) key
              (slice (sort_by_key (fun r => len (result_title r)) all_results)
                 start_offset (start_offset + max_results))
              (ok_search_cache s1 Hs1)) as (c & -> & Hwf & _).
  eexists _, _. split; [reflexivity|].
  destruct Hs1 as [? ? ? ?]. by destruct s1.
Qed.

Lemma state_ok_caches s s' : caches s' = caches s -> state_ok s -> state_ok s'.
Proof.
  destruct s, s'. unfold caches. simpl. intros [= -> -> ->] [? ? ? ?].
  by split.
Qed.

Lemma state_ok_untouched {A} (m : Py State A) s :
  untouched caches m -> state_ok s -> state_ok (m s).2.
Proof. intros Hm. apply state_ok_caches, Hm. Qed.

Lemma state_ok_serve req s : state_ok s -> state_ok (serve req s).2.
Proof.
  intros Hs. destruct req as [f q m o|fs q m o|q m o|f pp tp l|]; simpl.
  - destruct (search_single_zim_ok f q m o s Hs) as (rs & s' & -> & Hs'). done.
  - destruct (search_multiple_zim_ok fs q m o s Hs) as (rs & s' & -> & Hs'). done.
  - unfold SearchEngine.search_all_zim_files, try_except, mbind, Py_bind, bind.
    pose proof (state_ok_untouched (ZimManager.discover_zim_files false) s
                  ltac:(apply untouched_discover_zim_files; by intros ? [])
                  Hs) as Hs1.
    destruct (ZimManager.discover_zim_files false s) as [[e|infos] s1]; simpl in Hs1.
    { by destruct (is_OSError_ValueError_RuntimeError e). }
    destruct (map filename _) as [|f fs]; [done|].
    destruct (search_multiple_zim_ok (f :: fs) q m o s1 Hs1)
      as (rs & s' & -> & Hs'). done.
  - unfold SearchEngine.browse_entries_by_pattern, try_except, mbind, Py_bind, bind.
    destruct (get_archive_ok f s Hs) as (oa & s1 & -> & Hs1 & _).
    destruct oa as [a|]; [|done].
    pose proof (state_ok_untouched
                  (SearchEngine.browse_loop (Z.to_nat (l * 5)) f a pp tp l [] 0) s1
                  ltac:(apply untouched_browse_loop; by intros ? [])
                  Hs1) as Hs2.
    destruct (SearchEngine.browse_loop _ _ _ _ _ _ _ _ s1) as [[e|rs] s2];
      simpl in Hs2; [|done].
    by destruct (is_OSError_ValueError_RuntimeError e).
  - destruct Hs as [Hsc ? ? ?]. destruct s. simpl in *.
    split; simpl; [|done|done|].
    + apply LRU_facts.wf_fresh. by destruct Hsc.
    + intros f sr. by rewrite lookup_empty.
Qed.

Lemma state_ok_initial :
  1 <= archive_cache_size config -> 1 <= search_cache_size config ->
  state_ok initial_state.
Proof.
  intros Ha Hs. split; simpl.
  - by apply LRU_facts.wf_fresh.
  - by apply LRU_facts.wf_fresh.
  - intros k a. by rewrite lookup_empty.
  - intros f sr. by rewrite lookup_empty.
Qed.

(** With caches of capacity at least 1, the state is sound after any
    sequence of requests. *)
Lemma state_ok_after reqs :
  1 <= archive_cache_size config -> 1 <= search_cache_size config ->
  state_ok (after reqs initial_state).
Proof.
  intros Ha Hs. pose proof (state_ok_initial Ha Hs) as Hinit.
  revert Hinit. generalize initial_state.
  induction reqs as [|req reqs IH]; intros s Hok; simpl; [done|].
  apply IH. by apply state_ok_serve.
Qed.
End Total.

(** C3 (as the code has it). On a miss, for a valid query and an
    offset and a limit that are not negative, the outcome of
    [search_multiple_zim] is the outcome of the reference computation:
    the hits of the archives are gathered, a rearrangement of them in
    ascending order of title length is sliced from [start_offset] to
    [start_offset + max_results], and the slice is stored under the key
    and returned; an exception comes with the same state. When the call
    returns, the page is in the cache under the key of the call. In a
    sound state, with a library that raises what is expected of it, it
    does return. *)
Theorem search_multiple_zim_miss `{Env} (zim_files : list str)
    (query clean_query : str) (max_results start_offset : Z) (s : State) :
  validate_search_query query = inr clean_query ->
  LRU.cache (search_cache s)
    !! SearchEngine.search_cache_key zim_files clean_query max_results
         start_offset = None ->
  0 <= start_offset -> 0 <= max_results ->
  Reference.searchMany_on_miss zim_files query max_results start_offset s
    (SearchEngine.search_multiple_zim zim_files query max_results start_offset s)
  /\ (forall page s',
        SearchEngine.search_multiple_zim zim_files query max_results
          start_offset s = (inr page, s') ->
        LRU.cache (search_cache s')
          !! SearchEngine.search_cache_key zim_files clean_query max_results
               start_offset = Some page)
  /\ (library_raises_declared -> state_ok s ->
      exists page s',
        SearchEngine.search_multiple_zim zim_files query max_results
          start_offset s = (inr page, s')).
Proof.
  intros Hv Hmiss Hoff Hmax.
  destruct (search_multiple_zim_miss_outcome zim_files query clean_query
              max_results start_offset s Hv Hmiss) as [Heq Hstored].
  destruct (validate_search_query_clean _ _ Hv) as [Hclean _].
  split_and!; [|done|].
  - rewrite Heq. unfold Reference.searchMany_on_miss.
    destruct (Reference.gather _ zim_files s) as [[e|hits] s1]; [done|].
    exists (sort_by_key (fun r => len (result_title r)) hits). split.
    + split; [apply sort_by_key_perm|].
      apply (sort_by_key_sorted (fun r => len (result_title r))).
    + cbv zeta. rewrite <- slice_interval by lia. rewrite <- Hclean.
      unfold mbind, Py_bind, bind, zoom.
      by destruct (LRU.put _ _ (search_cache s1)) as [[e|[]] c].
  - intros Hlib Hs.
    destruct (search_multiple_zim_ok Hlib zim_files query max_results
                start_offset s Hs) as (page & s' & Hcall & _).
    by exists page, s'.
Qed.

(** C4. When a call of [search_multiple_zim] returns, the same call
    made right after it returns the same list and makes no call to the
    archive library: the list of library calls, the archive cache and
    the searchers are as the first call left them. In a sound state,
    with a library that raises what is expected of it, the first call
    does return. *)
Theorem search_multiple_zim_repeat `{Env} (zim_files : list str) (query : str)
    (max_results start_offset : Z) (s : State) :
  LRU.wf (search_cache s) ->
  (forall results s1,
     SearchEngine.search_multiple_zim zim_files query max_results start_offset s
       = (inr results, s1) ->
     exists s2,
       SearchEngine.search_multiple_zim zim_files query max_results
         start_offset s1 = (inr results, s2)
       /\ calls s2 = calls s1
       /\ archive_cache s2 = archive_cache s1
       /\ searcher_cache s2 = searcher_cache s1
       /\ LRU.cache (search_cache s2) = LRU.cache (search_cache s1))
  /\ (library_raises_declared -> state_ok s ->
      exists results s1,
        SearchEngine.search_multiple_zim zim_files query max_results
          start_offset s = (inr results, s1)).
Proof.
  intros Hwf. split.
  - intros results s1. by apply search_multiple_zim_again.
  - intros Hlib Hs.
    destruct (search_multiple_zim_ok Hlib zim_files query max_results
                start_offset s Hs)
      as (results & s1 & Hfirst & _).
    by exists results, s1.
Qed.

(** The example world is such a world. *)
Lemma example_library_raises_declared :
  library_raises_declared (H := Example.env).
Proof.
  split.
  - intros p e. simpl. by destruct (bool_decide _); intros [= <-].
  - intros a q start count e [p Hp]. simpl in Hp.
    destruct (bool_decide _); [|done]. by injection Hp as <-.
  - intros a x e [p Hp]. simpl in Hp.
    destruct (bool_decide _); [|done]. injection Hp as <-. simpl.
    unfold Example.find_entry. destruct (List.find _ _); [done|].
    intros [= <-]. by left.
Qed.

(** ** The result cache stays consistent *)

Section Reach.
Context `{Env}.

Lemma consistent_keeps {A} (m : Py State A) s :
  keeps m -> consistent s -> consistent (m s).2.
Proof. intros Hk Hs. unfold consistent. by rewrite Hk. Qed.

Lemma consistent_search_multiple_zim zim_files query max_results start_offset s :
  consistent s ->
  consistent (SearchEngine.search_multiple_zim zim_files query max_results
                start_offset s).2.
Proof.
  intros Hs.
  destruct (validate_search_query query) as [e|clean_query] eqn:Hv.
  { by rewrite (search_multiple_zim_invalid _ _ _ _ e). }
  set (key := SearchEngine.search_cache_key zim_files clean_query max_results
                start_offset).
  destruct (LRU.cache (search_cache s) !! key) as [rs|] eqn:Hlook.
  { destruct (search_multiple_zim_hit zim_files query clean_query max_results
                start_offset rs s Hv Hs Hlook) as (c & -> & Hwf & _).
    by destruct s. }
  unfold SearchEngine.search_multiple_zim, try_except, mbind, Py_bind, bind.
  rewrite Hv. simpl. fold key.
  unfold zoom at 1. rewrite (LRU_facts.get_miss key _ Hlook), state_eta.
  assert ((if enable_parallel_search config && (len zim_files >? 1)
           then SearchEngine.search_each zim_files clean_query max_results
           else SearchEngine.search_each zim_files clean_query max_results)
          = SearchEngine.search_each zim_files clean_query max_results) as ->.
  { by destruct (_ && _). }
  pose proof (consistent_keeps _ s
                (keeps_search_each zim_files clean_query max_results) Hs) as Hs1.
  destruct (SearchEngine.search_each zim_files clean_query max_results s)
    as [[e|all_results] s1]; simpl in Hs1.
  { by destruct (is_OSError_ValueError_RuntimeError e). }
  unfold zoom.
  destruct (LRU_facts.put_wf (search_cache s1) key
              (slice (sort_by_key (fun r => len (result_title r)) all_results)
                 start_offset (start_offset + max_results)) Hs1)
    as (c & -> & Hwf & _).
  simpl. by destruct s1.
Qed.

Lemma consistent_serve req s : consistent s -> consistent (serve req s).2.
Proof.
  intros Hs. destruct req as [f q m o|fs q m o|q m o|f pp tp l|]; simpl.
  - by apply consistent_keeps; [apply keeps_search_single_zim|].
  - by apply consistent_search_multiple_zim.
  - unfold SearchEngine.search_all_zim_files, try_except, mbind, Py_bind, bind.
    pose proof (consistent_keeps _ s (keeps_discover_zim_files false) Hs) as Hs1.
    destruct (ZimManager.discover_zim_files false s) as [[e|infos] s1]; simpl in Hs1.
    { by destruct (is_OSError_ValueError_RuntimeError e). }
    destruct (map filename _) as [|f fs]; [done|].
    pose proof (consistent_search_multiple_zim (f :: fs) q m o s1 Hs1) as Hs2.
    destruct (SearchEngine.search_multiple_zim (f :: fs) q m o s1)
      as [[e|rs] s2]; simpl in Hs2; [|done].
    by destruct (is_OSError_ValueError_RuntimeError e).
  - by apply consistent_keeps; [apply keeps_browse_entries_by_pattern|].
  - destruct s as [ac fic av sc sr cl dr]. unfold consistent in *. simpl in *.
    apply LRU_facts.wf_fresh. by destruct Hs.
Qed.

(** With a result cache of capacity at least 1, the result cache is
    consistent after any sequence of requests. *)
Lemma consistent_after reqs :
  1 <= search_cache_size config -> consistent (after reqs initial_state).
Proof.
  intros Hsize.
  assert (consistent initial_state) as Hinit by (by apply LRU_facts.wf_fresh).
  revert Hinit. generalize initial_state.
  induction reqs as [|req reqs IH]; intros s Hs; simpl; [done|].
  apply IH. by apply consistent_serve.
Qed.
End Reach.

(** ** Scores *)

Section Scores.
Context `{Env}.


Lemma scores_zero_keeps {A} (m : Py State A) s :
  keeps m -> scores_zero s -> scores_zero (m s).2.
Proof. intros Hk Hs. unfold scores_zero. by rewrite Hk. Qed.

Lemma for_acc_invariant {A B} (P : B -> Prop) (xs : list A) (acc : B)
    (body : B -> A -> Py State B) s :
  (forall acc x s, P acc -> forall acc', (body acc x s).1 = inr acc' -> P acc') ->
  P acc -> forall r, (for_acc xs acc body s).1 = inr r -> P r.
Proof.
  intros Hbody. revert acc s. induction xs as [|x xs IH]; intros acc s Hacc r; simpl.
  - by intros [= <-].
  - unfold mbind, Py_bind, bind.
    destruct (body acc x s) as [[e|acc'] s1] eqn:Hb; [done|].
    apply IH. apply (Hbody acc x s Hacc). by rewrite Hb.
Qed.

Lemma zero_scores_snoc rs zim_file path title is_redirect :
  zero_scores rs ->
  zero_scores (rs ++ [SearchEngineResult_new zim_file path title is_redirect]).
Proof. intros Hrs. apply Forall_app. split; [done|]. by repeat constructor. Qed.

Lemma collect_results_zero zim_file archive result_set s rs :
  (SearchEngine.collect_results zim_file archive result_set s).1 = inr rs ->
  zero_scores rs.
Proof.
  unfold SearchEngine.collect_results.
  apply (for_acc_invariant zero_scores); [|constructor].
  intros acc x s0 Hacc acc'. unfold try_except, mbind, Py_bind, bind.
  destruct archive as [a|]; simpl.
  - unfold library, mbind, Py_bind, bind, modify.
    destruct (get_entry_by_path a x) as [e|entry]; simpl.
    + destruct (is_KeyError_ValueError_RuntimeError e); simpl; [|done].
      by intros [= <-].
    + intros [= <-]. by apply zero_scores_snoc.
  - done.
Qed.

Lemma search_single_zim_zero zim_file query max_results start_offset s rs :
  (SearchEngine.search_single_zim zim_file query max_results start_offset s).1
    = inr rs ->
  zero_scores rs.
Proof.
  unfold SearchEngine.search_single_zim, try_except, mbind, Py_bind, bind.
  destruct (lift (validate_search_query query) s) as [[e|clean_query] s0].
  { destruct (is_OSError_ValueError_RuntimeError e); simpl; [|done].
    intros [= <-]. constructor. }
  destruct (SearchEngine._get_searcher zim_file s0) as [[e|[searcher|]] s1].
  - destruct (is_OSError_ValueError_RuntimeError e); simpl; [|done].
    intros [= <-]. constructor.
  - destruct (library _ _ s1) as [[e|result_set] s2].
    { destruct (is_OSError_ValueError_RuntimeError e); simpl; [|done].
      intros [= <-]. constructor. }
    destruct (ZimManager.get_archive zim_file s2) as [[e|archive] s3].
    { destruct (is_OSError_ValueError_RuntimeError e); simpl; [|done].
      intros [= <-]. constructor. }
    destruct (SearchEngine.collect_results zim_file archive result_set s3)
      as [[e|results] s4] eqn:Hc.
    { destruct (is_OSError_ValueError_RuntimeError e); simpl; [|done].
      intros [= <-]. constructor. }
    simpl. intros [= <-].
    apply (collect_results_zero zim_file archive result_set s3). by rewrite Hc.
  - simpl. intros [= <-]. constructor.
Qed.

Lemma scoreless_search_single_zim zim_file query max_results start_offset :
  scoreless (SearchEngine.search_single_zim zim_file query max_results start_offset).
Proof.
  intros s Hs. split.
  - by apply scores_zero_keeps; [apply keeps_search_single_zim|].
  - apply search_single_zim_zero.
Qed.

Lemma search_each_zero zim_files clean_query max_results s rs :
  (SearchEngine.search_each zim_files clean_query max_results s).1 = inr rs ->
  zero_scores rs.
Proof.
  unfold SearchEngine.search_each.
  apply (for_acc_invariant zero_scores); [|constructor].
  intros acc f s0 Hacc acc'. unfold mbind, Py_bind, bind.
  destruct (SearchEngine.search_single_zim f clean_query max_results 0 s0)
    as [[e|file_results] s1] eqn:Hf; [done|].
  simpl. intros [= <-]. apply Forall_app. split; [done|].
  apply (search_single_zim_zero f clean_query max_results 0 s0). by rewrite Hf.
Qed.

Lemma zero_scores_slice rs lo hi : zero_scores rs -> zero_scores (slice rs lo hi).
Proof. intros Hrs. unfold slice. by apply Forall_take, Forall_drop. Qed.

Lemma zero_scores_sort (f : SearchEngineResult -> Z) rs :
  zero_scores rs -> zero_scores (sort_by_key f rs).
Proof. intros Hrs. unfold zero_scores. by rewrite sort_by_key_perm. Qed.

Lemma scores_zero_put key page s :
  scores_zero s -> zero_scores page ->
  scores_zero (zoom search_cache set_search_cache (LRU.put key page) s).2.
Proof.
  intros Hs Hpage k rs. unfold zoom.
  pose proof (LRU_facts.put_cache_inv (search_cache s) key page k rs) as Hinv.
  destruct (LRU.put key page (search_cache s)) as [r c]. destruct s. simpl in *.
  intros Hlook. destruct (Hinv Hlook) as [[_ ->]|Hold]; [done|].
  by apply (Hs k).
Qed.

Lemma scores_zero_get key s :
  scores_zero s ->
  scores_zero (zoom search_cache set_search_cache (LRU.get key) s).2.
Proof.
  intros Hs k rs. unfold zoom.
  pose proof (LRU_facts.get_cache (search_cache s) key) as Hc.
  destruct (LRU.get key (search_cache s)) as [r c]. destruct s. simpl in *.
  rewrite Hc. apply (Hs k).
Qed.

Lemma scoreless_intro (m : Py State (list SearchEngineResult)) :
  (forall s res s', scores_zero s -> m s = (res, s') ->
     scores_zero s' /\ forall rs, res = inr rs -> zero_scores rs) ->
  scoreless m.
Proof. intros Hm s Hs. destruct (m s) as [res s'] eqn:E. by apply (Hm s). Qed.

(** The handler of the search methods: an empty list. *)
Lemma handler_zero e s res s' :
  scores_zero s ->
  (if is_OSError_ValueError_RuntimeError e
   then ret (S := State) [] s else (inl e, s)) = (res, s') ->
  scores_zero s' /\ forall rs, res = inr rs -> zero_scores rs.
Proof.
  intros Hs. destruct (is_OSError_ValueError_RuntimeError e);
    intros [= <- <-]; (split; [done|]); [|done].
  intros rs [= <-]. constructor.
Qed.

Lemma scoreless_search_multiple_zim zim_files query max_results start_offset :
  scoreless (SearchEngine.search_multiple_zim zim_files query max_results
               start_offset).
Proof.
  apply scoreless_intro. intros s res s' Hs.
  unfold SearchEngine.search_multiple_zim.
  unfold try_except, mbind, Py_bind, bind.
  destruct (validate_search_query query) as [e|clean_query]; simpl.
  { by apply handler_zero. }
  set (key := SearchEngine.search_cache_key _ _ _ _).
  pose proof (scores_zero_get key s Hs) as Hs0.
  assert (forall rs c, LRU.get key (search_cache s) = (inr (Some rs), c) ->
                       zero_scores rs) as Hhit.
  { intros rs c Hget. apply LRU_facts.get_value in Hget. by apply (Hs key). }
  unfold zoom at 1. unfold zoom in Hs0.
  destruct (LRU.get key (search_cache s)) as [[e|[rs|]] c] eqn:Hget; simpl in *.
  - by apply handler_zero.
  - intros [= <- <-]. split; [done|]. intros rs' [= <-]. by apply (Hhit rs c).
  - set (s0 := set_search_cache c s) in *.
    assert ((if enable_parallel_search config && (len zim_files >? 1)
             then SearchEngine.search_each zim_files clean_query max_results
             else SearchEngine.search_each zim_files clean_query max_results)
            = SearchEngine.search_each zim_files clean_query max_results) as ->.
    { by destruct (_ && _). }
    pose proof (scores_zero_keeps _ s0
                  (keeps_search_each zim_files clean_query max_results) Hs0) as Hs1.
    pose proof (search_each_zero zim_files clean_query max_results s0) as Hall.
    destruct (SearchEngine.search_each zim_files clean_query max_results s0)
      as [[e|all_results] s1]; simpl in *.
    { by apply handler_zero. }
    assert (zero_scores
              (slice (sort_by_key (fun r => len (result_title r)) all_results)
                 start_offset (start_offset + max_results))) as Hpage.
    { apply zero_scores_slice, zero_scores_sort. by apply Hall. }
    pose proof (scores_zero_put key _ s1 Hs1 Hpage) as Hs2.
    destruct (zoom search_cache set_search_cache (LRU.put key _) s1)
      as [[e|[]] s2]; simpl in *.
    + by apply handler_zero.
    + intros [= <- <-]. split; [done|]. by intros rs [= <-].
Qed.

Lemma scoreless_search_all_zim_files query max_results start_offset :
  scoreless (SearchEngine.search_all_zim_files query max_results start_offset).
Proof.
  apply scoreless_intro. intros s res s' Hs.
  unfold SearchEngine.search_all_zim_files.
  unfold try_except, mbind, Py_bind, bind.
  pose proof (scores_zero_keeps _ s (keeps_discover_zim_files false) Hs) as Hs1.
  destruct (ZimManager.discover_zim_files false s) as [[e|infos] s1]; simpl in *.
  { by apply handler_zero. }
  destruct (map filename _) as [|f fs].
  { simpl. intros [= <- <-]. split; [done|]. intros rs [= <-]. constructor. }
  destruct (scoreless_search_multiple_zim (f :: fs) query max_results
              start_offset s1 Hs1) as [Hs2 Hrs].
  destruct (SearchEngine.search_multiple_zim (f :: fs) query max_results
              start_offset s1) as [[e|rs] s2]; simpl in *.
  - by apply handler_zero.
  - intros [= <- <-]. split; [done|]. intros rs' [= <-]. by apply Hrs.
Qed.

Lemma browse_loop_zero attempts zim_file archive pp tp limit results count s rs :
  zero_scores results ->
  (SearchEngine.browse_loop attempts zim_file archive pp tp limit results
     count s).1 = inr rs ->
  zero_scores rs.
Proof.
  revert results count s. induction attempts as [|n IH];
    intros results count s Hres; simpl.
  - by intros [= <-].
  - destruct (count >=? limit); [by intros [= <-]|].
    unfold mbind, Py_bind, bind at 1.
    destruct (try_except _ _ _ s) as [[e|[results' count']] s1] eqn:Hstep; [done|].
    simpl. apply IH.
    revert Hstep. unfold try_except, mbind, Py_bind, bind, state, modify, library.
    unfold mbind, Py_bind, bind, modify. simpl.
    destruct (get_random_entry archive (draws s)) as [e|entry]; simpl.
    + destruct (is_KeyError_ValueError_RuntimeError e); simpl; [|done].
      by intros [= <- <- <-].
    + destruct (_ && _); simpl; intros [= <- <- <-]; [|done].
      by apply zero_scores_snoc.
Qed.

Lemma scoreless_browse_entries_by_pattern zim_file pp tp limit :
  scoreless (SearchEngine.browse_entries_by_pattern zim_file pp tp limit).
Proof.
  intros s Hs. split.
  - by apply scores_zero_keeps; [apply keeps_browse_entries_by_pattern|].
  - unfold SearchEngine.browse_entries_by_pattern.
    unfold try_except, mbind, Py_bind, bind.
    destruct (ZimManager.get_archive zim_file s) as [[e|[archive|]] s1]; simpl.
    + destruct (is_OSError_ValueError_RuntimeError e); simpl; [|done].
      intros rs [= <-]. constructor.
    + destruct (SearchEngine.browse_loop _ _ _ _ _ _ _ _ s1)
        as [[e|results] s2] eqn:Hloop; simpl.
      * destruct (is_OSError_ValueError_RuntimeError e); simpl; [|done].
        intros rs [= <-]. constructor.
      * intros rs [= <-].
        apply (browse_loop_zero (Z.to_nat (limit * 5)) zim_file archive pp tp
                 limit [] 0 s1); [constructor|].
        by rewrite Hloop.
    + intros rs [= <-]. constructor.
Qed.

Lemma scoreless_serve req : scoreless (serve req).
Proof.
  destruct req; simpl.
  - apply scoreless_search_single_zim.
  - apply scoreless_search_multiple_zim.
  - apply scoreless_search_all_zim_files.
  - apply scoreless_browse_entries_by_pattern.
  - intros s Hs. split.
    + intros k rs. destruct s. simpl. by rewrite lookup_empty.
    + intros rs [= <-]. constructor.
Qed.

Lemma scores_zero_initial : scores_zero initial_state.
Proof. intros k rs. simpl. by rewrite lookup_empty. Qed.

Lemma scores_zero_after reqs s : scores_zero s -> scores_zero (after reqs s).
Proof.
  revert s. induction reqs as [|req reqs IH]; intros s Hs; simpl; [done|].
  apply IH. by apply scoreless_serve.
Qed.

(** C10. Whatever requests the engine has served since it was made,
    every result of a search or browse operation has the score 0.0,
    the default of the dataclass. *)
Theorem every_result_has_score_zero (reqs : list request) (req : request)
    (results : list SearchEngineResult) :
  (serve req (after reqs initial_state)).1 = inr results ->
  Forall (fun r => score r = 0%float) results.
Proof.
  intros Hres.
  apply (scoreless_serve req (after reqs initial_state)); [|done].
  apply scores_zero_after, scores_zero_initial.
Qed.
End Scores.

(** ** The example world *)

Module Example_facts.
Import Example.
#[local] Existing Instance env.

Lemma search_single_zim_rejected_query_witness :
  SearchEngine.search_single_zim (lit "a.zim") (lit "   ") 20 0
    initial_state = (inr [], initial_state).
Proof.
  apply (search_single_zim_rejected_query (lit "a.zim") (lit "   ")
           20 0 initial_state).
  left. reflexivity.
Defined.

(** C6 as stated fails: the caller of [search_single_zim] gets an
    empty list, not the validation error. *)
Lemma search_single_zim_hides_the_validation_error :
  ~ (exists e,
       (SearchEngine.search_single_zim (lit "a.zim") (lit "   ")
          20 0 initial_state).1 = inl e).
Proof. intros [e He]. vm_compute in He. discriminate He. Qed.

Lemma search_multiple_zim_miss_witness :
  Reference.searchMany_on_miss files (lit " x ") 2 0 initial_state
    (SearchEngine.search_multiple_zim files (lit " x ") 2 0 initial_state).
Proof.
  apply (search_multiple_zim_miss files (lit " x ") (lit "x") 2 0
           initial_state); [reflexivity|reflexivity|lia|lia].
Defined.

(** C3 as stated fails for an offset below zero: on a miss with limit 2
    and offset -1 the two hits [One] and [Three] are gathered; the
    slice from position -1 to position 1 of the sorted list holds
    [One], but the code counts a negative bound from the end of the
    list, slices from position 1 to position 1, and returns nothing. *)
Lemma search_multiple_zim_negative_offset :
  LRU.cache (search_cache initial_state)
    !! SearchEngine.search_cache_key files (lit "x") 2 (-1) = None
  /\ (SearchEngine.search_multiple_zim files (lit "x") 2 (-1)
        initial_state).1 = inr []
  /\ ~ Reference.searchMany_on_miss files (lit "x") 2 (-1) initial_state
        (SearchEngine.search_multiple_zim files (lit "x") 2 (-1)
           initial_state).
Proof.
  assert ((SearchEngine.search_multiple_zim files (lit "x") 2 (-1)
             initial_state).1 = inr []) as Hcall.
  { vm_compute. reflexivity. }
  split_and!; [reflexivity|exact Hcall|].
  unfold Reference.searchMany_on_miss.
  destruct (Reference.gather _ files initial_state) as [[e|hits] s1] eqn:Hg.
  { vm_compute in Hg. discriminate Hg. }
  assert (length hits = 2%nat) as Hlen.
  { vm_compute in Hg. by injection Hg as <- _. }
  intros (merged & [Hperm _] & Heq).
  rewrite Heq in Hcall. apply Permutation_length in Hperm.
  rewrite Hlen in Hperm. clear Heq Hg.
  destruct merged as [|r merged]; [discriminate Hperm|].
  revert Hcall. cbv zeta. unfold mbind, Py_bind, bind, zoom.
  destruct (LRU.put _ _ (search_cache s1)) as [[e|[]] c]; [done|].
  unfold ret, Reference.interval. simpl. intros Hpage. discriminate Hpage.
Qed.

Lemma search_multiple_zim_repeat_witness :
  exists s2,
    SearchEngine.search_multiple_zim files (lit "x") 2 0
      (SearchEngine.search_multiple_zim files (lit "x") 2 0
         initial_state).2
      = (inr [hit "One"; hit "Three"], s2).
Proof.
  destruct (search_multiple_zim_repeat files (lit "x") 2 0 initial_state)
    as [Hagain _].
  - apply LRU_facts.wf_fresh. simpl. lia.
  - destruct (Hagain [hit "One"; hit "Three"]
                (SearchEngine.search_multiple_zim files (lit "x") 2 0
                   initial_state).2) as (s2 & Hsecond & _).
    + vm_compute. reflexivity.
    + exists s2. exact Hsecond.
Defined.

(** C5 on one archive with three matches and pages of two: the first
    page has two hits, the second is empty, so the pages together have
    two of the three hits of a single fetch of size three. *)
Lemma search_multiple_zim_pages_skip_a_hit :
  exists s1 s2 s3,
    SearchEngine.search_multiple_zim files (lit "x") 2 0 initial_state
      = (inr [hit "One"; hit "Three"], s1)
    /\ SearchEngine.search_multiple_zim files (lit "x") 2 2 s1
         = (inr [], s2)
    /\ SearchEngine.search_multiple_zim files (lit "x") 3 0
         initial_state
         = (inr [hit "One"; hit "Three"; hit "Seventeen"], s3).
Proof.
  eexists _, _, _. split_and!; vm_compute; reflexivity.
Qed.

Lemma every_result_has_score_zero_witness :
  Forall (fun r => score r = 0%float) [hit "One"; hit "Three"].
Proof.
  apply (every_result_has_score_zero
           [SearchMultiple files (lit "x") 2 0]
           (SearchMultiple files (lit "x") 2 0)).
  vm_compute. reflexivity.
Defined.
End Example_facts.

(** * More properties *)

(** ** The bounded cache, as its users see it *)

Module LRU_use.
Import LRU.
Section Use.
Context {K : Type} `{Countable K} {V : Type}.
Implicit Types (c : LRUCache K V) (k key : K) (v value : V).

(** X1. In a consistent cache a [put] followed by a [get] of the same
    key returns the value that was put. *)
Theorem put_then_get (c : LRUCache K V) (key : K) (value : V) :
  wf c ->
  exists c1 c2,
    put key value c = (inr tt, c1) /\ get key c1 = (inr (Some value), c2).
Proof.
  intros Hwf.
  destruct (LRU_facts.put_wf c key value Hwf) as (c1 & Hput & Hwf1 & Hlook & _).
  destruct (LRU_facts.get_wf c1 key Hwf1) as (c2 & Hget & _).
  exists c1, c2. split; [done|]. by rewrite Hget, Hlook.
Qed.

(** X2. A [put] on a key that is already in a consistent cache replaces
    its value and evicts nothing: the other keys keep their values and
    the size does not change, even when the cache is full. *)
Theorem put_present_evicts_nothing (c : LRUCache K V) (key : K) (value : V) :
  wf c -> is_Some (cache c !! key) ->
  exists c1,
    put key value c = (inr tt, c1)
    /\ cache c1 = <[key := value]> (cache c)
    /\ (forall k, k ≠ key -> cache c1 !! k = cache c !! k)
    /\ base.size (cache c1) = base.size (cache c).
Proof.
  intros Hwf [v0 Hin].
  destruct (LRU_facts.wf_split c key Hwf) as (l1 & l2 & Ho & Hn1 & _);
    [by eexists|].
  eexists. split; [by apply (LRU_facts.put_present key value c v0 l1 l2)|].
  simpl. split_and!; [done| |].
  - intros k Hk. by rewrite lookup_insert_ne.
  - by rewrite map_size_insert_Some.
Qed.

(** X3. With a capacity of at least 2, a key that a [get] has just
    found survives the next [put] of a new key, full cache or not. *)
Theorem get_protects_from_eviction (c : LRUCache K V) (key new_key : K)
    (value new_value : V) :
  wf c -> 2 <= max_size c ->
  cache c !! key = Some value -> cache c !! new_key = None ->
  exists c1 c2,
    get key c = (inr (Some value), c1)
    /\ put new_key new_value c1 = (inr tt, c2)
    /\ cache c2 !! key = Some value
    /\ cache c2 !! new_key = Some new_value.
Proof.
  intros Hwf Hcap Hin Hnew.
  assert (key ≠ new_key) as Hne by (intros ->; congruence).
  destruct (LRU_facts.wf_split c key Hwf) as (l1 & l2 & Ho & Hn1 & Hn2 & Hnd);
    [by eexists|].
  pose proof (LRU_facts.get_hit key c value l1 l2 Hin Ho Hn1) as Hget.
  pose proof (LRU_facts.wf_touch c key value l1 l2 Hwf ltac:(by eexists) Ho) as Hwf1.
  rewrite insert_id in Hwf1 by done.
  set (c1 := set_access_order (l1 ++ l2 ++ [key]) c) in *.
  assert (wf c1) as Hwf1' by done.
  pose proof (LRU_facts.wf_size c1 Hwf1') as Hsz. simpl in Hsz.
  exists c1.
  destruct (Z.lt_ge_cases (Z.of_nat (base.size (cache c1))) (max_size c1))
    as [Hroom|Hfull].
  - eexists. split; [done|]. split; [by apply LRU_facts.put_new_room|].
    simpl. by rewrite lookup_insert_ne, lookup_insert_eq.
  - (* the head of the order is not [key]: [key] is last of at least two *)
    destruct (l1 ++ l2) as [|oldest rest] eqn:Hl.
    { simpl in *. rewrite app_assoc, Hl in Hsz. simpl in Hsz. lia. }
    assert (oldest ≠ key) as Hold.
    { intros ->. assert (key ∈ l1 ++ l2) as Hk by (rewrite Hl; set_solver).
      set_solver. }
    assert (access_order c1 = oldest :: rest ++ [key]) as Ho1.
    { simpl. by rewrite app_assoc, Hl. }
    assert (is_Some (cache c1 !! oldest)) as Hsome.
    { apply (wf_keys c1 Hwf1'). rewrite Ho1. set_solver. }
    eexists. split; [done|].
    split; [by apply (LRU_facts.put_new_full new_key new_value c1 oldest
                        (rest ++ [key]))|].
    simpl. split.
    + by rewrite lookup_insert_ne, lookup_delete_ne.
    + by rewrite lookup_insert_eq.
Qed.

(** X4. After any sequence of [get] and [put] calls on a new cache of
    capacity at least 1, the keys of the dictionary are exactly the keys
    of the recency list, each once, and [size()] is their number. *)
Theorem bookkeeping_agrees (n : Z) (h : list (op K V)) :
  1 <= n ->
  exists c,
    run h (mk n ∅ []) = (inr tt, c)
    /\ NoDup (access_order c)
    /\ (forall k, k ∈ access_order c <-> is_Some (cache c !! k))
    /\ size (K := K) (V := V) c = (inr (len (access_order c)), c).
Proof.
  intros Hn. destruct (LRU_facts.reached_run n h Hn) as (c & Hrun & [Hwf _ _]).
  exists c. split_and!; [done|by destruct Hwf|by destruct Hwf|].
  unfold size, mbind, Py_bind, bind, state, ret, len.
  by rewrite (LRU_facts.wf_size c Hwf).
Qed.
End Use.

Lemma put_then_get_witness :
  exists c1 c2 : LRUCache nat nat,
    put 1%nat 10%nat (mk 2 ∅ []) = (inr tt, c1)
    /\ get 1%nat c1 = (inr (Some 10%nat), c2).
Proof.
  apply (put_then_get (K := nat) (V := nat) (mk 2 ∅ []) 1%nat 10%nat).
  apply LRU_facts.wf_fresh. lia.
Defined.

Lemma two_entries_wf : wf two_entries.
Proof.
  split; simpl.
  - lia.
  - apply NoDup_ListNoDup. repeat constructor; simpl; intuition lia.
  - intros k. rewrite !elem_of_cons, elem_of_nil.
    rewrite lookup_insert. case_decide; [subst; split; [by eexists|tauto]|].
    rewrite lookup_insert. case_decide; [subst; split; [by eexists|tauto]|].
    rewrite lookup_empty. split; [intuition congruence|by intros [? ?]].
  - unfold len. simpl. lia.
Qed.

Lemma put_present_evicts_nothing_witness :
  exists c1 : LRUCache nat nat,
    put 1%nat 11%nat two_entries = (inr tt, c1)
    /\ base.size (cache c1) = base.size (cache two_entries).
Proof.
  destruct (put_present_evicts_nothing two_entries 1%nat 11%nat two_entries_wf)
    as (c1 & Hput & _ & _ & Hsize).
  - by eexists.
  - exists c1. split; [exact Hput|exact Hsize].
Defined.

Lemma get_protects_from_eviction_witness :
  exists c1 c2 : LRUCache nat nat,
    get 1%nat two_entries = (inr (Some 10%nat), c1)
    /\ put 3%nat 30%nat c1 = (inr tt, c2)
    /\ cache c2 !! 1%nat = Some 10%nat.
Proof.
  destruct (get_protects_from_eviction two_entries 1%nat 3%nat 10%nat 30%nat
              two_entries_wf) as (c1 & c2 & Hget & Hput & Hkey & _).
  - simpl. lia.
  - reflexivity.
  - reflexivity.
  - exists c1, c2. split; [exact Hget|]. split; [exact Hput|exact Hkey].
Defined.

Lemma bookkeeping_agrees_witness :
  exists c : LRUCache nat nat,
    run [Put 1%nat 10%nat; Get 1%nat; Put 2%nat 20%nat] (mk 1 ∅ []) = (inr tt, c)
    /\ NoDup (access_order c).
Proof.
  destruct (bookkeeping_agrees (K := nat) (V := nat) 1
              [Put 1%nat 10%nat; Get 1%nat; Put 2%nat 20%nat])
    as (c & Hrun & Hnd & _); [lia|].
  exists c. split; [exact Hrun|exact Hnd].
Defined.
End LRU_use.

(** ** Text utilities *)

Lemma len_nonneg {A} (l : list A) : 0 <= len l.
Proof. unfold len. lia. Qed.

Lemma lstrip_suffix (s : str) : lstrip s `suffix_of` s.
Proof. destruct (lstrip_split s) as (pre & Hs & _). by exists pre. Qed.

Lemma rstrip_prefix (s : str) : rstrip s `prefix_of` s.
Proof. destruct (rstrip_split s) as (post & Hs). by exists post. Qed.

Lemma strip_ends_clean (s : str) : starts_clean (rev (strip s)).
Proof.
  unfold strip, rstrip. rewrite rev_involutive. apply lstrip_starts_clean.
Qed.

Lemma strip_starts_clean (s : str) : starts_clean (strip s).
Proof. apply rstrip_starts_clean, lstrip_starts_clean. Qed.

Lemma len_strip (s : str) : len (strip s) <= len s.
Proof.
  unfold strip, len.
  pose proof (prefix_length _ _ (rstrip_prefix (lstrip s))).
  pose proof (suffix_length _ _ (lstrip_suffix s)). lia.
Qed.

Lemma strip_clean (s : str) :
  starts_clean s -> starts_clean (rev s) -> strip s = s.
Proof.
  intros Hs He. unfold strip. rewrite (lstrip_clean s Hs).
  unfold rstrip. by rewrite (lstrip_clean _ He), rev_involutive.
Qed.

(** X5. A query that [validate_search_query] accepts comes back trimmed:
    not empty, at most 1000 characters, no white space at either end;
    validating the result again returns it unchanged. *)
Theorem validate_search_query_normal_form (query cleaned_query : str) :
  validate_search_query query = inr cleaned_query ->
  cleaned_query <> []
  /\ len cleaned_query <= 1000
  /\ starts_clean cleaned_query /\ starts_clean (rev cleaned_query)
  /\ validate_search_query cleaned_query = inr cleaned_query.
Proof.
  intros Hv. destruct (validate_search_query_clean _ _ Hv) as [-> Hagain].
  destruct (validate_search_query_cases query)
    as [(_ & Hr)|[(_ & _ & Hr)|(Hne & Hlen & _)]];
    [rewrite Hr in Hv; discriminate|rewrite Hr in Hv; discriminate|].
  split_and!; [done|done|apply strip_starts_clean|apply strip_ends_clean|done].
Qed.

Lemma validate_search_query_normal_form_witness :
  validate_search_query (lit "x") = inr (lit "x").
Proof.
  apply (validate_search_query_normal_form (lit "  x ") (lit "x")). reflexivity.
Defined.

Lemma truncate_text_length (text suffix : str) (max_length : Z) :
  len suffix <= max_length ->
  len (truncate_text text max_length suffix) <= max_length.
Proof.
  intros Hroom.
  destruct (Z.le_gt_cases (len text) max_length) as [Hfit|Hlong].
  - unfold truncate_text. by destruct (Z.leb_spec (len text) max_length); [|lia].
  - destruct (truncate_text_long text max_length suffix) as [_ ->]; lia.
Qed.

(** X6. When the suffix fits in the maximum, [truncate_text] never
    returns more than [max_length] characters, and a text that fits is
    returned as it is. *)
Theorem truncate_text_bounded (text suffix : str) (max_length : Z) :
  len suffix <= max_length ->
  len (truncate_text text max_length suffix) <= max_length
  /\ (len text <= max_length -> truncate_text text max_length suffix = text).
Proof.
  intros Hroom. split.
  - by apply truncate_text_length.
  - intros Hfit. unfold truncate_text.
    by destruct (Z.leb_spec (len text) max_length); [|lia].
Qed.

Lemma truncate_text_bounded_witness :
  len (truncate_text (lit "abcdefgh") 5 default_suffix) <= 5.
Proof.
  apply (truncate_text_bounded (lit "abcdefgh") default_suffix 5).
  vm_compute. discriminate.
Defined.

(** X7. When the maximum is smaller than the suffix, a text longer than
    the maximum comes back longer than the maximum: the suffix alone
    does not fit. *)
Theorem truncate_text_overshoots (text suffix : str) (max_length : Z) :
  max_length < len suffix -> len text > max_length ->
  len (truncate_text text max_length suffix) > max_length.
Proof.
  intros Hsmall Hlong. unfold truncate_text.
  destruct (Z.leb_spec (len text) max_length); [lia|].
  unfold len in *. rewrite length_app. lia.
Qed.

Lemma truncate_text_overshoots_witness :
  len (truncate_text (lit "abcdefgh") 2 default_suffix) > 2.
Proof.
  apply (truncate_text_overshoots (lit "abcdefgh") default_suffix 2);
    vm_compute; reflexivity.
Defined.

(** ** White space after [clean_html_content] *)

Lemma collapse_whitespace_starts_clean (s : str) :
  starts_clean (collapse_whitespace true s).
Proof.
  induction s as [|c s IH]; simpl; [done|].
  destruct (isspace c) eqn:Hc; [done|]. simpl. done.
Qed.

Lemma collapse_whitespace_spaces b (s : str) :
  Forall (fun c => isspace c = true -> c = 32%N) (collapse_whitespace b s).
Proof.
  revert b. induction s as [|c s IH]; intros b; simpl; [constructor|].
  destruct (isspace c) eqn:Hc.
  - destruct b; [apply IH|]. constructor; [done|apply IH].
  - constructor; [congruence|apply IH].
Qed.

Lemma no_space_runs_cons (c : N) (s : str) :
  (isspace c = false \/ starts_clean s) -> no_space_runs s = true ->
  no_space_runs (c :: s) = true.
Proof.
  intros Hc Hs. destruct s as [|c2 s]; [done|].
  simpl in *. rewrite Hs, andb_true_r.
  destruct Hc as [-> | ->]; [done|]. by rewrite andb_false_r.
Qed.

Lemma collapse_whitespace_no_runs b (s : str) :
  no_space_runs (collapse_whitespace b s) = true.
Proof.
  revert b. induction s as [|c s IH]; intros b; simpl; [done|].
  destruct (isspace c) eqn:Hc.
  - destruct b; [apply IH|]. apply no_space_runs_cons; [|apply IH].
    right. apply collapse_whitespace_starts_clean.
  - apply no_space_runs_cons; [by left|apply IH].
Qed.

Lemma no_space_runs_app_inv (s t : str) :
  no_space_runs (s ++ t) = true ->
  no_space_runs s = true /\ no_space_runs t = true.
Proof.
  induction s as [|c1 s IH]; simpl; [done|].
  destruct s as [|c2 s]; simpl in *.
  - destruct t as [|c2 t]; [done|]. intros [_ Ht]%andb_prop. done.
  - intros [Hc Hr]%andb_prop. destruct (IH Hr) as [Hs Ht].
    by rewrite Hc, Hs.
Qed.

(** X8. The text that [clean_html_content] returns is single-spaced:
    its only white space is single spaces, none of them at either end. *)
Theorem clean_html_content_single_spaced (html_content : str) :
  single_spaced (clean_html_content html_content).
Proof.
  unfold clean_html_content. cbv zeta.
  set (t := collapse_whitespace false (remove_tags None html_content)).
  split_and!.
  - pose proof (collapse_whitespace_spaces false (remove_tags None html_content))
      as Hall. fold t in Hall.
    destruct (rstrip_prefix (lstrip t)) as [post Hpost].
    destruct (lstrip_suffix t) as [pre Hpre].
    rewrite Hpre, Hpost in Hall.
    by apply Forall_app in Hall as [_ [Hall _]%Forall_app].
  - pose proof (collapse_whitespace_no_runs false (remove_tags None html_content))
      as Hruns. fold t in Hruns.
    destruct (rstrip_prefix (lstrip t)) as [post Hpost].
    destruct (lstrip_suffix t) as [pre Hpre].
    rewrite Hpre, Hpost in Hruns.
    apply no_space_runs_app_inv in Hruns as [_ Hruns].
    by apply no_space_runs_app_inv in Hruns as [Hruns _].
  - apply strip_starts_clean.
  - apply strip_ends_clean.
Qed.

(** ** Tags *)

Lemma remove_tags_app_text (a b : str) :
  60%N ∉ a -> remove_tags None (a ++ b) = a ++ remove_tags None b.
Proof.
  induction a as [|c a IH]; intros Hlt; [done|].
  apply not_elem_of_cons in Hlt as [Hc Hlt]. simpl.
  destruct (N.eqb_spec c 60); [done|]. by rewrite IH.
Qed.

Lemma remove_tags_text (s : str) : 60%N ∉ s -> remove_tags None s = s.
Proof.
  intros Hlt. rewrite <- (app_nil_r s) at 1.
  rewrite remove_tags_app_text by done. simpl. by rewrite app_nil_r.
Qed.

Lemma remove_tags_pending (run t b : str) :
  62%N ∉ t -> run ++ t <> [] ->
  remove_tags (Some run) (t ++ 62%N :: b) = remove_tags None b.
Proof.
  revert run. induction t as [|c t IH]; intros run Hgt Hne; simpl.
  - rewrite app_nil_r in Hne. by destruct run.
  - apply not_elem_of_cons in Hgt as [Hc Hgt].
    destruct (N.eqb_spec c 62); [done|]. apply IH; [done|].
    rewrite <- app_assoc. simpl. by destruct run.
Qed.

(** X9. [clean_html_content] removes a tag: for text [a] without [<], a
    non-empty tag body [t] without [>] and any rest [b], cleaning
    [a<t>b] is cleaning [ab]. *)
Theorem clean_html_content_removes_tag (a t b : str) :
  60%N ∉ a -> t <> [] -> 62%N ∉ t ->
  clean_html_content (a ++ [60%N] ++ t ++ [62%N] ++ b)
    = clean_html_content (a ++ b).
Proof.
  intros Ha Ht Hgt. unfold clean_html_content. cbv zeta.
  rewrite (remove_tags_app_text a b), (remove_tags_app_text a (_ ++ _)) by done.
  simpl. by rewrite (remove_tags_pending [] t b).
Qed.

Lemma clean_html_content_removes_tag_witness :
  clean_html_content (lit "Hello " ++ [60%N] ++ lit "b class=x" ++ [62%N]
                        ++ lit "world")
    = clean_html_content (lit "Hello " ++ lit "world").
Proof.
  apply clean_html_content_removes_tag.
  - vm_compute. intros Hin. by repeat (apply elem_of_cons in Hin as [Hin|Hin];
      [discriminate Hin|]); apply elem_of_nil in Hin.
  - discriminate.
  - vm_compute. intros Hin. by repeat (apply elem_of_cons in Hin as [Hin|Hin];
      [discriminate Hin|]); apply elem_of_nil in Hin.
Defined.

Lemma collapse_whitespace_id b (s : str) :
  Forall (fun c => isspace c = true -> c = 32%N) s ->
  no_space_runs s = true -> (b = true -> starts_clean s) ->
  collapse_whitespace b s = s.
Proof.
  revert b. induction s as [|c s IH]; intros b Hall Hruns Hb; simpl; [done|].
  apply Forall_cons in Hall as [Hc Hall].
  assert (no_space_runs s = true) as Hruns'.
  { destruct s as [|c2 s]; [done|]. simpl in Hruns.
    by apply andb_prop in Hruns as [_ ?]. }
  destruct (isspace c) eqn:Hsp.
  - destruct b; [specialize (Hb eq_refl); simpl in Hb; congruence|].
    rewrite (Hc eq_refl). f_equal. apply IH; [done|done|]. intros _.
    destruct s as [|c2 s]; [done|]. simpl in Hruns. rewrite Hsp in Hruns.
    simpl in *. destruct (isspace c2); [done|done].
  - f_equal. apply IH; [done|done|done].
Qed.

(** X10. Text that has no [<] and is already single-spaced goes through
    [clean_html_content] unchanged; so cleaning such a text twice is
    cleaning it once. *)
Theorem clean_html_content_fixpoint (s : str) :
  60%N ∉ s -> single_spaced s -> clean_html_content s = s.
Proof.
  intros Hlt (Hall & Hruns & Hstart & Hend). unfold clean_html_content. cbv zeta.
  rewrite remove_tags_text by done.
  rewrite collapse_whitespace_id by done. by apply strip_clean.
Qed.

Lemma clean_html_content_fixpoint_witness :
  clean_html_content (lit "Hello world") = lit "Hello world".
Proof.
  apply clean_html_content_fixpoint.
  - vm_compute. intros Hin. by repeat (apply elem_of_cons in Hin as [Hin|Hin];
      [discriminate Hin|]); apply elem_of_nil in Hin.
  - split_and!; [|reflexivity|reflexivity|reflexivity].
    vm_compute. repeat constructor; discriminate || reflexivity.
Defined.

(** ** Bounds on what extraction returns *)

Lemma extract_text_preview_bounded (content : str) (max_length : Z) :
  3 <= max_length -> len (extract_text_preview content max_length) <= max_length.
Proof.
  intros Hmax. unfold extract_text_preview. cbv zeta.
  by apply truncate_text_length.
Qed.

Section Bounds.
Context `{Env}.

(** X11. Every payload of an entry that is not a redirect has a preview
    of at most 200 characters and, when the configured maximum is at
    least 3, a content of at most that many characters. *)
Theorem extract_from_entry_bounded (entry : Entry) (format_type : str)
    (content_bytes : bytes) :
  is_redirect entry = false -> item_content entry = inr content_bytes ->
  exists info,
    ContentExtractor._extract_from_entry entry format_type = inr info
    /\ len (content_preview info) <= 200
    /\ (3 <= max_content_length config ->
        len (content info) <= max_content_length config).
Proof.
  intros Hred Hitem. unfold ContentExtractor._extract_from_entry.
  rewrite Hitem, Hred. eexists. split; [reflexivity|]. simpl. split.
  - by apply extract_text_preview_bounded.
  - intros Hmax. destruct (Z.gtb_spec (len (ContentExtractor._format_content
        (ContentExtractor._decode_content content_bytes) format_type))
        (max_content_length config)); [|lia].
    by apply truncate_text_length.
Qed.
End Bounds.

Lemma extract_from_entry_bounded_witness :
  exists info,
    ContentExtractor._extract_from_entry (H := Example.env) Example.entry_three
      (lit "text") = inr info
    /\ len (content_preview info) <= 200.
Proof.
  destruct (extract_from_entry_bounded (H := Example.env) Example.entry_three
              (lit "text") [x3c; x62; x3e]%byte)
    as (info & Hinfo & Hpreview & _); [reflexivity|reflexivity|].
  exists info. split; [exact Hinfo|exact Hpreview].
Defined.

(** ** Summaries *)

Lemma len_strip_snoc_space (w : str) : len (strip (w ++ [32%N])) <= len w.
Proof.
  unfold strip.
  destruct (lstrip_suffix (w ++ [32%N])) as [pre Hpre].
  destruct (lstrip (w ++ [32%N])) as [|x z _] using rev_ind.
  { unfold rstrip. simpl. apply len_nonneg. }
  rewrite app_assoc in Hpre. apply app_inj_tail in Hpre as [Hw <-].
  unfold rstrip. rewrite rev_app_distr. simpl.
  change (rev (lstrip (rev z))) with (rstrip z).
  pose proof (prefix_length _ _ (rstrip_prefix z)).
  unfold len. rewrite Hw, length_app. lia.
Qed.

Lemma summary_loop_shape (sentences : list str) (summary : str) (max_length : Z) :
  (summary = [] \/ exists w, summary = w ++ [32%N] /\ len w <= max_length + 1) ->
  summary_loop sentences summary max_length = []
  \/ exists w, summary_loop sentences summary max_length = w ++ [32%N]
               /\ len w <= max_length + 1.
Proof.
  revert summary. induction sentences as [|sentence rest IH];
    intros summary Hs; simpl; [done|].
  destruct (bool_decide (strip sentence = [])); [by apply IH|].
  destruct (Z.gtb_spec (len (summary ++ strip sentence)) max_length); [done|].
  apply IH. right. exists (summary ++ strip sentence ++ [46%N]). split.
  - by rewrite <- !app_assoc.
  - unfold len in *. rewrite !length_app in *. simpl. lia.
Qed.

(** X12. A summary is at most one character longer than [max_length]
    (the full stop that ends its last sentence is not counted by the
    loop), and has no white space at either end. *)
Theorem get_content_summary_bounded (content : str) (max_length : Z) :
  0 <= max_length ->
  len (get_content_summary content max_length) <= max_length + 1
  /\ starts_clean (get_content_summary content max_length)
  /\ starts_clean (rev (get_content_summary content max_length)).
Proof.
  intros Hmax. unfold get_content_summary. cbv zeta.
  split; [|split; [apply strip_starts_clean|apply strip_ends_clean]].
  destruct (summary_loop_shape
              (split_sentences false
                 (if contains_char 60 content && contains_char 62 content
                  then clean_html_content content else content))
              [] max_length (or_introl eq_refl)) as [-> | (w & -> & Hw)].
  - unfold strip, rstrip. simpl. unfold len. simpl. lia.
  - pose proof (len_strip_snoc_space w). lia.
Qed.

Lemma get_content_summary_bounded_witness :
  len (get_content_summary (lit "abc") 3) <= 3 + 1.
Proof. apply (get_content_summary_bounded (lit "abc") 3). lia. Defined.

(** ** Names outside the root *)

Section Confined.
Context `{Env}.
Hypothesis resolve_absolute : forall p, is_absolute (resolve p) = true.

Lemma validate_zim_file_path_outside name root :
  ~ inside (canonical_form resolve name root) (resolve root) ->
  exists msg, validate_zim_file_path resolve name root = inl (ValueError msg).
Proof.
  intros Hout.
  assert (resolve (if negb (is_absolute (Path_of_str name))
                   then joinpath root (Path_of_str name) else Path_of_str name)
          = canonical_form resolve name root) as Hc.
  { unfold canonical_form, joinpath. by destruct (is_absolute (Path_of_str name)). }
  unfold validate_zim_file_path. cbv zeta. rewrite Hc.
  destruct (relative_to_outside _ _ (resolve_absolute root) Hout) as [msg ->].
  by eexists.
Qed.

(** X13. A name whose canonical form lies outside the archive directory
    reaches neither the library nor any cache: every method of the
    manager that takes a file name, and the browsing and extraction
    built on them, answer "nothing" and leave the state as it was. *)
Theorem name_outside_root_is_refused (name : str) (s : State) :
  ~ inside (canonical_form resolve name (zim_files_directory config))
      (resolve (zim_files_directory config)) ->
  ZimManager.get_archive name s = (inr None, s)
  /\ ZimManagerMore.get_zim_file_info name s = (inr None, s)
  /\ ZimManagerMore.validate_zim_file name s = (inr false, s)
  /\ ZimManagerMore.get_random_entry name s = (inr None, s)
  /\ (forall entry_path,
        ZimManager.get_entry_by_path name entry_path s = (inr None, s))
  /\ (forall title,
        ZimManagerMore.get_entry_by_title name title s = (inr None, s))
  /\ (forall path_pattern title_pattern limit,
        SearchEngine.browse_entries_by_pattern name path_pattern title_pattern
          limit s = (inr [], s))
  /\ (forall entry_path format_type,
        ContentExtractor.extract_entry_content name entry_path format_type s
          = (inr None, s)).
Proof.
  intros Hout.
  destruct (validate_zim_file_path_outside _ _ Hout) as [msg Hv].
  assert (ZimManager.get_archive name s = (inr None, s)) as Hga.
  { unfold ZimManager.get_archive, try_except, mbind, Py_bind, bind.
    by rewrite Hv. }
  split_and!; [done| | | | | | |].
  - unfold ZimManagerMore.get_zim_file_info, try_except, mbind, Py_bind, bind.
    by rewrite Hv.
  - unfold ZimManagerMore.validate_zim_file, try_except, mbind, Py_bind, bind.
    by rewrite Hv.
  - unfold ZimManagerMore.get_random_entry, try_except, mbind, Py_bind, bind.
    by rewrite Hga.
  - intros p.
    unfold ZimManager.get_entry_by_path, try_except, mbind, Py_bind, bind.
    by rewrite Hga.
  - intros t.
    unfold ZimManagerMore.get_entry_by_title, try_except, mbind, Py_bind, bind.
    by rewrite Hga.
  - intros pp tp l.
    unfold SearchEngine.browse_entries_by_pattern, try_except, mbind, Py_bind, bind.
    by rewrite Hga.
  - intros p f.
    unfold ContentExtractor.extract_entry_content, try_except, mbind, Py_bind, bind.
    unfold ZimManager.get_entry_by_path, try_except, mbind, Py_bind, bind.
    by rewrite Hga.
Qed.
End Confined.

Lemma name_outside_root_is_refused_witness :
  ZimManager.get_archive (H := Example.env) (lit "../../etc/passwd")
    (@initial_state Example.env) = (inr None, @initial_state Example.env).
Proof.
  refine (proj1 (name_outside_root_is_refused (H := Example.env)
                   (resolve_lexical_absolute []) (lit "../../etc/passwd")
                   (@initial_state Example.env) _)).
  unfold inside. vm_compute. intros [k Hk]. discriminate Hk.
Defined.

(** ** The archive cache *)

Section Archives.
Context `{Env}.

(** X14. An archive is opened once: when [get_archive] returns an
    archive, asking again for the same name returns the same archive
    from the cache, with no call to the library. *)
Theorem get_archive_opens_once (filename : str) (a : Archive) (s s1 : State) :
  LRU.wf (archive_cache s) ->
  ZimManager.get_archive filename s = (inr (Some a), s1) ->
  exists s2,
    ZimManager.get_archive filename s1 = (inr (Some a), s2)
    /\ calls s2 = calls s1
    /\ LRU.cache (archive_cache s2) = LRU.cache (archive_cache s1).
Proof.
  intros Hwf. unfold ZimManager.get_archive, try_except, mbind, Py_bind, bind.
  destruct (validate_zim_file_path resolve filename (zim_files_directory config))
    as [e|p] eqn:Hp; simpl.
  { by destruct (is_OSError_ValueError_RuntimeError e). }
  destruct (path_exists p) eqn:Hex; simpl; [|done].
  unfold zoom at 1.
  destruct (LRU_facts.get_wf (archive_cache s) (path_str p) Hwf)
    as (c & -> & Hwfc & Hc & _).
  assert (forall s1 : State,
            LRU.wf (archive_cache s1) ->
            LRU.cache (archive_cache s1) !! path_str p = Some a ->
            exists s2,
              (let (r, s') := zoom archive_cache set_archive_cache
                                (LRU.get (path_str p)) s1 in
               match r with
               | inl e => (inl e, s')
               | inr (Some archive) => ret (Some archive) s'
               | inr None =>
                   (let (r0, s'0) :=
                      library (CallOpen (path_str p)) (open_archive (path_str p)) s' in
                    match r0 with
                    | inl e => (inl e, s'0)
                    | inr a0 =>
                        (let (r1, s'1) :=
                           zoom archive_cache set_archive_cache
                             (LRU.put (path_str p) a0) s'0 in
                         match r1 with
                         | inl e => (inl e, s'1)
                         | inr _ => ret (Some a0) s'1
                         end)
                    end)
               end) = (inr (Some a), s2)
              /\ calls s2 = calls s1
              /\ LRU.cache (archive_cache s2) = LRU.cache (archive_cache s1))
    as Hagain.
  { intros s' Hwf' Hin. unfold zoom.
    destruct (LRU_facts.get_wf (archive_cache s') (path_str p) Hwf')
      as (c' & -> & _ & Hc' & _).
    rewrite Hin. eexists. split; [reflexivity|]. by destruct s'. }
  destruct (LRU.cache (archive_cache s) !! path_str p) as [a0|] eqn:Hlook; simpl.
  { intros [= <- <-].
    destruct (Hagain (set_archive_cache c s)) as (s2 & Heq & ? & ?).
    - by destruct s.
    - destruct s. simpl. by rewrite Hc.
    - exists s2. split; [|done].
      destruct (zoom _ _ _ _) as [[e|[a'|]] s'] eqn:Hz; simpl in *; by rewrite ?Heq. }
  unfold library, mbind, Py_bind, bind, modify.
  destruct (open_archive (path_str p)) as [e|a0] eqn:Hopen; simpl.
  { by destruct (is_OSError_ValueError_RuntimeError e). }
  unfold zoom at 1. simpl.
  destruct (LRU_facts.put_wf c (path_str p) a0 Hwfc) as (c' & Hput & Hwf' & Hin & _).
  destruct s as [ac fi av sc src cl dr]. simpl in *. rewrite Hput. simpl.
  intros [= <- <-].
  destruct (Hagain (mkState c' fi av sc src (CallOpen (path_str p) :: cl) dr))
    as (s2 & Heq & ? & ?); [done|done|].
  exists s2. split; [|done].
  destruct (zoom _ _ _ _) as [[e|[a'|]] s'] eqn:Hz; simpl in *; by rewrite ?Heq.
Qed.
End Archives.

(** ** Discovery and file information *)

Section Discovery.
Context `{Env}.

Lemma discover_zim_files_known (files : list ZimManagerFileInfo) (s : State) :
  _available_files s = Some files ->
  ZimManager.discover_zim_files false s = (inr files, s).
Proof.
  intros Hav. unfold ZimManager.discover_zim_files, mbind, Py_bind, bind.
  simpl. by rewrite Hav.
Qed.

Lemma discover_zim_files_scan (force_refresh : bool)
    (files : list ZimManagerFileInfo) (s s1 : State) :
  path_exists (zim_files_directory config) = true ->
  ZimManager.discover_zim_files force_refresh s = (inr files, s1) ->
  _available_files s1 = Some files.
Proof.
  intros Hdir. unfold ZimManager.discover_zim_files, mbind, Py_bind, bind.
  simpl. rewrite Hdir. simpl.
  assert (forall r : (exn + list ZimManagerFileInfo) * State,
            (let (r0, s') := r in
             match r0 with
             | inl e => (inl e, s')
             | inr a =>
                 (let (r1, s'0) := modify (set_available_files (Some a)) s' in
                  match r1 with
                  | inl e => (inl e, s'0)
                  | inr _ => ret a s'0
                  end)
             end) = (inr files, s1) -> _available_files s1 = Some files) as Hscan.
  { intros [[e|fs] s']; [done|]. intros [= <- <-]. by destruct s'. }
  destruct (_available_files s) as [fs|] eqn:Hav; [destruct force_refresh|].
  - apply Hscan.
  - intros [= <- <-]. done.
  - apply Hscan.
Qed.

(** X15. Discovery is remembered: once [discover_zim_files] has
    returned a list, a call without [force_refresh] returns that list
    again and changes nothing, so no archive is opened a second time.
    For a forced first call this needs the directory to exist: a forced
    call that finds no directory returns the empty list and leaves the
    list remembered before in place. *)
Theorem discover_zim_files_remembered (force_refresh : bool)
    (files : list ZimManagerFileInfo) (s s1 : State) :
  force_refresh = false \/ path_exists (zim_files_directory config) = true ->
  ZimManager.discover_zim_files force_refresh s = (inr files, s1) ->
  ZimManager.discover_zim_files false s1 = (inr files, s1).
Proof.
  intros Hpre Hfirst.
  destruct (path_exists (zim_files_directory config)) eqn:Hdir.
  - apply discover_zim_files_known.
    by apply (discover_zim_files_scan force_refresh files s s1).
  - destruct Hpre as [->|?]; [|done].
    revert Hfirst.
    unfold ZimManager.discover_zim_files, mbind, Py_bind, bind. simpl.
    destruct (_available_files s) as [fs|] eqn:Hav.
    + intros [= <- <-]. by rewrite Hav.
    + rewrite Hdir. simpl. intros [= <- <-]. by rewrite Hav.
Qed.
End Discovery.

Section FileInfo.
Context `{Env}.

Lemma _get_zim_file_info_cached (p : Path) (info : ZimManagerFileInfo)
    (s s1 : State) :
  ZimManager._get_zim_file_info p s = (inr info, s1) ->
  file_info_cache s1 !! path_name p = Some info.
Proof.
  unfold ZimManager._get_zim_file_info, mbind, Py_bind, bind. simpl.
  destruct (file_info_cache s !! path_name p) as [i|] eqn:Hlook.
  { by intros [= <- <-]. }
  destruct (library _ _ s) as [[e|a] s2]; [done|].
  destruct (lift (stat_size p) s2) as [[e|sz] s3]; [done|].
  destruct (ZimManager.read_metadata a s3) as [[e|md] s4]; [done|].
  simpl. intros [= <- <-]. destruct s4. simpl. apply lookup_insert_eq.
Qed.

(** X16. File information is cached under the base name of the file:
    after [get_zim_file_info] has answered for one file, a request for
    any existing file of the same base name, wherever it lies under the
    root, gets the first file's record back (its path and size
    included), and the library is not asked. *)
Theorem get_zim_file_info_keyed_by_base_name (f g : str) (p q : Path)
    (info : ZimManagerFileInfo) (s s1 : State) :
  validate_zim_file_path resolve f (zim_files_directory config) = inr p ->
  validate_zim_file_path resolve g (zim_files_directory config) = inr q ->
  path_exists q = true ->
  path_name q = path_name p ->
  ZimManagerMore.get_zim_file_info f s = (inr (Some info), s1) ->
  ZimManagerMore.get_zim_file_info g s1 = (inr (Some info), s1).
Proof.
  intros Hp Hq Hex Hname.
  unfold ZimManagerMore.get_zim_file_info, try_except, mbind, Py_bind, bind.
  rewrite Hp, Hq. simpl. rewrite Hex. simpl.
  destruct (path_exists p); simpl; [|done].
  destruct (ZimManager._get_zim_file_info p s) as [[e|i] s'] eqn:Hfirst.
  { by destruct (is_OSError_ValueError_RuntimeError e). }
  simpl. intros [= <- <-].
  apply _get_zim_file_info_cached in Hfirst.
  unfold ZimManager._get_zim_file_info, mbind, Py_bind, bind. simpl.
  by rewrite Hname, Hfirst.
Qed.
End FileInfo.

(** ** Which names are usable *)

Section Usable.
Context `{Env}.
Hypothesis library_ok : library_raises_declared.

Lemma validate_zim_file_ok (filename : str) (s : State) :
  state_ok s ->
  exists b s',
    ZimManagerMore.validate_zim_file filename s = (inr b, s')
    /\ state_ok s'
    /\ (b = true <-> exists a, opens filename a).
Proof.
  intros Hs.
  unfold ZimManagerMore.validate_zim_file, try_except, mbind, Py_bind, bind.
  destruct (validate_zim_file_path resolve filename (zim_files_directory config))
    as [e|p] eqn:Hp; simpl.
  { destruct (validate_zim_file_path_raises _ _ _ Hp) as [msg ->]. simpl.
    exists false, s. split_and!; [done|done|]. split; [done|].
    intros (a & q & Hq & _). congruence. }
  destruct (path_exists p) eqn:Hex; simpl.
  2:{ exists false, s. split_and!; [done|done|]. split; [done|].
      intros (a & q & Hq & Hex' & _). congruence. }
  destruct (get_archive_ok library_ok filename s Hs)
    as (oa & s' & -> & Hs' & _ & Hsome & Hall).
  simpl. destruct oa as [a|].
  - exists true, s'. split_and!; [done|done|]. split; [|done].
    intros _. exists a. by apply Hsome.
  - exists false, s'. split_and!; [done|done|]. split; [done|].
    intros (a & Ha). by specialize (Hall a Ha).
Qed.

(** X17. In a sound state [validate_zim_file] returns, and answers
    true exactly for the names that lie inside the root, exist, and
    that the library opens; the state stays sound. *)
Theorem validate_zim_file_opens (filename : str) (s : State) :
  state_ok s ->
  exists b s',
    ZimManagerMore.validate_zim_file filename s = (inr b, s')
    /\ state_ok s'
    /\ (b = true <-> exists a, opens filename a).
Proof. apply validate_zim_file_ok. Qed.
End Usable.

(** ** Browsing *)

Section Browse.
Context `{Env}.

(** What [browse_entries_by_pattern] promises of a result. *)
Lemma browse_loop_bounds attempts name archive pp tp limit results count s :
  count = len results ->
  Forall (fun r => zim_file r = name
                   /\ SearchEngine.pattern_rejects pp (result_path r) = false
                   /\ SearchEngine.pattern_rejects tp (result_title r) = false)
    results ->
  let out := SearchEngine.browse_loop attempts name archive pp tp limit
               results count s in
  (draws s <= draws out.2 <= draws s + attempts)%nat
  /\ forall rs, out.1 = inr rs ->
       len rs <= Z.max limit (len results)
       /\ Forall (fun r => zim_file r = name
                   /\ SearchEngine.pattern_rejects pp (result_path r) = false
                   /\ SearchEngine.pattern_rejects tp (result_title r) = false)
            rs.
Proof.
  revert results count s.
  induction attempts as [|n IH]; intros results count s Hcount Hres; simpl.
  { split; [lia|]. intros rs [= <-]. split; [lia|done]. }
  destruct (Z.geb_spec count limit) as [Hge|Hlt].
  { simpl. split; [lia|]. intros rs [= <-]. split; [lia|done]. }
  unfold mbind at 1. unfold Py_bind, bind.
  unfold try_except, mbind, Py_bind, bind, library, modify, state. simpl.
  destruct (get_random_entry archive (draws s)) as [e|entry]; simpl.
  - destruct (is_KeyError_ValueError_RuntimeError e); simpl.
    + specialize (IH results count
                    (set_calls (CallRandomEntry (archive_path archive)
                                  :: calls (set_draws (S (draws s)) s))
                       (set_draws (S (draws s)) s)) Hcount Hres).
      simpl in IH. destruct IH as [Hd IH]. split; [|done].
      destruct s; simpl in *. lia.
    + split; [destruct s; simpl; lia|done].
  - destruct (negb (SearchEngine.pattern_rejects pp (path entry))
              && negb (SearchEngine.pattern_rejects tp (title entry))) eqn:Hm;
      simpl.
    + apply andb_true_iff in Hm as [Hm1 Hm2].
      apply negb_true_iff in Hm1, Hm2.
      match goal with
      | |- context [SearchEngine.browse_loop n _ _ _ _ _ ?r ?c ?s'] =>
          specialize (IH r c s')
      end.
      simpl in IH. destruct IH as [Hd IH].
      * unfold len. rewrite length_app. simpl. unfold len in Hcount. lia.
      * apply Forall_app. split; [done|]. by repeat constructor.
      * split; [destruct s; simpl in *; lia|].
        intros rs Hrs. destruct (IH rs Hrs) as [Hlen Hall]. split; [|done].
        unfold len in *. rewrite length_app in Hlen. simpl in Hlen. lia.
    + match goal with
      | |- context [SearchEngine.browse_loop n _ _ _ _ _ ?r ?c ?s'] =>
          specialize (IH r c s' Hcount Hres)
      end.
      simpl in IH. destruct IH as [Hd IH]. split; [|done].
      destruct s; simpl in *. lia.
Qed.

Lemma browse_entries_by_pattern_results (name : str)
    (path_pattern title_pattern : option str) (limit : Z) (s : State) :
  let out := SearchEngine.browse_entries_by_pattern name path_pattern
               title_pattern limit s in
  (draws s <= draws out.2 <= draws s + Z.to_nat (limit * 5))%nat
  /\ forall rs, out.1 = inr rs ->
       len rs <= Z.max 0 limit
       /\ Forall (fun r =>
                    zim_file r = name
                    /\ SearchEngine.pattern_rejects path_pattern (result_path r)
                       = false
                    /\ SearchEngine.pattern_rejects title_pattern (result_title r)
                       = false) rs.
Proof.
  cbv zeta.
  unfold SearchEngine.browse_entries_by_pattern, try_except, mbind, Py_bind, bind.
  pose proof (untouched_get_archive draws ltac:(by intros ? [])
                ltac:(by intros ? []) name s) as Hd.
  destruct (ZimManager.get_archive name s) as [[e|[a|]] s1]; simpl in Hd.
  - destruct (is_OSError_ValueError_RuntimeError e); simpl; rewrite Hd.
    + split; [lia|]. intros rs [= <-]. split; [unfold len; simpl; lia|done].
    + split; [lia|done].
  - pose proof (browse_loop_bounds (Z.to_nat (limit * 5)) name a
                  path_pattern title_pattern limit [] 0 s1 eq_refl
                  ltac:(constructor)) as [Hdr Hrs].
    rewrite Hd in Hdr.
    destruct (SearchEngine.browse_loop _ _ _ _ _ _ _ _ s1) as [[e|rs] s2];
      simpl in *.
    + destruct (is_OSError_ValueError_RuntimeError e); simpl.
      * split; [lia|]. intros rs [= <-]. split; [unfold len; simpl; lia|done].
      * split; [lia|done].
    + split; [lia|]. intros rs' [= <-].
      destruct (Hrs rs eq_refl) as [Hlen Hall]. split; [|done].
      unfold len in *. simpl in *. lia.
  - simpl. rewrite Hd. split; [lia|]. intros rs [= <-].
    split; [unfold len; simpl; lia|done].
Qed.

(** X18. [browse_entries_by_pattern] returns at most [limit] results
    (none when [limit] is not positive), each of the requested archive
    and passing both patterns, and draws at most [5 * limit] random
    entries whatever the outcome. *)
Theorem browse_entries_by_pattern_bounds (name : str)
    (path_pattern title_pattern : option str) (limit : Z) (s : State)
    (rs : list SearchEngineResult) (s' : State) :
  SearchEngine.browse_entries_by_pattern name path_pattern title_pattern limit s
    = (inr rs, s') ->
  len rs <= Z.max 0 limit
  /\ Forall (fun r =>
               zim_file r = name
               /\ SearchEngine.pattern_rejects path_pattern (result_path r)
                  = false
               /\ SearchEngine.pattern_rejects title_pattern (result_title r)
                  = false) rs
  /\ (draws s <= draws s' <= draws s + Z.to_nat (limit * 5))%nat.
Proof.
  intros Hcall.
  pose proof (browse_entries_by_pattern_results name path_pattern title_pattern
                limit s) as Hres.
  cbv zeta in Hres. rewrite Hcall in Hres. simpl in Hres.
  destruct Hres as [Hd Hrs]. destruct (Hrs rs eq_refl) as [Hlen Hall].
  split; [exact Hlen|]. split; [exact Hall|exact Hd].
Qed.
End Browse.

(** ** A page of a multi-archive search *)

Lemma Forall_sublist {A} (P : A -> Prop) (l k : list A) :
  k `sublist_of` l -> Forall P l -> Forall P k.
Proof.
  intros Hsub. induction Hsub as [|x k l Hsub IH|x k l Hsub IH]; intros Hl.
  - constructor.
  - apply Forall_cons in Hl as [Hx Hl]. constructor; [done|by apply IH].
  - apply Forall_cons in Hl as [_ Hl]. by apply IH.
Qed.

Lemma StronglySorted_sublist {A} (R : A -> A -> Prop) (l k : list A) :
  k `sublist_of` l -> StronglySorted R l -> StronglySorted R k.
Proof.
  intros Hsub. induction Hsub as [|x k l Hsub IH|x k l Hsub IH]; intros Hs.
  - constructor.
  - apply StronglySorted_inv in Hs as [Hs Hall]. constructor; [by apply IH|].
    by eapply Forall_sublist.
  - apply StronglySorted_inv in Hs as [Hs _]. by apply IH.
Qed.

Lemma slice_sublist {A} (l : list A) (lo hi : Z) : slice l lo hi `sublist_of` l.
Proof.
  unfold slice. etrans; [apply sublist_take|apply sublist_drop].
Qed.

(** A slice of [count] elements from any offset, negative ones
    included, has at most [count] elements. *)
Lemma slice_window {A} (l : list A) (start count : Z) :
  0 <= count -> len (slice l start (start + count)) <= count.
Proof.
  intros Hc. unfold slice, slice_bound, len.
  rewrite length_take, length_drop.
  destruct (Z.ltb_spec start 0), (Z.ltb_spec (start + count) 0); lia.
Qed.

Section Page.
Context `{Env}.

Lemma collect_results_Forall (P : SearchEngineResult -> Prop) f archive
    result_set s rs :
  (forall p t b, P (SearchEngineResult_new f p t b)) ->
  (SearchEngine.collect_results f archive result_set s).1 = inr rs ->
  Forall P rs.
Proof.
  intros HP. unfold SearchEngine.collect_results.
  apply (for_acc_invariant (Forall P)); [|constructor].
  intros acc x s0 Hacc acc'. unfold try_except, mbind, Py_bind, bind.
  destruct archive as [a|]; simpl.
  - unfold library, mbind, Py_bind, bind, modify.
    destruct (get_entry_by_path a x) as [e|entry]; simpl.
    + destruct (is_KeyError_ValueError_RuntimeError e); simpl; [|done].
      by intros [= <-].
    + intros [= <-]. apply Forall_app. split; [done|]. by repeat constructor.
  - done.
Qed.

Lemma search_single_zim_Forall (P : SearchEngineResult -> Prop) f query
    max_results start_offset s rs :
  (forall p t b, P (SearchEngineResult_new f p t b)) ->
  (SearchEngine.search_single_zim f query max_results start_offset s).1 = inr rs ->
  Forall P rs.
Proof.
  intros HP.
  unfold SearchEngine.search_single_zim, try_except, mbind, Py_bind, bind.
  destruct (lift (validate_search_query query) s) as [[e|clean_query] s0].
  { destruct (is_OSError_ValueError_RuntimeError e); simpl; [|done].
    intros [= <-]. constructor. }
  destruct (SearchEngine._get_searcher f s0) as [[e|[searcher|]] s1].
  - destruct (is_OSError_ValueError_RuntimeError e); simpl; [|done].
    intros [= <-]. constructor.
  - destruct (library _ _ s1) as [[e|result_set] s2].
    { destruct (is_OSError_ValueError_RuntimeError e); simpl; [|done].
      intros [= <-]. constructor. }
    destruct (ZimManager.get_archive f s2) as [[e|archive] s3].
    { destruct (is_OSError_ValueError_RuntimeError e); simpl; [|done].
      intros [= <-]. constructor. }
    pose proof (collect_results_Forall P f archive result_set s3) as Hc.
    destruct (SearchEngine.collect_results f archive result_set s3)
      as [[e|rs'] s4]; simpl in *.
    + destruct (is_OSError_ValueError_RuntimeError e); simpl; [|done].
      intros [= <-]. constructor.
    + intros [= <-]. by apply Hc.
  - simpl. intros [= <-]. constructor.
Qed.

Lemma search_each_Forall (P : SearchEngineResult -> Prop) zim_files query
    max_results s rs :
  (forall f p t b, f ∈ zim_files -> P (SearchEngineResult_new f p t b)) ->
  (SearchEngine.search_each zim_files query max_results s).1 = inr rs ->
  Forall P rs.
Proof.
  unfold SearchEngine.search_each.
  assert (forall acc, Forall P acc ->
            (forall f p t b, f ∈ zim_files -> P (SearchEngineResult_new f p t b)) ->
            (for_acc zim_files acc
               (fun all_results zim_file =>
                  file_results ← SearchEngine.search_single_zim zim_file query
                                   max_results 0 ;
                  ret (all_results ++ file_results)) s).1 = inr rs ->
            Forall P rs) as Hgen; [|by apply Hgen].
  revert s. induction zim_files as [|f fs IH]; intros s acc Hacc HP; simpl.
  { by intros [= <-]. }
  unfold mbind at 1. unfold Py_bind, bind. unfold mbind at 1. unfold Py_bind, bind.
  pose proof (search_single_zim_Forall P f query max_results 0 s) as Hone.
  destruct (SearchEngine.search_single_zim f query max_results 0 s)
    as [[e|hits] s1]; simpl in *; [done|].
  apply IH.
  - apply Forall_app. split; [done|]. apply Hone; [|done].
    intros p t b. apply HP. by left.
  - intros g p t b Hg. apply HP. by right.
Qed.

Lemma search_each_silent zim_files query max_results :
  silent is_OSError_ValueError_RuntimeError
    (SearchEngine.search_each zim_files query max_results).
Proof.
  intros s e. unfold SearchEngine.search_each.
  rewrite for_acc_gather. unfold mbind, Py_bind, bind.
  destruct (Reference.gather _ zim_files s) as [[e'|hits] s'] eqn:Hg; [|done].
  simpl. intros [= <-].
  apply (gather_silent _ _ zim_files
           (fun f => search_single_zim_silent f query max_results 0) s).
  by rewrite Hg.
Qed.

(** What a call that misses the cache returns: a slice of the sorted
    concatenation of the per-archive results. *)
Lemma search_multiple_zim_miss_shape (zim_files : list str)
    (query clean_query : str) (max_results start_offset : Z)
    (s s1 : State) (rs : list SearchEngineResult) :
  validate_search_query query = inr clean_query ->
  LRU.cache (search_cache s)
    !! SearchEngine.search_cache_key zim_files clean_query max_results
         start_offset = None ->
  SearchEngine.search_multiple_zim zim_files query max_results start_offset s
    = (inr rs, s1) ->
  exists all_results sa,
    SearchEngine.search_each zim_files clean_query max_results s
      = (inr all_results, sa)
    /\ rs = slice (sort_by_key (fun r => len (result_title r)) all_results)
              start_offset (start_offset + max_results).
Proof.
  intros Hv Hmiss. unfold SearchEngine.search_multiple_zim.
  unfold try_except, mbind, Py_bind, bind. rewrite Hv. simpl.
  unfold zoom at 1. rewrite (LRU_facts.get_miss _ _ Hmiss), state_eta.
  assert ((if enable_parallel_search config && (len zim_files >? 1)
           then SearchEngine.search_each zim_files clean_query max_results
           else SearchEngine.search_each zim_files clean_query max_results)
          = SearchEngine.search_each zim_files clean_query max_results) as ->.
  { by destruct (_ && _). }
  pose proof (keeps_search_each zim_files clean_query max_results s) as Hk.
  pose proof (search_each_silent zim_files clean_query max_results s) as Hsil.
  destruct (SearchEngine.search_each zim_files clean_query max_results s)
    as [[e|all_results] sa]; simpl in Hk, Hsil.
  { by rewrite (Hsil e eq_refl). }
  unfold zoom. rewrite <- Hk in Hmiss.
  destruct (LRU_facts.put_new_outcome (search_cache sa) _
              (slice (sort_by_key (fun r => len (result_title r)) all_results)
                 start_offset (start_offset + max_results)) Hmiss)
    as [(c & -> & _)|[(c & ->)|(c & ->)]]; simpl; [|done|done].
  intros [= <- <-]. by eexists _, _.
Qed.
End Page.

Section PageFacts.
Context `{Env}.

(** X19. A page computed on a miss, for a count that is not negative
    and any offset (negative ones count from the end, as slices do),
    has at most [max_results] hits, in ascending order of title length,
    and every hit names one of the requested archives. *)
Theorem search_multiple_zim_page (zim_files : list str)
    (query clean_query : str) (max_results start_offset : Z)
    (s s1 : State) (rs : list SearchEngineResult) :
  validate_search_query query = inr clean_query ->
  LRU.cache (search_cache s)
    !! SearchEngine.search_cache_key zim_files clean_query max_results
         start_offset = None ->
  0 <= max_results ->
  SearchEngine.search_multiple_zim zim_files query max_results start_offset s
    = (inr rs, s1) ->
  len rs <= max_results
  /\ StronglySorted
       (fun r1 r2 => len (result_title r1) <= len (result_title r2)) rs
  /\ Forall (fun r => zim_file r ∈ zim_files) rs.
Proof.
  intros Hv Hmiss Hmax Hcall.
  destruct (search_multiple_zim_miss_shape _ _ _ _ _ _ _ _ Hv Hmiss Hcall)
    as (all_results & sa & Heach & ->).
  split_and!.
  - by apply slice_window.
  - eapply StronglySorted_sublist; [apply slice_sublist|].
    apply (sort_by_key_sorted (fun r => len (result_title r))).
  - eapply Forall_sublist; [apply slice_sublist|].
    rewrite sort_by_key_perm.
    apply (search_each_Forall _ zim_files clean_query max_results s); [done|].
    by rewrite Heach.
Qed.
End PageFacts.

(** ** The order of the archive list *)

Lemma str_le_total (a b : str) : str_le a b = true \/ str_le b a = true.
Proof.
  revert b. induction a as [|x a IH]; intros [|y b]; simpl; auto.
  destruct (N.ltb_spec x y); [by left|].
  destruct (N.ltb_spec y x); [by right|].
  assert (x = y) as -> by lia. rewrite N.eqb_refl. simpl. apply IH.
Qed.

Lemma str_le_trans (a b c : str) :
  str_le a b = true -> str_le b c = true -> str_le a c = true.
Proof.
  revert b c. induction a as [|x a IH]; intros [|y b] [|z c]; simpl; try done.
  rewrite !orb_true_iff, !andb_true_iff, !N.ltb_lt, !N.eqb_eq.
  intros [Hxy|[-> Hab]] [Hyz|[-> Hbc]].
  - left. lia.
  - by left.
  - by left.
  - right. split; [done|]. by apply (IH b).
Qed.

Lemma str_le_antisym (a b : str) :
  str_le a b = true -> str_le b a = true -> a = b.
Proof.
  revert b. induction a as [|x a IH]; intros [|y b]; simpl; try done.
  rewrite !orb_true_iff, !andb_true_iff, !N.ltb_lt, !N.eqb_eq.
  intros [Hxy|[-> Hab]] [Hyx|[Heq Hba]]; try lia.
  f_equal. by apply IH.
Qed.

(** [sorted] does not depend on the order of its argument. *)
Lemma sorted_strs_Permutation (xs ys : list str) :
  xs ≡ₚ ys -> sorted_strs xs = sorted_strs ys.
Proof.
  intros Hp. unfold sorted_strs.
  apply (StronglySorted_unique_strong (fun a b => str_le a b = true)).
  - intros a b _ _. apply str_le_antisym.
  - apply stable_sort_sorted; [apply str_le_total|apply str_le_trans].
  - apply stable_sort_sorted; [apply str_le_total|apply str_le_trans].
  - by rewrite !stable_sort_perm.
Qed.

Section Order.
Context `{Env}.

Lemma search_multiple_zim_stores (zim_files : list str)
    (query clean_query : str) (max_results start_offset : Z) (s s1 : State)
    (results : list SearchEngineResult) :
  validate_search_query query = inr clean_query ->
  LRU.wf (search_cache s) ->
  SearchEngine.search_multiple_zim zim_files query max_results start_offset s
    = (inr results, s1) ->
  LRU.wf (search_cache s1)
  /\ LRU.cache (search_cache s1)
       !! SearchEngine.search_cache_key zim_files clean_query max_results
            start_offset = Some results.
Proof.
  intros Hv Hwf Hfirst.
  set (key := SearchEngine.search_cache_key zim_files clean_query max_results
                start_offset).
  destruct (LRU.cache (search_cache s) !! key) as [rs|] eqn:Hlook.
  - destruct (search_multiple_zim_hit zim_files query clean_query max_results
                start_offset rs s Hv Hwf Hlook) as (c & Hcall & Hwfc & Hc).
    rewrite Hcall in Hfirst. injection Hfirst as <- <-.
    destruct s. simpl in *. split; [done|]. by rewrite Hc.
  - revert Hfirst. unfold SearchEngine.search_multiple_zim.
    unfold try_except, mbind, Py_bind, bind. rewrite Hv. simpl. fold key.
    unfold zoom at 1. rewrite (LRU_facts.get_miss key _ Hlook), state_eta.
    assert ((if enable_parallel_search config && (len zim_files >? 1)
             then SearchEngine.search_each zim_files clean_query max_results
             else SearchEngine.search_each zim_files clean_query max_results)
            = SearchEngine.search_each zim_files clean_query max_results) as ->.
    { by destruct (_ && _). }
    pose proof (keeps_search_each zim_files clean_query max_results s) as Hk.
    pose proof (search_each_silent zim_files clean_query max_results s) as Hsil.
    destruct (SearchEngine.search_each zim_files clean_query max_results s)
      as [[e|all_results] sa] eqn:Hloop; simpl in Hk, Hsil.
    { by rewrite (Hsil e eq_refl). }
    unfold zoom.
    assert (LRU.wf (search_cache sa)) as Hwfa by (by rewrite Hk).
    destruct (LRU_facts.put_wf (search_cache sa) key
                (slice (sort_by_key (fun r => len (result_title r)) all_results)
                   start_offset (start_offset + max_results)) Hwfa)
      as (c & -> & Hwfc & Hc & _).
    intros [= <- <-]. by destruct sa.
Qed.

(** X20. The result cache does not look at the order of the archive
    list: once a call has returned a page, the same request with the
    archives listed in any other order gets that page from the cache,
    and the library is not asked. *)
Theorem search_multiple_zim_any_order (zim_files zim_files' : list str)
    (query : str) (max_results start_offset : Z) (s s1 : State)
    (results : list SearchEngineResult) :
  zim_files ≡ₚ zim_files' ->
  LRU.wf (search_cache s) ->
  SearchEngine.search_multiple_zim zim_files query max_results start_offset s
    = (inr results, s1) ->
  exists s2,
    SearchEngine.search_multiple_zim zim_files' query max_results start_offset s1
      = (inr results, s2)
    /\ calls s2 = calls s1
    /\ archive_cache s2 = archive_cache s1
    /\ LRU.cache (search_cache s2) = LRU.cache (search_cache s1).
Proof.
  intros Hperm Hwf Hfirst.
  destruct (validate_search_query query) as [e|clean_query] eqn:Hv.
  { rewrite (search_multiple_zim_invalid _ _ _ _ e) in Hfirst by done.
    injection Hfirst as <- <-. exists s.
    by rewrite (search_multiple_zim_invalid _ _ _ _ e). }
  destruct (search_multiple_zim_stores _ _ _ _ _ _ _ _ Hv Hwf Hfirst)
    as [Hwf1 Hin1].
  assert (SearchEngine.search_cache_key zim_files clean_query max_results
            start_offset
          = SearchEngine.search_cache_key zim_files' clean_query max_results
              start_offset) as Hkey.
  { unfold SearchEngine.search_cache_key.
    by rewrite (sorted_strs_Permutation _ _ Hperm). }
  rewrite Hkey in Hin1.
  destruct (search_multiple_zim_hit zim_files' query clean_query max_results
              start_offset results s1 Hv Hwf1 Hin1) as (c & Hcall & _ & Hc).
  exists (set_search_cache c s1). split; [done|]. by destruct s1.
Qed.
End Order.

(** ** The size of the caches *)

Lemma LRUCache_put_max_size {K} `{Countable K} {V} (key : K) (value : V)
    (c : LRU.LRUCache K V) :
  LRU.max_size (LRU.put key value c).2 = LRU.max_size c.
Proof.
  unfold LRU.put, mbind, Py_bind, bind, state.
  destruct (LRU.cache c !! key).
  - unfold modify, LRU.access_order_remove, mbind, Py_bind, bind, state. simpl.
    by destruct (LRU.list_remove key (LRU.access_order c)).
  - destruct (Z.of_nat (base.size (LRU.cache c)) >=? LRU.max_size c); [|done].
    unfold LRU.access_order_pop0, mbind, Py_bind, bind, state.
    destruct (LRU.access_order c) as [|oldest rest]; simpl; [done|].
    unfold LRU.cache_del, mbind, Py_bind, bind, state. simpl.
    by destruct (LRU.cache c !! oldest).
Qed.

Section Capacity.
Context `{Env}.

Lemma capacities_archive_get k :
  untouched capacities (zoom archive_cache set_archive_cache (LRU.get k)).
Proof.
  intros s. unfold zoom, capacities.
  pose proof (LRU_facts.get_max_size (archive_cache s) k) as Hm.
  destruct (LRU.get k (archive_cache s)) as [r c]. simpl in *.
  destruct s. simpl in *. by rewrite Hm.
Qed.

Lemma capacities_archive_put k v :
  untouched capacities (zoom archive_cache set_archive_cache (LRU.put k v)).
Proof.
  intros s. unfold zoom, capacities.
  pose proof (LRUCache_put_max_size k v (archive_cache s)) as Hm.
  destruct (LRU.put k v (archive_cache s)) as [r c]. simpl in *.
  destruct s. simpl in *. by rewrite Hm.
Qed.

Lemma capacities_search_get k :
  untouched capacities (zoom search_cache set_search_cache (LRU.get k)).
Proof.
  intros s. unfold zoom, capacities.
  pose proof (LRU_facts.get_max_size (search_cache s) k) as Hm.
  destruct (LRU.get k (search_cache s)) as [r c]. simpl in *.
  destruct s. simpl in *. by rewrite Hm.
Qed.

Lemma capacities_search_put k v :
  untouched capacities (zoom search_cache set_search_cache (LRU.put k v)).
Proof.
  intros s. unfold zoom, capacities.
  pose proof (LRUCache_put_max_size k v (search_cache s)) as Hm.
  destruct (LRU.put k v (search_cache s)) as [r c]. simpl in *.
  destruct s. simpl in *. by rewrite Hm.
Qed.

Ltac capacities_step :=
  first
    [ apply untouched_ret | apply untouched_mret | apply untouched_raise
    | apply untouched_state | apply untouched_lift
    | apply untouched_library; by intros ? []
    | apply capacities_archive_get | apply capacities_archive_put
    | apply capacities_search_get | apply capacities_search_put
    | apply untouched_modify; by intros []
    | apply untouched_bind; [|intros ?]
    | apply untouched_try_except; [|intros ?]
    | apply untouched_for_acc; intros ? ?
    | match goal with
      | |- untouched _ (match ?x with _ => _ end) => destruct x
      | |- untouched _ (let _ := _ in _) => cbv zeta
      end ].
Ltac capacities_tac := repeat capacities_step.

Lemma capacities_get_archive filename :
  untouched capacities (ZimManager.get_archive filename).
Proof. unfold ZimManager.get_archive. capacities_tac. Qed.

Lemma capacities__get_searcher zim_file :
  untouched capacities (SearchEngine._get_searcher zim_file).
Proof.
  unfold SearchEngine._get_searcher. capacities_tac.
  all: try apply capacities_get_archive. all: capacities_tac.
Qed.

Lemma capacities_search_single_zim zim_file query max_results start_offset :
  untouched capacities
    (SearchEngine.search_single_zim zim_file query max_results start_offset).
Proof.
  unfold SearchEngine.search_single_zim. capacities_tac.
  all: try apply capacities__get_searcher. all: capacities_tac.
  all: try apply capacities_get_archive. all: capacities_tac.
  all: apply untouched_collect_results; by intros ? [].
Qed.

Lemma capacities_search_multiple_zim zim_files query max_results start_offset :
  untouched capacities
    (SearchEngine.search_multiple_zim zim_files query max_results start_offset).
Proof.
  unfold SearchEngine.search_multiple_zim, SearchEngine.search_each.
  capacities_tac.
  all: try apply capacities_search_single_zim. all: capacities_tac.
Qed.

Lemma capacities_serve req : untouched capacities (serve req).
Proof.
  destruct req as [f q m o|fs q m o|q m o|f pp tp l|]; simpl.
  - apply capacities_search_single_zim.
  - apply capacities_search_multiple_zim.
  - unfold SearchEngine.search_all_zim_files. capacities_tac.
    all: first [ apply capacities_search_multiple_zim
               | apply untouched_discover_zim_files; by intros ? [] ].
  - unfold SearchEngine.browse_entries_by_pattern. capacities_tac.
    all: first [ apply capacities_get_archive
               | apply untouched_browse_loop; by intros ? [] ].
  - unfold SearchEngine.clear_caches. capacities_tac.
    all: intros s; by destruct s.
Qed.

Lemma capacities_after reqs s : capacities (after reqs s) = capacities s.
Proof.
  revert s. induction reqs as [|req reqs IH]; intros s; simpl; [done|].
  rewrite IH. apply capacities_serve.
Qed.

(** X21. The caches stay within their configured sizes: after any
    sequence of requests to a process whose cache sizes are at least 1,
    the archive cache holds at most [archive_cache_size] open archives
    and the result cache at most [search_cache_size] pages. *)
Theorem caches_stay_within_capacity (reqs : list request) :
  library_raises_declared ->
  1 <= archive_cache_size config -> 1 <= search_cache_size config ->
  Z.of_nat (base.size (LRU.cache (archive_cache (after reqs initial_state))))
    <= archive_cache_size config
  /\ Z.of_nat (base.size (LRU.cache (search_cache (after reqs initial_state))))
       <= search_cache_size config.
Proof.
  intros Hlib Ha Hs.
  pose proof (state_ok_after Hlib reqs Ha Hs) as Hok.
  pose proof (capacities_after reqs initial_state) as Hcap.
  unfold capacities in Hcap. simpl in Hcap. injection Hcap as Hca Hcs.
  destruct Hok as [Hwfs Hwfa _ _].
  rewrite (LRU_facts.wf_size _ Hwfa), (LRU_facts.wf_size _ Hwfs).
  destruct Hwfa as [_ _ _ Hba]. destruct Hwfs as [_ _ _ Hbs].
  unfold len in *. lia.
Qed.
End Capacity.

(** ** The tools of the server *)

Section Tools.
Context `{Env}.

(** X22. With an explicit, non-empty list of archives: page
    parameters that are out of range are answered with the error
    response, and nothing is searched or cached. Whenever
    [search_zim_files] answers, the answer is an error exactly in that
    case; every failure below it is reported as a success, so a query
    that the validation rejects gives a successful answer with no
    results and an unchanged state; and [has_more] is set exactly when
    a successful answer has [max_results] results. In a sound state,
    with a library that raises what is expected of it, the tool always
    answers and leaves the state sound. *)
Theorem search_zim_files_status (query f : str) (fs : list str)
    (max_results start_offset : Z) (s : State) :
  (max_results <= 0 \/ max_search_results config < max_results
   \/ start_offset < 0 ->
   Server.search_zim_files query (Some (f :: fs)) max_results start_offset s
     = (inr (Server.search_error query max_results start_offset), s))
  /\ (forall resp s',
        Server.search_zim_files query (Some (f :: fs)) max_results
          start_offset s = (inr resp, s') ->
        search_count resp = len (search_results resp)
        /\ (search_status resp = lit "error"
            <-> max_results <= 0 \/ max_search_results config < max_results
                \/ start_offset < 0)
        /\ (search_status resp <> lit "error" ->
            forall e, validate_search_query query = inl e ->
            search_results resp = [] /\ s' = s)
        /\ (has_more (pagination resp) = true
            <-> search_status resp = lit "success"
                /\ search_count resp = max_results))
  /\ (library_raises_declared -> state_ok s ->
      exists resp s',
        Server.search_zim_files query (Some (f :: fs)) max_results
          start_offset s = (inr resp, s')
        /\ state_ok s').
Proof.
  assert (forall resp : SearchResponse,
            resp = Server.search_error query max_results start_offset ->
            max_results <= 0 \/ max_search_results config < max_results
            \/ start_offset < 0 ->
            search_count resp = len (search_results resp)
            /\ (search_status resp = lit "error"
                <-> max_results <= 0 \/ max_search_results config < max_results
                    \/ start_offset < 0)
            /\ (search_status resp <> lit "error" ->
                forall e, validate_search_query query = inl e ->
                search_results resp = [] /\ s = s)
            /\ (has_more (pagination resp) = true
                <-> search_status resp = lit "success"
                    /\ search_count resp = max_results)) as Herror.
  { intros resp -> Hbad. split_and!; [done|done|done|].
    split; [done|]. by intros [[=] _]. }
  unfold Server.search_zim_files, try_except, mbind, Py_bind, bind.
  destruct (Z.leb_spec max_results 0) as [Hle|Hpos]; simpl.
  { split_and!; [done| |intros _ Hs; by eexists _, _].
    intros resp s' [= <- <-]. apply Herror; [done|by left]. }
  destruct (Z.gtb_spec max_results (max_search_results config)) as [Hgt|Hok];
    simpl.
  { split_and!; [done| |intros _ Hs; by eexists _, _].
    intros resp s' [= <- <-]. apply Herror; [done|right; left; lia]. }
  destruct (Z.ltb_spec start_offset 0) as [Hneg|Hoff]; simpl.
  { split_and!; [done| |intros _ Hs; by eexists _, _].
    intros resp s' [= <- <-]. apply Herror; [done|by right; right]. }
  split_and!.
  - lia.
  - pose proof (fun e => search_multiple_zim_invalid (f :: fs) query max_results
                           start_offset e s) as Hinv.
    assert (forall e s1,
              SearchEngine.search_multiple_zim (f :: fs) query max_results
                start_offset s = (inl e, s1) ->
              is_OSError_ValueError_RuntimeError e = false) as Hsilent.
    { intros e s1 Hcall. unfold SearchEngine.search_multiple_zim in Hcall.
      eapply (silent_try_except _ _ _ s). by rewrite Hcall. }
    destruct (SearchEngine.search_multiple_zim (f :: fs) query max_results
                start_offset s) as [[e|rs] s1] eqn:Hcall; simpl.
    { by rewrite (Hsilent e s1 eq_refl). }
    intros resp s' [= <- <-]. simpl. split_and!; [done| | |].
    + split; [intros [=]|lia].
    + intros _ e He. specialize (Hinv e He). by injection Hinv as -> ->.
    + unfold len. rewrite length_map, Z.eqb_eq. split; [done|by intros [_ ?]].
  - intros Hlib Hs.
    destruct (search_multiple_zim_ok Hlib (f :: fs) query max_results
                start_offset s Hs) as (rs & s' & -> & Hs').
    simpl. by eexists _, _.
Qed.

Lemma len_slice_from_zero {A} (l : list A) (hi : Z) :
  0 <= hi -> len (slice l 0 hi) <= hi.
Proof.
  intros Hhi. rewrite slice_from_zero by done.
  unfold len. rewrite length_take. lia.
Qed.

(** X23. [read_zim_entry] has its own truncation: with a maximum that
    is not negative, the content of an answer has at most
    [max_content_length + 15] characters, the maximum and the mark
    ["... [truncated]"] after it. A format other than [text], [html]
    and [raw] is answered by the error response before anything is
    read. *)
Theorem read_zim_entry_content_bounded (zim_file entry_path output_format : str)
    (s s' : State) (resp : ZimEntryResponse) :
  0 <= max_content_length config ->
  Server.read_zim_entry zim_file entry_path output_format s = (inr resp, s') ->
  len (ec_content (entry resp)) <= max_content_length config + 15
  /\ (entry_status resp = lit "success" ->
      output_format ∈ [lit "text"; lit "html"; lit "raw"]
      /\ ec_format (entry resp) = output_format)
  /\ (output_format ∉ [lit "text"; lit "html"; lit "raw"] ->
      resp = Server.entry_error /\ s' = s).
Proof.
  intros Hmax.
  assert (len (ec_content (entry Server.entry_error))
          <= max_content_length config + 15) as Herr.
  { unfold len. simpl. lia. }
  unfold Server.read_zim_entry, try_except, mbind, Py_bind, bind.
  case_bool_decide as Hfmt; simpl.
  2:{ intros [= <- <-]. split_and!; [done|by intros [=]|done]. }
  destruct (ZimManager.get_entry_by_path zim_file entry_path s)
    as [[e|[en|]] s1].
  - destruct (is_OSError_ValueError_RuntimeError e); simpl; [|done].
    intros [= <- <-]. split_and!; [done|by intros [=]|done].
  - unfold lift. destruct (item_content en) as [e|content_bytes]; simpl.
    { destruct (is_OSError_ValueError_RuntimeError e); simpl; [|done].
      intros [= <- <-]. split_and!; [done|by intros [=]|done]. }
    intros [= <- <-]. simpl. split_and!; [|done|done].
    match goal with
    | |- len (if len ?c >? _ then _ else _) <= _ => generalize c
    end.
    intros c. destruct (Z.gtb_spec (len c) (max_content_length config)).
    + pose proof (len_slice_from_zero c (max_content_length config) Hmax).
      unfold len in *. rewrite length_app. simpl. lia.
    + lia.
  - simpl. intros [= <- <-]. split_and!; [done|by intros [=]|done].
Qed.

(** X24. An answer of [browse_zim_entries] counts its entries; a
    successful one is for a limit between 1 and 200 and an archive that
    lies inside the root, exists and opens, and has at most [limit]
    entries; any other answer has none. *)
Theorem browse_zim_entries_success (name : str)
    (path_pattern title_pattern : option str) (limit : Z) (s s' : State)
    (resp : BrowseResponse) :
  library_raises_declared -> state_ok s ->
  Server.browse_zim_entries name path_pattern title_pattern limit s
    = (inr resp, s') ->
  browse_count resp = len (browse_entries resp)
  /\ (browse_status resp = lit "success" ->
      0 < limit <= 200 /\ (exists a, opens name a) /\ browse_count resp <= limit)
  /\ (browse_status resp <> lit "success" -> browse_entries resp = []).
Proof.
  intros Hlib Hs.
  unfold Server.browse_zim_entries, try_except, mbind, Py_bind, bind.
  destruct (Z.leb_spec limit 0) as [Hle|Hpos]; simpl.
  { intros [= <- <-]. split_and!; [done|by intros [=]|done]. }
  destruct (Z.gtb_spec limit 200) as [Hgt|Hok]; simpl.
  { intros [= <- <-]. split_and!; [done|by intros [=]|done]. }
  destruct (validate_zim_file_ok Hlib name s Hs) as (b & s1 & -> & Hs1 & Hb).
  destruct b; simpl.
  2:{ intros [= <- <-]. split_and!; [done|by intros [=]|done]. }
  pose proof (browse_entries_by_pattern_results name path_pattern title_pattern
                limit s1) as [_ Hres].
  destruct (SearchEngine.browse_entries_by_pattern name path_pattern
              title_pattern limit s1) as [[e|rs] s2]; simpl in *.
  { destruct (is_OSError_ValueError_RuntimeError e); simpl; [|done].
    intros [= <- <-]. split_and!; [done|by intros [=]|done]. }
  intros [= <- <-]. simpl. destruct (Hres rs eq_refl) as [Hlen _].
  split_and!; [done| |done].
  intros _. split_and!; [lia|lia|by apply Hb|].
  unfold len in *. rewrite length_map. lia.
Qed.

Lemma random_loop_keeps (P : list RandomEntry -> Prop) (count : Z)
    (name : str) (rounds : nat) (st : State * list RandomEntry) :
  (forall l p t b, P l -> len l < count ->
     P (l ++ [mkRandomEntry name p t b])) ->
  P (snd st) -> P (snd (Server.random_loop rounds name count st).2).
Proof.
  intros Hstep. revert st. induction rounds as [|n IH]; intros st Hst; simpl.
  { done. }
  unfold mbind at 1. unfold Py_bind, bind, state.
  destruct (Z.geb_spec (len st.2) count) as [Hfull|Hroom]; [done|].
  unfold mbind at 1. unfold Py_bind, bind, zoom.
  destruct (ZimManagerMore.get_random_entry name st.1) as [[e|[en|]] s1];
    simpl; [done| |].
  - apply IH. simpl. by apply Hstep.
  - by apply IH.
Qed.

Lemma random_per_file_keeps (P : list RandomEntry -> Prop) (count per : Z)
    (name : str) (st : State * list RandomEntry) :
  (forall l p t b, P l -> len l < count ->
     P (l ++ [mkRandomEntry name p t b])) ->
  P (snd st) -> P (snd (Server.random_per_file per count name st).2).
Proof.
  intros Hstep Hst. unfold Server.random_per_file, try_except.
  pose proof (random_loop_keeps P count name (Z.to_nat per) st Hstep Hst) as Hl.
  destruct (Server.random_loop (Z.to_nat per) name count st) as [[e|[]] st'];
    [|done].
  by destruct (is_OSError_ValueError_RuntimeError e).
Qed.

Lemma random_files_keep (P : list RandomEntry -> Prop) (count per : Z)
    (names : list str) (st : State * list RandomEntry) :
  (forall name l p t b, name ∈ names -> P l -> len l < count ->
     P (l ++ [mkRandomEntry name p t b])) ->
  P (snd st) ->
  P (snd (for_each names (Server.random_per_file per count) st).2).
Proof.
  revert st. induction names as [|name names IH]; intros st Hstep Hst; simpl.
  { done. }
  unfold mbind, Py_bind, bind.
  pose proof (random_per_file_keeps P count per name st
                (fun l p t b => Hstep name l p t b ltac:(by left)) Hst) as Hone.
  destruct (Server.random_per_file per count name st) as [[e|[]] st1]; [done|].
  apply IH; [|done]. intros name' l p t b Hin. apply Hstep. by right.
Qed.

(** X25. [get_random_entries] counts its entries and never returns
    more than [count] of them, so at most 50, although it asks each
    archive for at least one; with an explicit list, every entry names
    an archive of the list. An answer that is not a success has no
    entries. *)
Theorem get_random_entries_bounded (zim_files : option (list str)) (count : Z)
    (s s' : State) (resp : RandomEntriesResponse) :
  Server.get_random_entries zim_files count s = (inr resp, s') ->
  random_count resp = len (random_entries resp)
  /\ random_count resp <= Z.max 0 (Z.min count 50)
  /\ (forall names, zim_files = Some names ->
        Forall (fun e => re_zim_file e ∈ names) (random_entries resp))
  /\ (random_status resp <> lit "success" -> random_entries resp = []).
Proof.
  assert (random_count Server.random_error = len (random_entries Server.random_error)
          /\ random_count Server.random_error <= Z.max 0 (Z.min count 50)
          /\ (forall names, zim_files = Some names ->
                Forall (fun e => re_zim_file e ∈ names)
                  (random_entries Server.random_error))
          /\ (random_status Server.random_error <> lit "success" ->
              random_entries Server.random_error = [])) as Herr.
  { split_and!; [done|simpl; lia|by constructor|done]. }
  unfold Server.get_random_entries, try_except. unfold mbind at 1.
  unfold Py_bind, bind.
  destruct (Z.leb_spec count 0) as [Hle|Hpos]; simpl.
  { by intros [= <- <-]. }
  destruct (Z.gtb_spec count 50) as [Hgt|Hok]; simpl.
  { by intros [= <- <-]. }
  assert (forall (names : list str) (s0 : State),
            (forall fs, zim_files = Some fs -> names = fs) ->
            (let (r, s'0) :=
               match names with
               | [] => ret Server.random_error
               | _ :: _ =>
                   fun s1 : State =>
                     let
                     '(r, (s'1, random_entries)) :=
                      for_each names
                        (Server.random_per_file (Z.max 1 (count / len names)) count)
                        (s1, []) in
                      match r with
                      | inl e => (inl e, s'1)
                      | inr _ =>
                          (inr
                             {| random_status := lit "success";
                                random_count := len random_entries;
                                random_entries := random_entries |}, s'1)
                      end
               end s0 in
             match r with
             | inl e =>
                 if is_OSError_ValueError_RuntimeError e
                 then ret Server.random_error s'0 else (inl e, s'0)
             | inr a => (inr a, s'0)
             end) = (inr resp, s') ->
            random_count resp = len (random_entries resp)
            /\ random_count resp <= Z.max 0 (Z.min count 50)
            /\ (forall names, zim_files = Some names ->
                  Forall (fun e => re_zim_file e ∈ names) (random_entries resp))
            /\ (random_status resp <> lit "success" -> random_entries resp = []))
    as Hmain.
  { intros names s0 Hnames. destruct names as [|name names].
    { by intros [= <- <-]. }
    pose proof (random_files_keep
                  (fun l => len l <= count
                            /\ Forall (fun e => re_zim_file e ∈ name :: names) l)
                  count (Z.max 1 (count / len (name :: names))) (name :: names)
                  (s0, [])) as Hkeep.
    destruct (for_each (name :: names) _ (s0, [])) as [r [s1 entries]].
    simpl in Hkeep. destruct Hkeep as [Hlen Hall].
    { intros f l p t b Hf [Hl Hin] Hroom. split.
      - unfold len in *. rewrite length_app. simpl. lia.
      - apply Forall_app. split; [done|]. by apply Forall_singleton. }
    { split; [unfold len; simpl; lia|constructor]. }
    destruct r as [e|[]].
    { destruct (is_OSError_ValueError_RuntimeError e); [|done].
      by intros [= <- <-]. }
    intros [= <- <-]. simpl. split_and!; [done|lia| |done].
    intros fs Hfs. by rewrite <- (Hnames fs Hfs). }
  destruct zim_files as [names|].
  - simpl. apply Hmain. by intros fs [= ->].
  - unfold mbind at 1. unfold Py_bind, bind.
    destruct (ZimManager.discover_zim_files false s) as [[e|infos] s0]; simpl.
    { destruct (is_OSError_ValueError_RuntimeError e); [|done].
      by intros [= <- <-]. }
    apply Hmain. done.
Qed.
End Tools.

(** ** The properties in the example world *)

Module Example_more.
Import Example.
#[local] Existing Instance env.

Lemma get_archive_opens_once_witness :
  exists s2,
    ZimManager.get_archive (lit "a.zim")
      (ZimManager.get_archive (lit "a.zim") initial_state).2
      = (inr (Some a_zim), s2)
    /\ calls s2 = [CallOpen (lit "/srv/zim/a.zim")].
Proof.
  destruct (get_archive_opens_once (lit "a.zim") a_zim initial_state
              (ZimManager.get_archive (lit "a.zim") initial_state).2)
    as (s2 & Hsecond & Hcalls & _).
  - apply LRU_facts.wf_fresh. simpl. lia.
  - vm_compute. reflexivity.
  - exists s2. split; [exact Hsecond|]. rewrite Hcalls. vm_compute. reflexivity.
Defined.

Lemma discover_zim_files_remembered_witness :
  exists files,
    ZimManager.discover_zim_files false
      (ZimManager.discover_zim_files true initial_state).2
      = (inr files, (ZimManager.discover_zim_files true initial_state).2)
    /\ length files = 1%nat.
Proof.
  assert (exists files,
            ZimManager.discover_zim_files true initial_state
              = (inr files, (ZimManager.discover_zim_files true initial_state).2)
            /\ length files = 1%nat) as (files & Hfirst & Hlen).
  { vm_compute. eexists. split; reflexivity. }
  exists files. split; [|exact Hlen].
  apply (discover_zim_files_remembered true files initial_state).
  - right. reflexivity.
  - exact Hfirst.
Defined.

Lemma get_zim_file_info_keyed_by_base_name_witness :
  exists info s1,
    ZimManagerMore.get_zim_file_info (lit "/srv/zim/a.zim") s1
      = (inr (Some info), s1)
    /\ filename info = lit "a.zim".
Proof.
  assert (exists info,
            ZimManagerMore.get_zim_file_info (lit "a.zim") initial_state
              = (inr (Some info),
                 (ZimManagerMore.get_zim_file_info (lit "a.zim") initial_state).2)
            /\ filename info = lit "a.zim") as (info & Hfirst & Hname).
  { vm_compute. eexists. split; reflexivity. }
  exists info, (ZimManagerMore.get_zim_file_info (lit "a.zim") initial_state).2.
  split; [|exact Hname].
  apply (get_zim_file_info_keyed_by_base_name (lit "a.zim")
           (lit "/srv/zim/a.zim") (Path_of_str (lit "/srv/zim/a.zim"))
           (Path_of_str (lit "/srv/zim/a.zim")) info initial_state).
  - reflexivity.
  - reflexivity.
  - reflexivity.
  - reflexivity.
  - exact Hfirst.
Defined.

Lemma validate_zim_file_opens_witness :
  exists b s',
    ZimManagerMore.validate_zim_file (lit "a.zim") initial_state = (inr b, s')
    /\ state_ok s'
    /\ (b = true <-> exists a, opens (lit "a.zim") a).
Proof.
  apply (validate_zim_file_opens example_library_raises_declared (lit "a.zim")
           initial_state).
  apply state_ok_initial; simpl; lia.
Defined.

Lemma browse_entries_by_pattern_bounds_witness :
  len [hit "One"; hit "One"] <= Z.max 0 2.
Proof.
  apply (browse_entries_by_pattern_bounds (lit "a.zim") None
           (Some (lit "One")) 2 initial_state [hit "One"; hit "One"]
           (SearchEngine.browse_entries_by_pattern (lit "a.zim") None
              (Some (lit "One")) 2 initial_state).2).
  vm_compute. reflexivity.
Defined.

Lemma search_multiple_zim_page_witness :
  len [hit "One"; hit "Three"] <= 2
  /\ StronglySorted
       (fun r1 r2 => len (result_title r1) <= len (result_title r2))
       [hit "One"; hit "Three"]
  /\ Forall (fun r => zim_file r ∈ files) [hit "One"; hit "Three"].
Proof.
  apply (search_multiple_zim_page files (lit " x ") (lit "x") 2 0 initial_state
           (SearchEngine.search_multiple_zim files (lit " x ") 2 0
              initial_state).2).
  - reflexivity.
  - reflexivity.
  - lia.
  - vm_compute. reflexivity.
Defined.

Lemma search_multiple_zim_any_order_witness :
  exists s2,
    SearchEngine.search_multiple_zim [lit "b.zim"; lit "a.zim"] (lit "x") 2 0
      (SearchEngine.search_multiple_zim [lit "a.zim"; lit "b.zim"] (lit "x") 2 0
         initial_state).2
      = (inr [hit "One"; hit "Three"], s2).
Proof.
  destruct (search_multiple_zim_any_order [lit "a.zim"; lit "b.zim"]
              [lit "b.zim"; lit "a.zim"] (lit "x") 2 0 initial_state
              (SearchEngine.search_multiple_zim [lit "a.zim"; lit "b.zim"]
                 (lit "x") 2 0 initial_state).2
              [hit "One"; hit "Three"]) as (s2 & Hsecond & _).
  - apply perm_swap.
  - apply LRU_facts.wf_fresh. simpl. lia.
  - vm_compute. reflexivity.
  - exists s2. exact Hsecond.
Defined.

Lemma caches_stay_within_capacity_witness :
  Z.of_nat (base.size (LRU.cache (archive_cache
     (after [SearchMultiple files (lit "x") 2 0; Browse (lit "a.zim") None None 3]
        initial_state)))) <= 10.
Proof.
  apply (caches_stay_within_capacity
           [SearchMultiple files (lit "x") 2 0; Browse (lit "a.zim") None None 3]
           example_library_raises_declared); simpl; lia.
Defined.

Lemma search_zim_files_status_witness :
  exists resp s',
    Server.search_zim_files (lit "x") (Some [lit "a.zim"]) 2 0 initial_state
      = (inr resp, s')
    /\ state_ok s'.
Proof.
  destruct (search_zim_files_status (lit "x") (lit "a.zim") [] 2 0
              initial_state) as (_ & _ & Hanswers).
  apply Hanswers.
  - exact example_library_raises_declared.
  - apply state_ok_initial; simpl; lia.
Defined.

Lemma read_zim_entry_content_bounded_witness :
  exists resp,
    ec_content (entry resp) = lit "61626... [truncated]"
    /\ len (ec_content (entry resp)) <= 5 + 15.
Proof.
  assert (exists resp,
            Server.read_zim_entry
              (lit "a.zim") (lit "A/One") (lit "raw") initial_state
              = (inr resp,
                 (Server.read_zim_entry
                    (lit "a.zim") (lit "A/One") (lit "raw") initial_state).2)
            /\ ec_content (entry resp) = lit "61626... [truncated]")
    as (resp & Hcall & Hcontent).
  { vm_compute. eexists. split; reflexivity. }
  exists resp. split; [exact Hcontent|].
  destruct (read_zim_entry_content_bounded (H := env)
              (lit "a.zim") (lit "A/One") (lit "raw") initial_state _ resp
              ltac:(simpl; lia) Hcall) as [Hlen _].
  exact Hlen.
Defined.

Lemma browse_zim_entries_success_witness :
  exists resp,
    browse_status resp = lit "success" /\ browse_count resp = 2
    /\ browse_count resp = len (browse_entries resp).
Proof.
  assert (exists resp,
            Server.browse_zim_entries (lit "a.zim") None None 2 initial_state
              = (inr resp,
                 (Server.browse_zim_entries (lit "a.zim") None None 2
                    initial_state).2)
            /\ browse_status resp = lit "success" /\ browse_count resp = 2)
    as (resp & Hcall & Hstatus & Hcount).
  { vm_compute. eexists. split_and!; reflexivity. }
  exists resp. split; [exact Hstatus|]. split; [exact Hcount|].
  destruct (browse_zim_entries_success (H := env) (lit "a.zim") None None 2 initial_state
              _ resp example_library_raises_declared
              ltac:(apply state_ok_initial; simpl; lia) Hcall) as [Hlen _].
  exact Hlen.
Defined.

Lemma get_random_entries_bounded_witness :
  exists resp,
    random_status resp = lit "success"
    /\ random_count resp <= Z.max 0 (Z.min 3 50).
Proof.
  assert (exists resp,
            Server.get_random_entries (Some [lit "a.zim"; lit "a.zim"]) 3
              initial_state
              = (inr resp,
                 (Server.get_random_entries (Some [lit "a.zim"; lit "a.zim"]) 3
                    initial_state).2)
            /\ random_status resp = lit "success") as (resp & Hcall & Hstatus).
  { vm_compute. eexists. split; reflexivity. }
  exists resp. split; [exact Hstatus|].
  destruct (get_random_entries_bounded (Some [lit "a.zim"; lit "a.zim"]) 3
              initial_state _ resp Hcall) as (_ & Hmost & _).
  exact Hmost.
Defined.
End Example_more.
